(** * A login-gated movie catalogue: data model, URL routing and views

    Shallow embedding of [movies_site/movies_app] (models.py, urls.py,
    views.py, forms.py).  Database tables are finite maps from primary keys to
    rows, views are computations in a state-and-exception monad over the
    database and the message queue of the request, and the behaviour the
    application inherits from its web framework (query sets, cascading
    deletes, access mixins, URL resolution) is written out as the functions
    the source calls. *)

From Stdlib Require Import ZArith QArith String Ascii DecimalString.
From stdpp Require Import base option list gmap sets strings sorting.

Open Scope string_scope.
Open Scope Z_scope.

(** Primary keys ([AutoField]); the [<int:pk>] converter yields a natural. *)
Abbreviation pk := N (only parsing).

(** ** Decimal values

    [decimal.Decimal] as its [as_tuple()]: sign, digits (most significant
    first) and exponent.  Only finite values occur: the form field turns
    anything else into a validation error before the validators run. *)
Module Decimal.
Record t := { sign : bool; digits : list nat; exponent : Z }.

Definition coefficient (d : t) : Z :=
  fold_left (λ acc x, 10 * acc + Z.of_nat x) (digits d) 0.

Definition value (d : t) : Q :=
  (if sign d then -(1) else 1) * inject_Z (coefficient d) * Qpower 10 (exponent d).

(** [a < b] and [a > b] against a float bound that is an exact integer. *)
Definition lt (d : t) (bound : Q) : bool := negb (Qle_bool bound (value d)).
Definition gt (d : t) (bound : Q) : bool := negb (Qle_bool (value d) bound).
End Decimal.

#[global] Instance Decimal_eq_dec : EqDecision Decimal.t.
Proof. solve_decision. Defined.

(** [MinValueValidator(limit)], [MaxValueValidator(limit)]: [true] when the
    value passes. *)
Definition MinValueValidator (limit : Q) (d : Decimal.t) : bool := negb (Decimal.lt d limit).
Definition MaxValueValidator (limit : Q) (d : Decimal.t) : bool := negb (Decimal.gt d limit).

(** [DecimalValidator(max_digits, decimal_places)], which a [DecimalField]
    adds to its validators. *)
Definition DecimalValidator (max_digits decimal_places : Z) (d : Decimal.t) : bool :=
  let len := Z.of_nat (length (Decimal.digits d)) in
  let e := Decimal.exponent d in
  let '(digits, decimals) :=
    if 0 <=? e then
      (if bool_decide (Decimal.digits d = [0%nat]) then len else len + e, 0)
    else if len <? Z.abs e then (Z.abs e, Z.abs e)
    else (len, Z.abs e) in
  let whole_digits := digits - decimals in
  (digits <=? max_digits) && (decimals <=? decimal_places)
  && (whole_digits <=? max_digits - decimal_places).

(** ** Text lookups

    [field__icontains=query]: a [LIKE '%query%'] comparison that ignores the
    case of ASCII letters (the wildcard characters of the query are escaped,
    so the query is matched literally). *)
Definition lower_ascii (c : ascii) : ascii :=
  let n := N_of_ascii c in
  if ((65 <=? n) && (n <=? 90))%N then ascii_of_N (n + 32) else c.

Fixpoint lower (s : string) : string :=
  match s with
  | EmptyString => EmptyString
  | String c s' => String (lower_ascii c) (lower s')
  end.

Fixpoint contains (needle hay : string) : bool :=
  String.prefix needle hay ||
  match hay with
  | EmptyString => false
  | String _ hay' => contains needle hay'
  end.

Definition icontains (field query : string) : bool :=
  contains (lower query) (lower field).

(** ** models.py *)

(** Dates as day numbers, instants as seconds. *)
Definition Date := Z.
Definition DateTime := Z.

(** [django.contrib.auth.models.User], the fields the application reads. *)
Module User.
Record t := { username : string; is_staff : bool }.
End User.

Module Category.
Record t := { name : string; slug : string }.
End Category.

Module Profile.
Record t := { user : pk; bio : string; avatar : option string }.
End Profile.

Module Movie.
Record t := {
  title : string;
  slug : string;
  poster : string;
  description : string;
  release_date : Date;
  actors : string;
  rating : Decimal.t;
  category : option pk;          (* on_delete=SET_NULL, null=True *)
  trailer_url : string;
  created_by : pk;               (* on_delete=CASCADE *)
  created_at : DateTime;
  updated_at : DateTime
}.

Definition set_category (c : option pk) (m : t) : t :=
  {| title := title m; slug := slug m; poster := poster m;
     description := description m; release_date := release_date m;
     actors := actors m; rating := rating m; category := c;
     trailer_url := trailer_url m; created_by := created_by m;
     created_at := created_at m; updated_at := updated_at m |}.
End Movie.

Module Comment.
Record t := {
  movie : pk;                    (* on_delete=CASCADE *)
  user : pk;                     (* on_delete=CASCADE *)
  content : string;
  created_at : DateTime;
  updated_at : DateTime
}.
End Comment.

Module Favorite.
Record t := {
  user : pk;                     (* on_delete=CASCADE *)
  movie : pk;                    (* on_delete=CASCADE *)
  created_at : DateTime
}.
End Favorite.

#[global] Instance User_eq_dec : EqDecision User.t.
Proof. solve_decision. Defined.
#[global] Instance Category_eq_dec : EqDecision Category.t.
Proof. solve_decision. Defined.
#[global] Instance Profile_eq_dec : EqDecision Profile.t.
Proof. solve_decision. Defined.
#[global] Instance Movie_eq_dec : EqDecision Movie.t.
Proof. solve_decision. Defined.
#[global] Instance Comment_eq_dec : EqDecision Comment.t.
Proof. solve_decision. Defined.
#[global] Instance Favorite_eq_dec : EqDecision Favorite.t.
Proof. solve_decision. Defined.

(** The database: one table per model, keyed by primary key. *)
Record Store := {
  users : gmap pk User.t;
  profiles : gmap pk Profile.t;
  categories : gmap pk Category.t;
  movies : gmap pk Movie.t;
  comments : gmap pk Comment.t;
  favorites : gmap pk Favorite.t
}.

Definition empty_store : Store :=
  {| users := ∅; profiles := ∅; categories := ∅; movies := ∅;
     comments := ∅; favorites := ∅ |}.

Definition set_users (f : gmap pk User.t → gmap pk User.t) (s : Store) : Store :=
  {| users := f (users s); profiles := profiles s; categories := categories s;
     movies := movies s; comments := comments s; favorites := favorites s |}.
Definition set_profiles (f : gmap pk Profile.t → gmap pk Profile.t) (s : Store) : Store :=
  {| users := users s; profiles := f (profiles s); categories := categories s;
     movies := movies s; comments := comments s; favorites := favorites s |}.
Definition set_categories (f : gmap pk Category.t → gmap pk Category.t) (s : Store) : Store :=
  {| users := users s; profiles := profiles s; categories := f (categories s);
     movies := movies s; comments := comments s; favorites := favorites s |}.
Definition set_movies (f : gmap pk Movie.t → gmap pk Movie.t) (s : Store) : Store :=
  {| users := users s; profiles := profiles s; categories := categories s;
     movies := f (movies s); comments := comments s; favorites := favorites s |}.
Definition set_comments (f : gmap pk Comment.t → gmap pk Comment.t) (s : Store) : Store :=
  {| users := users s; profiles := profiles s; categories := categories s;
     movies := movies s; comments := f (comments s); favorites := favorites s |}.
Definition set_favorites (f : gmap pk Favorite.t → gmap pk Favorite.t) (s : Store) : Store :=
  {| users := users s; profiles := profiles s; categories := categories s;
     movies := movies s; comments := comments s; favorites := f (favorites s) |}.

(** ** Exceptions, messages and the view monad *)

Inductive Exception :=
| Http404
| PermissionDenied
| DoesNotExist
| MultipleObjectsReturned
| RelatedObjectDoesNotExist
| IntegrityError
| NoReverseMatch.

Inductive Outcome (A : Type) :=
| Return (a : A)
| Raise (e : Exception).
Arguments Return {A} a.
Arguments Raise {A} e.

(** [django.contrib.messages]: the levels the views use. *)
Inductive Level := INFO | SUCCESS | ERROR.

#[global] Instance Exception_eq_dec : EqDecision Exception.
Proof. solve_decision. Defined.
#[global] Instance Level_eq_dec : EqDecision Level.
Proof. solve_decision. Defined.

(** What a request handler can change: the database and the messages queued
    on the request.  An exception leaves both as they are at the point where
    it is raised: each query commits on its own, nothing in the application
    wraps a request in a transaction. *)
Record World := { db : Store; _messages : list (Level * string) }.

Definition M (A : Type) : Type := World → Outcome A * World.

#[global] Instance M_ret : MRet M := λ A a w, (Return a, w).
#[global] Instance M_bind : MBind M := λ A B f m w,
  match m w with
  | (Return a, w') => f a w'
  | (Raise e, w') => (Raise e, w')
  end.

Definition raise {A} (e : Exception) : M A := λ w, (Raise e, w).
Definition lift {A} (o : Outcome A) : M A := λ w, (o, w).
Definition query {A} (f : Store → A) : M A := λ w, (Return (f (db w)), w).
Definition execute (f : Store → Store) : M unit :=
  λ w, (Return (), {| db := f (db w); _messages := _messages w |}).

Module messages.
Definition add_message (level : Level) (text : string) : M unit :=
  λ w, (Return (), {| db := db w; _messages := _messages w ++ [(level, text)] |}).
Definition info := add_message INFO.
Definition success := add_message SUCCESS.
Definition error := add_message ERROR.
End messages.

(** ** Query sets *)

Definition QuerySet (A : Type) : Type := Store → list (pk * A).

Definition objects {A} (table : Store → gmap pk A) : QuerySet A :=
  λ s, map_to_list (table s).

Definition qfilter {A} (P : pk * A → Prop) `{!∀ r, Decision (P r)}
    (qs : QuerySet A) : QuerySet A :=
  λ s, filter P (qs s).

(** [QuerySet.get()]. *)
Definition get {A} (rows : list A) : Outcome A :=
  match rows with
  | [] => Raise DoesNotExist
  | [r] => Return r
  | _ :: _ :: _ => Raise MultipleObjectsReturned
  end.

(** [QuerySet.exists()]. *)
Definition exists_ {A} (rows : list A) : bool :=
  match rows with [] => false | _ :: _ => true end.

(** [get_object_or_404], and [SingleObjectMixin.get_object] which does the
    same with the view's slug. *)
Definition get_object_or_404 {A} (qs : QuerySet A) : M (pk * A) :=
  rows ← query qs;
  match get rows with
  | Return r => mret r
  | Raise DoesNotExist => raise Http404
  | Raise e => raise e
  end.

(** Following a foreign key ([comment.movie]): the row it names, fetched
    with [get()]. *)
Definition related {A} (qs : QuerySet A) : M (pk * A) :=
  rows ← query qs; lift (get rows).

(** [Model.objects.create] into a table: the row gets an unused key. *)
Definition next_pk {A} (table : gmap pk A) : pk := fresh ({[0%N]} ∪ dom table).

(** ** Deletion (the [on_delete] rules of models.py) *)

Definition Category_delete (id : pk) (s : Store) : Store :=
  set_categories (delete id)
    (set_movies (fmap (λ m, if decide (Movie.category m = Some id)
                            then Movie.set_category None m else m)) s).

Definition Movie_delete (id : pk) (s : Store) : Store :=
  set_movies (delete id)
    (set_comments (filter (λ r, Comment.movie r.2 ≠ id))
      (set_favorites (filter (λ r, Favorite.movie r.2 ≠ id)) s)).

Definition Comment_delete (id : pk) (s : Store) : Store :=
  set_comments (delete id) s.

Definition Favorite_delete (id : pk) (s : Store) : Store :=
  set_favorites (delete id) s.

Definition Profile_delete (id : pk) (s : Store) : Store :=
  set_profiles (delete id) s.

(** ** urls.py

    Routes are written as in the source and read by [parse_route] into
    literal text and [<converter:name>] parameters.  The application's URL
    configuration is taken to be mounted at the site root, as the route table
    of the specification has it. *)

Module views.
Inductive t :=
| CustomLoginView | register | LogoutView
| MovieListView | MovieDetailView
| MovieCreateView | MovieUpdateView | MovieDeleteView
| MoviesByCategoryView | SearchResultsView | UserMoviesView
| add_comment | delete_comment | toggle_favorite
| DashboardView.
End views.

#[global] Instance views_eq_dec : EqDecision views.t.
Proof. solve_decision. Defined.

Inductive Converter := slug_converter | str_converter | int_converter.

(** The values a view receives from the URL and [reverse] is given: text,
    or the integer of an [int] parameter. *)
Inductive Value :=
| Str (s : string)
| Int (n : Z).

#[global] Instance Value_eq_dec : EqDecision Value.
Proof. solve_decision. Defined.

(** [int(text)] on the digits of a parameter, leading zeros read away and
    the empty text refused, and [str(n)]: the decimal digits of [n], after a
    minus sign when it is negative. *)
Definition int (text : string) : option Z := Z.of_uint <$> NilZero.uint_of_string text.
Definition str (n : Z) : string := NilZero.string_of_int (Z.to_int n).

(** [converter.to_python(value)]; [None] stands for the [ValueError] that
    makes the pattern not match.  [converter.to_url(value)] is [str(value)]
    for every converter. *)
Definition to_python (c : Converter) (value : string) : option Value :=
  match c with
  | int_converter => Int <$> int value
  | slug_converter | str_converter => Some (Str value)
  end.

Definition to_url (value : Value) : string :=
  match value with
  | Str s => s
  | Int n => str n
  end.

Inductive Piece :=
| Lit (text : string)
| Param (converter : Converter) (name : string).

Definition is_digit (ch : ascii) : bool :=
  let n := N_of_ascii ch in ((48 <=? n) && (n <=? 57))%N.
Definition is_letter (ch : ascii) : bool :=
  let n := N_of_ascii ch in
  (((65 <=? n) && (n <=? 90)) || ((97 <=? n) && (n <=? 122)))%N.

(** The character class of each converter's regex: [[-a-zA-Z0-9_]+],
    [[^/]+] and [[0-9]+]. *)
Definition in_class (c : Converter) (ch : ascii) : bool :=
  match c with
  | slug_converter =>
      is_letter ch || is_digit ch || bool_decide (ch = "-"%char) || bool_decide (ch = "_"%char)
  | str_converter => negb (bool_decide (ch = "/"%char))
  | int_converter => is_digit ch
  end.

Definition get_converter (name : string) : option Converter :=
  if decide (name = "slug") then Some slug_converter
  else if decide (name = "str") then Some str_converter
  else if decide (name = "int") then Some int_converter
  else None.

(** [split_at ch s]: the text before and after the first [ch] of [s]. *)
Fixpoint split_at (ch : ascii) (s : string) : option (string * string) :=
  match s with
  | EmptyString => None
  | String c s' =>
      if decide (c = ch) then Some (EmptyString, s')
      else '(before, after) ← split_at ch s'; Some (String c before, after)
  end.

Fixpoint parse_route (fuel : nat) (route : string) : option (list Piece) :=
  match fuel with
  | O => None
  | S fuel =>
      match split_at "<" route with
      | None => Some (if decide (route = "") then [] else [Lit route])
      | Some (text, rest) =>
          '(spec, rest') ← split_at ">" rest;
          '(conv, name) ← match split_at ":" spec with
                          | Some (c, n) => c' ← get_converter c; Some (c', n)
                          | None => Some (str_converter, spec)
                          end;
          pieces ← parse_route fuel rest';
          Some ((if decide (text = "") then [] else [Lit text]) ++ Param conv name :: pieces)%list
      end
  end.

Fixpoint strip_prefix (p s : string) : option string :=
  match p, s with
  | EmptyString, _ => Some s
  | String a p', String b s' => if decide (a = b) then strip_prefix p' s' else None
  | String _ _, EmptyString => None
  end.

(** Matching a path against a route ([RoutePattern.match]): the whole path
    must be consumed; a parameter takes the longest run of characters of its
    class from which the rest of the route still matches (a greedy [+] with
    backtracking), and the view is handed what the converter's [to_python]
    makes of that text.  The conversion cannot fail on text of the
    converter's class. *)
Fixpoint match_route (ps : list Piece) (s : string) : option (list (string * Value)) :=
  match ps with
  | [] => if decide (s = "") then Some [] else None
  | Lit l :: ps' => s' ← strip_prefix l s; match_route ps' s'
  | Param c n :: ps' =>
      (fix scan (taken s : string) {struct s} : option (list (string * Value)) :=
         let stop :=
           if decide (taken = "") then None
           else kw ← match_route ps' s; value ← to_python c taken; Some ((n, value) :: kw) in
         match s with
         | String ch s' =>
             if in_class c ch then
               match scan (taken +:+ String ch "") s' with
               | Some kw => Some kw
               | None => stop
               end
             else stop
         | EmptyString => stop
         end) "" s
  end.

Record URLPattern := {
  route : string;
  callback : views.t;
  url_name : string
}.

Definition path (route : string) (view : views.t) (name : string) : URLPattern :=
  {| route := route; callback := view; url_name := name |}.

Definition pieces (p : URLPattern) : list Piece :=
  default [] (parse_route (S (String.length (route p))) (route p)).

Definition urlpatterns : list URLPattern := [
  path "" views.CustomLoginView "login";
  path "register/" views.register "register";
  path "logout/" views.LogoutView "logout";
  path "movies/" views.MovieListView "movie_list";
  path "movie/<slug:slug>/" views.MovieDetailView "movie_detail";
  path "movie/add/" views.MovieCreateView "movie_create";
  path "movie/<slug:slug>/edit/" views.MovieUpdateView "movie_update";
  path "movie/<slug:slug>/delete/" views.MovieDeleteView "movie_delete";
  path "category/<slug:slug>/" views.MoviesByCategoryView "movies_by_category";
  path "search/" views.SearchResultsView "search_results";
  path "user/<str:username>/" views.UserMoviesView "user_movies";
  path "movie/<slug:slug>/comment/add/" views.add_comment "add_comment";
  path "comment/<int:pk>/delete/" views.delete_comment "delete_comment";
  path "movie/<slug:slug>/favorite/" views.toggle_favorite "toggle_favorite";
  path "dashboard/" views.DashboardView "dashboard"
].

(** [URLResolver.resolve]: the patterns are tried in order and the first
    that matches wins. *)
Fixpoint resolve_in (patterns : list URLPattern) (s : string)
    : option (views.t * list (string * Value)) :=
  match patterns with
  | [] => None
  | p :: patterns' =>
      match match_route (pieces p) s with
      | Some kwargs => Some (callback p, kwargs)
      | None => resolve_in patterns' s
      end
  end.

Definition resolve (path_info : string) : option (views.t * list (string * Value)) :=
  match strip_prefix "/" path_info with
  | Some s => resolve_in urlpatterns s
  | None => None
  end.

(** [reverse(viewname, args=[...])]: the first pattern of that name whose
    parameters accept the arguments as [to_url] writes them.  The path is
    percent-encoded: [quote(path, safe=RFC3986_SUBDELIMS + "/~:@")] leaves
    letters, digits and the listed punctuation and writes every other byte
    as [%XX]; a path that would start with two slashes has the second one
    escaped. *)
Definition accepts (c : Converter) (arg : string) : bool :=
  bool_decide (arg ≠ "") && forallb (in_class c) (list_ascii_of_string arg).

Fixpoint build (ps : list Piece) (args : list Value) : option string :=
  match ps, args with
  | [], [] => Some ""
  | Lit l :: ps', _ => rest ← build ps' args; Some (l +:+ rest)
  | Param c _ :: ps', a :: args' =>
      if accepts c (to_url a) then rest ← build ps' args'; Some (to_url a +:+ rest)
      else None
  | _, _ => None
  end.

Definition quote_safe (ch : ascii) : bool :=
  is_letter ch || is_digit ch
  || bool_decide (ch ∈ list_ascii_of_string "_.-~")
  || bool_decide (ch ∈ list_ascii_of_string "!$&'()*+,;=")
  || bool_decide (ch ∈ list_ascii_of_string "/~:@").

Definition hex_digit (n : N) : ascii :=
  if (n <? 10)%N then ascii_of_N (48 + n) else ascii_of_N (55 + n).

Fixpoint quote (s : string) : string :=
  match s with
  | EmptyString => EmptyString
  | String ch s' =>
      if quote_safe ch then String ch (quote s')
      else String "%" (String (hex_digit (N_of_ascii ch / 16))
                         (String (hex_digit (N_of_ascii ch mod 16)) (quote s')))
  end.

Definition escape_leading_slashes (url : string) : string :=
  match url with
  | String a (String b rest) =>
      if decide (a = "/"%char ∧ b = "/"%char) then "/%2F" +:+ rest else url
  | _ => url
  end.

Fixpoint reverse_in (patterns : list URLPattern) (viewname : string) (args : list Value)
    : Outcome string :=
  match patterns with
  | [] => Raise NoReverseMatch
  | p :: patterns' =>
      match (if decide (url_name p = viewname) then build (pieces p) args else None) with
      | Some url => Return (escape_leading_slashes (quote ("/" +:+ url)))
      | None => reverse_in patterns' viewname args
      end
  end.

Definition reverse (viewname : string) (args : list Value) : Outcome string :=
  reverse_in urlpatterns viewname args.

Definition Movie_get_absolute_url (movie : Movie.t) : Outcome string :=
  reverse "movie_detail" [Str (Movie.slug movie)].

(** ** Requests and responses *)

(** The request methods a class-based view dispatches on
    ([View.http_method_names]); [OTHER] stands for any other token. *)
Inductive Method := GET | POST | PUT | PATCH | DELETE | HEAD | OPTIONS | TRACE | OTHER.

#[global] Instance Method_eq_dec : EqDecision Method.
Proof. solve_decision. Defined.

(** The fields of a submitted movie form after each form field's own
    conversion: text fields stripped (empty when absent), and [None] where
    the submitted value is absent or is not a date, a finite decimal, a
    category key, an image or a URL. *)
Module MovieForm.
Record t := {
  title : string;
  poster : option string;
  description : string;
  release_date : option Date;
  actors : string;
  rating : option Decimal.t;
  category : option pk;
  trailer_url : option string
}.
End MovieForm.

Inductive PostData :=
| NoData
| MovieData (form : MovieForm.t)
| CommentData (content : string).

Module HttpRequest.
Record t := {
  method : Method;
  user : option pk;              (* the session's user id, if any *)
  GET : gmap string string;
  POST : PostData;               (* the form data of the body, read on a POST *)
  now : DateTime                 (* timezone.now() while it is handled *)
}.
End HttpRequest.

Inductive HttpResponse :=
| HttpResponseRedirect (url : string)
| RedirectToLogin                                   (* redirect_to_login(next=...) *)
| TemplateResponse (template : string) (form_errors : list string)
| HttpResponseNotAllowed                            (* 405 *)
| AllowResponse.                                    (* 200 with the Allow header *)

(** [request.user]: the row of the session's user, [None] standing for
    [AnonymousUser]. *)
Definition session_user (request : HttpRequest.t) (s : Store) : option (pk * User.t) :=
  uid ← HttpRequest.user request; u ← users s !! uid; Some (uid, u).

Definition request_user (request : HttpRequest.t) : M (option (pk * User.t)) :=
  query (session_user request).

(** [@login_required]. *)
Definition login_required (view : pk * User.t → M HttpResponse)
    (request : HttpRequest.t) : M HttpResponse :=
  u ← request_user request;
  match u with
  | Some user => view user
  | None => mret RedirectToLogin
  end.

(** [AccessMixin.handle_no_permission] with [raise_exception = False]. *)
Definition handle_no_permission (user : option (pk * User.t)) : M HttpResponse :=
  match user with
  | Some _ => raise PermissionDenied
  | None => mret RedirectToLogin
  end.

Definition LoginRequiredMixin (request : HttpRequest.t)
    (dispatch : pk * User.t → M HttpResponse) : M HttpResponse :=
  u ← request_user request;
  match u with
  | Some user => dispatch user
  | None => handle_no_permission None
  end.

Definition UserPassesTestMixin (test_func : M bool) (user : pk * User.t)
    (dispatch : M HttpResponse) : M HttpResponse :=
  user_test_result ← test_func;
  if user_test_result : bool then dispatch else handle_no_permission (Some user).

(** ** Forms (the model forms derived from models.py) *)

(** [ProhibitNullCharactersValidator], which every [forms.CharField]
    runs. *)
Definition has_null (value : string) : bool :=
  bool_decide (Ascii.zero ∈ list_ascii_of_string value).

Definition rating_validators (d : Decimal.t) : bool :=
  DecimalValidator 3 1 d && MinValueValidator 0 d && MaxValueValidator 10 d.

Definition check (field : string) (ok : bool) : list string :=
  if ok then [] else [field].

(** The fields in error of a movie form bound to [instance] ([None] for a
    new movie).  A file field keeps the instance's file when none is sent. *)
Definition MovieForm_errors (s : Store) (instance : option Movie.t)
    (form : MovieForm.t) : list string :=
  (check "title" (negb (bool_decide (MovieForm.title form = ""))
                  && (String.length (MovieForm.title form) <=? 255)%nat
                  && negb (has_null (MovieForm.title form)))
   ++ check "poster" (match MovieForm.poster form, instance with
                      | Some _, _ => true
                      | None, Some obj => negb (bool_decide (Movie.poster obj = ""))
                      | None, None => false
                      end)
   ++ check "description" (negb (bool_decide (MovieForm.description form = ""))
                           && negb (has_null (MovieForm.description form)))
   ++ check "release_date" (bool_decide (is_Some (MovieForm.release_date form)))
   ++ check "actors" (negb (bool_decide (MovieForm.actors form = ""))
                      && negb (has_null (MovieForm.actors form)))
   ++ check "rating" (match MovieForm.rating form with
                      | Some d => rating_validators d
                      | None => false
                      end)
   ++ check "category" (match MovieForm.category form with
                        | Some c => bool_decide (is_Some (categories s !! c))
                        | None => false
                        end)
   ++ check "trailer_url" (match MovieForm.trailer_url form with
                           | Some u => (String.length u <=? 200)%nat && negb (has_null u)
                           | None => false
                           end))%list.

(** [construct_instance]: the form's values written onto a movie whose other
    fields are given. *)
Definition construct_instance (form : MovieForm.t) (slug old_poster : string)
    (created_by : pk) (created_at updated_at : DateTime) : option Movie.t :=
  release_date ← MovieForm.release_date form;
  rating ← MovieForm.rating form;
  category ← MovieForm.category form;
  trailer_url ← MovieForm.trailer_url form;
  Some {| Movie.title := MovieForm.title form;
          Movie.slug := slug;
          Movie.poster := default old_poster (MovieForm.poster form);
          Movie.description := MovieForm.description form;
          Movie.release_date := release_date;
          Movie.actors := MovieForm.actors form;
          Movie.rating := rating;
          Movie.category := Some category;
          Movie.trailer_url := trailer_url;
          Movie.created_by := created_by;
          Movie.created_at := created_at;
          Movie.updated_at := updated_at |}.

(** The movie form bound to no data at all. *)
Definition empty_movie_form : MovieForm.t :=
  {| MovieForm.title := ""; MovieForm.poster := None;
     MovieForm.description := ""; MovieForm.release_date := None;
     MovieForm.actors := ""; MovieForm.rating := None;
     MovieForm.category := None; MovieForm.trailer_url := Some "" |}.

Definition movie_form (request : HttpRequest.t) : MovieForm.t :=
  match HttpRequest.POST request with
  | MovieData form => form
  | _ => empty_movie_form
  end.

(** [CommentForm]: the stripped [content], required, at most 2000
    characters and free of null characters. *)
Definition comment_content (request : HttpRequest.t) : string :=
  match HttpRequest.POST request with
  | CommentData content => content
  | _ => ""
  end.

Definition CommentForm_is_valid (content : string) : bool :=
  negb (bool_decide (content = "")) && (String.length content <=? 2000)%nat
  && negb (has_null content).

(** ** Saving rows *)

(** [Movie.save()]: an insert under an unused key ([id = None]) or an update
    of row [id]; the unique index on [slug] refuses a slug another row has. *)
Definition slug_taken (id : option pk) (slug : string) (s : Store) : bool :=
  exists_ (qfilter (λ r, Movie.slug r.2 = slug ∧ Some r.1 ≠ id) (objects movies) s).

Definition Movie_save (id : option pk) (row : Movie.t) : M (pk * Movie.t) :=
  taken ← query (slug_taken id (Movie.slug row));
  if taken : bool then raise IntegrityError
  else
    k ← query (λ s, default (next_pk (movies s)) id);
    execute (set_movies (insert k row));;
    mret (k, row).

Definition Comment_save (row : Comment.t) : M (pk * Comment.t) :=
  k ← query (λ s, next_pk (comments s));
  execute (set_comments (insert k row));;
  mret (k, row).

(** [Favorite.objects.get_or_create(user=..., movie=...)]. *)
Definition Favorite_get_or_create (user movie : pk) (now : DateTime)
    : M ((pk * Favorite.t) * bool) :=
  rows ← query (qfilter (λ r, Favorite.user r.2 = user ∧ Favorite.movie r.2 = movie)
                        (objects favorites));
  match get rows with
  | Return fav => mret (fav, false)
  | Raise DoesNotExist =>
      k ← query (λ s, next_pk (favorites s));
      let fav := {| Favorite.user := user; Favorite.movie := movie;
                    Favorite.created_at := now |} in
      execute (set_favorites (insert k fav));;
      mret ((k, fav), true)
  | Raise e => raise e
  end.

(** The [post_save] receiver of [User] (models.py). *)
Definition create_or_update_user_profile (instance : pk) (created : bool) : M unit :=
  if created then
    (* Profile.objects.create(user=instance); the one-to-one column is unique *)
    rows ← query (qfilter (λ r, Profile.user r.2 = instance) (objects profiles));
    if exists_ rows then raise IntegrityError
    else
      k ← query (λ s, next_pk (profiles s));
      execute (set_profiles (insert k {| Profile.user := instance; Profile.bio := "";
                                         Profile.avatar := None |}))
  else
    (* instance.profile.save() *)
    rows ← query (qfilter (λ r, Profile.user r.2 = instance) (objects profiles));
    match get rows with
    | Return (k, profile) => execute (set_profiles (insert k profile))
    | Raise DoesNotExist => raise RelatedObjectDoesNotExist
    | Raise e => raise e
    end.

(** [User.save()]: the row is written, then [post_save] is sent with
    [created] telling an insert from an update. *)
Definition User_save (id : option pk) (row : User.t) : M pk :=
  known ← query (λ s, match id with
                      | Some k => bool_decide (is_Some (users s !! k))
                      | None => false
                      end);
  k ← query (λ s, default (next_pk (users s)) id);
  taken ← query (qfilter (λ r, User.username r.2 = User.username row ∧ r.1 ≠ k)
                         (objects users));
  if exists_ taken then raise IntegrityError
  else
    execute (set_users (insert k row));;
    create_or_update_user_profile k (negb known);;
    mret k.

(** ** views.py *)

Definition redirect (url : Outcome string) : M HttpResponse :=
  url ← lift url; mret (HttpResponseRedirect url).

Definition Movie_by_slug (slug : string) : QuerySet Movie.t :=
  qfilter (λ r, Movie.slug r.2 = slug) (objects movies).

(** [View.dispatch] calls the handler named after the request method and
    [http_method_not_allowed] when the view has none; every view has
    [options], and a view with [get] answers HEAD with it. *)
Module View.
Definition http_method_not_allowed : M HttpResponse := mret HttpResponseNotAllowed.
Definition options : M HttpResponse := mret AllowResponse.
End View.

Section MovieCreate.
(** [django.utils.text.slugify]. *)
Variable slugify : string → string.

(** [ProcessFormView.post] with the view's [form_valid], on the form bound
    to the request's data.  The slug is not a field of the form, so a new
    instance never has one and [form_valid] always derives it from the
    title. *)
Definition MovieCreateView_post (request : HttpRequest.t) (user : pk * User.t)
    (form : MovieForm.t) : M HttpResponse :=
  errors ← query (λ s, MovieForm_errors s None form);
  let now := HttpRequest.now request in
  let slug := String.substring 0 280 (slugify (MovieForm.title form)) in
  match errors, construct_instance form slug "" user.1 now now with
  | [], Some instance =>
      messages.success "Movie added successfully.";;
      obj ← Movie_save None instance;
      redirect (Movie_get_absolute_url obj.2)
  | _, _ => mret (TemplateResponse "movies/movie_form.html" errors)
  end.

(** A PUT is handled as a POST ([ProcessFormView.put]), but the body of a
    request is read as form data only when its method is POST, so the form
    of a PUT is bound to no data. *)
Definition MovieCreateView (request : HttpRequest.t) : M HttpResponse :=
  LoginRequiredMixin request (λ user,
    match HttpRequest.method request with
    | GET | HEAD => mret (TemplateResponse "movies/movie_form.html" [])
    | POST => MovieCreateView_post request user (movie_form request)
    | PUT => MovieCreateView_post request user empty_movie_form
    | OPTIONS => View.options
    | PATCH | DELETE | TRACE | OTHER => View.http_method_not_allowed
    end).
End MovieCreate.

Definition MovieOwnerMixin_test_func (user : pk * User.t) (slug : string) : M bool :=
  obj ← get_object_or_404 (Movie_by_slug slug);
  mret (bool_decide (Movie.created_by obj.2 = user.1)).

Definition MovieUpdateView_post (request : HttpRequest.t) (slug : string)
    (form : MovieForm.t) : M HttpResponse :=
  obj ← get_object_or_404 (Movie_by_slug slug);
  errors ← query (λ s, MovieForm_errors s (Some obj.2) form);
  match errors,
        construct_instance form (Movie.slug obj.2) (Movie.poster obj.2)
          (Movie.created_by obj.2) (Movie.created_at obj.2)
          (HttpRequest.now request) with
  | [], Some instance =>
      messages.success "Movie updated successfully.";;
      saved ← Movie_save (Some obj.1) instance;
      redirect (Movie_get_absolute_url saved.2)
  | _, _ => mret (TemplateResponse "movies/movie_form.html" errors)
  end.

Definition MovieUpdateView (request : HttpRequest.t) (slug : string) : M HttpResponse :=
  LoginRequiredMixin request (λ user,
    UserPassesTestMixin (MovieOwnerMixin_test_func user slug) user (
      match HttpRequest.method request with
      | GET | HEAD =>
          get_object_or_404 (Movie_by_slug slug);;
          mret (TemplateResponse "movies/movie_form.html" [])
      | POST => MovieUpdateView_post request slug (movie_form request)
      | PUT => MovieUpdateView_post request slug empty_movie_form
      | OPTIONS => View.options
      | PATCH | DELETE | TRACE | OTHER => View.http_method_not_allowed
      end)).

(** [DeletionMixin.delete]: the object is fetched, the success URL is
    reversed, the object is deleted. *)
Definition DeletionMixin_delete (slug : string) : M HttpResponse :=
  obj ← get_object_or_404 (Movie_by_slug slug);
  success_url ← lift (reverse "movie_list" []);
  execute (Movie_delete obj.1);;
  mret (HttpResponseRedirect success_url).

(** [BaseDeleteView.post] and [form_valid], with a form that has no field
    and so is always valid: the same steps, in the same order. *)
Definition BaseDeleteView_post (slug : string) : M HttpResponse :=
  obj ← get_object_or_404 (Movie_by_slug slug);
  success_url ← lift (reverse "movie_list" []);
  execute (Movie_delete obj.1);;
  mret (HttpResponseRedirect success_url).

(** A POST goes through the form handling of [BaseDeleteView], which deletes
    the object without calling the view's [delete]; only an HTTP DELETE runs
    the view's [delete], which queues the message and then deletes. *)
Definition MovieDeleteView (request : HttpRequest.t) (slug : string) : M HttpResponse :=
  LoginRequiredMixin request (λ user,
    UserPassesTestMixin (MovieOwnerMixin_test_func user slug) user (
      match HttpRequest.method request with
      | GET | HEAD =>
          get_object_or_404 (Movie_by_slug slug);;
          mret (TemplateResponse "movies/movie_confirm_delete.html" [])
      | POST => BaseDeleteView_post slug
      | DELETE =>
          messages.success "Movie deleted successfully.";;
          DeletionMixin_delete slug
      | OPTIONS => View.options
      | PUT | PATCH | TRACE | OTHER => View.http_method_not_allowed
      end)).

(** The rows [SearchResultsView.get_queryset] selects: movies joined with
    their category (a left outer join on the nullable key), filtered by the
    four [icontains] lookups, [distinct()], in the model's default ordering
    (newest first). *)
Definition join_category (s : Store) (r : pk * Movie.t) : (pk * Movie.t) * option Category.t :=
  (r, c ← Movie.category r.2; categories s !! c).

Definition newest_first (a b : pk * Movie.t) : Prop :=
  Movie.created_at b.2 ≤ Movie.created_at a.2.

#[global] Instance newest_first_dec a b : Decision (newest_first a b).
Proof. unfold newest_first. apply _. Defined.

Definition search_Q (query : string) (jr : (pk * Movie.t) * option Category.t) : bool :=
  icontains (Movie.title jr.1.2) query
  || icontains (Movie.description jr.1.2) query
  || icontains (Movie.actors jr.1.2) query
  || match jr.2 with
     | Some c => icontains (Category.name c) query
     | None => false
     end.

Definition Movie_objects_all : QuerySet Movie.t :=
  λ s, merge_sort newest_first (objects movies s).

Definition SearchResultsView_get_queryset (request : HttpRequest.t) : QuerySet Movie.t :=
  λ s,
    let query := default "" (HttpRequest.GET request !! "q") in
    merge_sort newest_first
      (remove_dups
        (fst <$> filter (λ jr, search_Q query jr = true)
                        (join_category s <$> objects movies s))).

Definition add_comment (request : HttpRequest.t) (slug : string) : M HttpResponse :=
  login_required (λ user,
    movie ← get_object_or_404 (Movie_by_slug slug);
    match HttpRequest.method request with
    | POST =>
        let content := comment_content request in
        if CommentForm_is_valid content then
          Comment_save {| Comment.movie := movie.1; Comment.user := user.1;
                          Comment.content := content;
                          Comment.created_at := HttpRequest.now request;
                          Comment.updated_at := HttpRequest.now request |};;
          messages.success "Comment posted."
        else messages.error "Error with your comment."
    | _ => mret ()
    end;;
    redirect (Movie_get_absolute_url movie.2)) request.

Definition delete_comment (request : HttpRequest.t) (id : pk) : M HttpResponse :=
  login_required (λ user,
    comment ← get_object_or_404 (qfilter (λ r, r.1 = id) (objects comments));
    movie ← related (qfilter (λ r, r.1 = Comment.movie comment.2) (objects movies));
    if negb (bool_decide (Comment.user comment.2 = user.1)) && negb (User.is_staff user.2) then
      messages.error "You don't have permission to delete this comment.";;
      redirect (Movie_get_absolute_url movie.2)
    else
      execute (Comment_delete comment.1);;
      messages.success "Comment deleted.";;
      redirect (Movie_get_absolute_url movie.2)) request.

Definition toggle_favorite (request : HttpRequest.t) (slug : string) : M HttpResponse :=
  login_required (λ user,
    movie ← get_object_or_404 (Movie_by_slug slug);
    '(fav, created) ← Favorite_get_or_create user.1 movie.1 (HttpRequest.now request);
    (if negb created then
       execute (Favorite_delete fav.1);;
       messages.info "Removed from favorites."
     else messages.success "Added to favorites.");;
    redirect (Movie_get_absolute_url movie.2)) request.

(** ** Vocabulary of the statements *)

(** The response [redirect(url)] gives: the redirect, or the exception that
    reversing the URL raised. *)
Definition redirect_to (url : Outcome string) : Outcome HttpResponse :=
  match url with
  | Return url => Return (HttpResponseRedirect url)
  | Raise e => Raise e
  end.

(** The moderation rule of [delete_comment]. *)
Definition may_delete_comment (c : Comment.t) (u : pk) (usr : User.t) : Prop :=
  Comment.user c = u ∨ User.is_staff usr = true.

(** The favorite-set of a database: the (user, movie) pairs that have a
    [Favorite] row. *)
Definition favorite_pairs (s : Store) : gset (pk * pk) :=
  map_to_set (λ _ f, (Favorite.user f, Favorite.movie f)) (favorites s).

Definition is_favorite (s : Store) (u m : pk) : Prop := (u, m) ∈ favorite_pairs s.

#[global] Instance is_favorite_dec s u m : Decision (is_favorite s u m).
Proof. unfold is_favorite. apply _. Defined.

(** [unique_together = ('user', 'movie')] on [Favorite]. *)
Definition unique_together (s : Store) : Prop :=
  ∀ k1 k2 f1 f2,
    favorites s !! k1 = Some f1 → favorites s !! k2 = Some f2 →
    Favorite.user f1 = Favorite.user f2 → Favorite.movie f1 = Favorite.movie f2 →
    k1 = k2.

(** ** A small database on which the statements are exercised *)

Definition decimal (sign : bool) (digits : list nat) (exponent : Z) : Decimal.t :=
  {| Decimal.sign := sign; Decimal.digits := digits; Decimal.exponent := exponent |}.

Definition alice : User.t := {| User.username := "alice"; User.is_staff := false |}.
Definition bob : User.t := {| User.username := "bob"; User.is_staff := false |}.
Definition carol : User.t := {| User.username := "carol"; User.is_staff := true |}.

Definition dark_comedy : Category.t :=
  {| Category.name := "Dark Comedy"; Category.slug := "dark-comedy" |}.

Definition demo_movie (title slug : string) (category : option pk) (created_by : pk)
    (created_at : DateTime) : Movie.t :=
  {| Movie.title := title; Movie.slug := slug; Movie.poster := "posters/p.png";
     Movie.description := "A film."; Movie.release_date := 733000;
     Movie.actors := "A. Actor, B. Actor"; Movie.rating := decimal false [8; 5]%nat (-1);
     Movie.category := category; Movie.trailer_url := "";
     Movie.created_by := created_by; Movie.created_at := created_at;
     Movie.updated_at := created_at |}.

Definition the_dark_knight : Movie.t := demo_movie "The Dark Knight" "the-dark-knight" None 1 10.
Definition fargo : Movie.t := demo_movie "Fargo" "fargo" (Some 1%N) 1 20.
Definition inception : Movie.t := demo_movie "Inception" "inception" None 1 30.

Definition demo_comment : Comment.t :=
  {| Comment.movie := 1; Comment.user := 1; Comment.content := "Great.";
     Comment.created_at := 40; Comment.updated_at := 40 |}.

Definition demo_favorite : Favorite.t :=
  {| Favorite.user := 2; Favorite.movie := 3; Favorite.created_at := 50 |}.

Definition demo_store : Store :=
  {| users := {[ 1%N := alice; 2%N := bob; 3%N := carol ]};
     profiles := ∅;
     categories := {[ 1%N := dark_comedy ]};
     movies := {[ 1%N := the_dark_knight; 2%N := fargo; 3%N := inception ]};
     comments := {[ 1%N := demo_comment ]};
     favorites := {[ 1%N := demo_favorite ]} |}.

Definition demo_world : World := {| db := demo_store; _messages := [] |}.

Definition demo_request (method : Method) (user : option pk) (POST : PostData)
    : HttpRequest.t :=
  {| HttpRequest.method := method; HttpRequest.user := user; HttpRequest.GET := ∅;
     HttpRequest.POST := POST; HttpRequest.now := 100 |}.

(** The outcome the specification describes for a refused actor: a redirect
    to [url] together with an error notice. *)
Definition redirected_with_error_notice (r : Outcome HttpResponse * World)
    (url : string) : Prop :=
  r.1 = Return (HttpResponseRedirect url) ∧ ∃ text, (ERROR, text) ∈ _messages r.2.

(** The two views guarded by [MovieOwnerMixin]. *)
Definition owner_views : list (HttpRequest.t → string → M HttpResponse) :=
  [MovieUpdateView; MovieDeleteView].

(** Every stored movie has a rating between 0.0 and 10.0. *)
Definition in_range (d : Decimal.t) : Prop :=
  (0 <= Decimal.value d)%Q ∧ (Decimal.value d <= 10)%Q.

Definition ratings_in_range (s : Store) : Prop :=
  ∀ k m, movies s !! k = Some m → in_range (Movie.rating m).

(** The ratings the specification names as rejected: 10.1 and -0.1. *)
Definition is_10_1_or_minus_0_1 (d : Decimal.t) : Prop :=
  (Decimal.value d == 101 # 10)%Q ∨ (Decimal.value d == - (1 # 10))%Q.

(** ** Reachable databases

    One step is one operation of the application on the database: a request
    to one of the views of views.py, a save of a user (registration, which
    fires the [post_save] receiver), or what the admin site registered in
    admin.py does with a category or a movie.  The admin's movie form runs the
    validators of the model fields, [rating_validators] among them. *)
Section Reachable.
Variable slugify : string → string.

Inductive step : Store → Store → Prop :=
| step_MovieCreateView request w :
    step (db w) (db (MovieCreateView slugify request w).2)
| step_MovieUpdateView request slug w :
    step (db w) (db (MovieUpdateView request slug w).2)
| step_MovieDeleteView request slug w :
    step (db w) (db (MovieDeleteView request slug w).2)
| step_add_comment request slug w :
    step (db w) (db (add_comment request slug w).2)
| step_delete_comment request id w :
    step (db w) (db (delete_comment request id w).2)
| step_toggle_favorite request slug w :
    step (db w) (db (toggle_favorite request slug w).2)
| step_User_save id row w :
    step (db w) (db (User_save id row w).2)
| step_admin_save_category id row s :
    step s (set_categories (insert id row) s)
| step_admin_delete_category id s :
    step s (Category_delete id s)
| step_admin_save_movie id row s :
    rating_validators (Movie.rating row) = true →
    step s (set_movies (insert id row) s)
| step_admin_delete_movie id s :
    step s (Movie_delete id s)
| step_admin_delete_profile id s :
    step s (Profile_delete id s).

Inductive reachable : Store → Prop :=
| reachable_empty : reachable empty_store
| reachable_step s s' : reachable s → step s s' → reachable s'.
End Reachable.

(** A database built from the empty one: alice registers, the admin adds a
    category, alice submits a movie rated 8.5 (with [lower] standing in for
    the slug function). *)
Definition demo_form (rating : Decimal.t) : MovieForm.t :=
  {| MovieForm.title := "Inception"; MovieForm.poster := Some "posters/inception.png";
     MovieForm.description := "A heist in dreams."; MovieForm.release_date := Some 733000;
     MovieForm.actors := "L. DiCaprio"; MovieForm.rating := Some rating;
     MovieForm.category := Some 1%N; MovieForm.trailer_url := Some "" |}.

Definition demo_registered : Store :=
  db (User_save None alice {| db := empty_store; _messages := [] |}).2.

(** Alice's profile is then deleted from the admin site. *)
Definition demo_orphaned : Store := Profile_delete 1%N demo_registered.

Definition demo_with_category : Store :=
  set_categories (insert 1%N dark_comedy) demo_registered.

Definition demo_submitted : Store :=
  db (MovieCreateView lower
        (demo_request POST (Some 1%N) (MovieData (demo_form (decimal false [8; 5]%nat (-1)))))
        {| db := demo_with_category; _messages := [] |}).2.






(** The profiles that belong to a user, and the integrity the database keeps
    for the one-to-one key of [Profile]. *)
Definition profiles_of (s : Store) (u : pk) : list (pk * Profile.t) :=
  qfilter (λ r, Profile.user r.2 = u) (objects profiles) s.

Definition profile_integrity (s : Store) : Prop :=
  ∀ k p, profiles s !! k = Some p → is_Some (users s !! Profile.user p).

Definition username_free (name : string) (s : Store) : Prop :=
  ∀ k u, users s !! k = Some u → User.username u ≠ name.

(** A computation keeps a property of the database. *)
Definition preserves {A} (P : Store → Prop) (m : M A) : Prop :=
  ∀ w, P (db w) → P (db (m w).2).


(** * The rest of the application

    Further model methods, query sets and context builders of models.py and
    views.py, on the same database and view monad. *)

From Stdlib Require Import Qpower.
From Stdlib Require DecimalN DecimalPos.

(** ** models.py: methods *)

(** [s[:limit]] for any integer [limit]: a negative one counts from the
    end. *)
Definition slice_to (s : string) (limit : Z) : string :=
  if 0 <=? limit then String.substring 0 (Z.to_nat limit) s
  else String.substring 0 (Z.to_nat (Z.of_nat (String.length s) + limit)) s.

(** [Movie.short_actors(limit)]; the default [limit] is 100. *)
Definition Movie_short_actors (movie : Movie.t) (limit : Z) : string :=
  if limit <? Z.of_nat (String.length (Movie.actors movie))
  then slice_to (Movie.actors movie) limit +:+ "..."
  else Movie.actors movie.

(** [Category.get_absolute_url]. *)
Definition Category_get_absolute_url (category : Category.t) : Outcome string :=
  reverse "movies_by_category" [Str (Category.slug category)].

(** Deleting a user: [on_delete=CASCADE] on [Profile.user],
    [Movie.created_by], [Comment.user] and [Favorite.user], and through the
    deleted movies on [Comment.movie] and [Favorite.movie]. *)
Definition User_delete (id : pk) (s : Store) : Store :=
  {| users := delete id (users s);
     profiles := filter (λ r, Profile.user r.2 ≠ id) (profiles s);
     categories := categories s;
     movies := filter (λ r, Movie.created_by r.2 ≠ id) (movies s);
     comments := filter (λ r, Comment.user r.2 ≠ id
                              ∧ (Movie.created_by <$> movies s !! Comment.movie r.2) ≠ Some id)
                        (comments s);
     favorites := filter (λ r, Favorite.user r.2 ≠ id
                               ∧ (Movie.created_by <$> movies s !! Favorite.movie r.2) ≠ Some id)
                         (favorites s) |}.

(** ** views.py: query sets and context data *)

Definition Category_by_slug (slug : string) : QuerySet Category.t :=
  qfilter (λ r, Category.slug r.2 = slug) (objects categories).

(** [MoviesByCategoryView.get_queryset]. *)
Definition MoviesByCategoryView_get_queryset (slug : string) : M (list (pk * Movie.t)) :=
  category ← get_object_or_404 (Category_by_slug slug);
  query (λ s, merge_sort newest_first
                (qfilter (λ r, Movie.category r.2 = Some category.1) (objects movies) s)).

(** [UserMoviesView.get_queryset]: [created_by__username] joins the movie
    with its creator. *)
Definition UserMoviesView_get_queryset (username : string) : QuerySet Movie.t :=
  λ s, merge_sort newest_first
         (filter (λ r, User.username <$> users s !! Movie.created_by r.2 = Some username)
                 (objects movies s)).

(** [MovieDetailView.get_context_data]: the [is_favorited] entry. *)
Definition MovieDetailView_is_favorited (user : option pk) (movie : pk) (s : Store) : bool :=
  match user with
  | Some u =>
      exists_ (qfilter (λ r, Favorite.user r.2 = u ∧ Favorite.movie r.2 = movie)
                       (objects favorites) s)
  | None => false
  end.

(** [DashboardView.get_context_data].  [favorited_by__user] joins each movie
    with its favorites, one result row per favorite; comments come in their
    default ordering, newest first, and are cut at ten. *)
Definition comment_newest_first (a b : pk * Comment.t) : Prop :=
  Comment.created_at b.2 ≤ Comment.created_at a.2.

#[global] Instance comment_newest_first_dec a b : Decision (comment_newest_first a b).
Proof. unfold comment_newest_first. apply _. Defined.

Record DashboardContext := {
  my_movies : list (pk * Movie.t);
  dashboard_favorites : list (pk * Movie.t);
  recent_comments : list (pk * Comment.t)
}.

Definition DashboardView_get_context_data (user : pk) (s : Store) : DashboardContext :=
  {| my_movies :=
       merge_sort newest_first
         (filter (λ r, Movie.created_by r.2 = user) (objects movies s));
     dashboard_favorites :=
       merge_sort newest_first
         (r ← objects movies s;
          f ← objects favorites s;
          if decide (Favorite.movie f.2 = r.1 ∧ Favorite.user f.2 = user) then [r] else []);
     recent_comments :=
       take 10 (merge_sort comment_newest_first
                  (filter (λ r, Comment.user r.2 = user) (objects comments s))) |}.

(** ** Pagination ([paginate_by = 12])

    [Paginator(object_list, 12).page(number)] with no orphans; the list
    views turn an invalid page into [Http404]. *)
Definition paginate_by : nat := 12.

Definition num_pages (count : nat) : nat :=
  let hits := Nat.max 1 count in
  (hits + paginate_by - 1) / paginate_by.

Definition paginate {A} (object_list : list A) (number : Z) : Outcome (list A) :=
  if number <? 1 then Raise Http404
  else if Z.of_nat (num_pages (length object_list)) <? number then Raise Http404
  else
    let bottom := ((Z.to_nat number - 1) * paginate_by)%nat in
    Return (take paginate_by (drop bottom object_list)).

(** ** Vocabulary of the further statements *)

(** The scan [match_route] makes for a parameter, with the matcher of the
    rest of the route as an argument. *)
Definition scan_param (c : Converter) (n : string)
    (k : string → option (list (string * Value))) :=
  fix scan (taken s : string) {struct s} : option (list (string * Value)) :=
    let stop :=
      if decide (taken = "") then None
      else kw ← k s; value ← to_python c taken; Some ((n, value) :: kw) in
    match s with
    | String ch s' =>
        if in_class c ch then
          match scan (taken +:+ String ch "") s' with
          | Some kw => Some kw
          | None => stop
          end
        else stop
    | EmptyString => stop
    end.




(** Every character of [arg] is in the class of converter [c]. *)
Definition in_class_all (c : Converter) (arg : string) : bool :=
  forallb (in_class c) (list_ascii_of_string arg).

(** Every foreign key names a stored row. *)
Definition referential_integrity (s : Store) : Prop :=
  (∀ k p, profiles s !! k = Some p → is_Some (users s !! Profile.user p))
  ∧ (∀ k m, movies s !! k = Some m →
       is_Some (users s !! Movie.created_by m)
       ∧ ∀ c, Movie.category m = Some c → is_Some (categories s !! c))
  ∧ (∀ k c, comments s !! k = Some c →
       is_Some (movies s !! Comment.movie c) ∧ is_Some (users s !! Comment.user c))
  ∧ (∀ k f, favorites s !! k = Some f →
       is_Some (users s !! Favorite.user f) ∧ is_Some (movies s !! Favorite.movie f)).

(** [unique=True] on [Movie.slug] and on [Category.slug], and the unique
    column of the one-to-one [Profile.user]. *)
Definition slugs_unique (s : Store) : Prop :=
  ∀ k1 k2 m1 m2,
    movies s !! k1 = Some m1 → movies s !! k2 = Some m2 →
    Movie.slug m1 = Movie.slug m2 → k1 = k2.

Definition category_slugs_unique (s : Store) : Prop :=
  ∀ k1 k2 c1 c2,
    categories s !! k1 = Some c1 → categories s !! k2 = Some c2 →
    Category.slug c1 = Category.slug c2 → k1 = k2.

Definition one_profile_per_user (s : Store) : Prop :=
  ∀ k1 k2 p1 p2,
    profiles s !! k1 = Some p1 → profiles s !! k2 = Some p2 →
    Profile.user p1 = Profile.user p2 → k1 = k2.

(** No movie has the slug. *)
Definition slug_unknown (slug : string) (s : Store) : Prop :=
  ∀ k m, movies s !! k = Some m → Movie.slug m ≠ slug.


(** The comment [add_comment] saves. *)
Definition new_comment (request : HttpRequest.t) (user movie : pk) : Comment.t :=
  {| Comment.movie := movie; Comment.user := user;
     Comment.content := comment_content request;
     Comment.created_at := HttpRequest.now request;
     Comment.updated_at := HttpRequest.now request |}.

(** [unique=True] on [User.username]. *)
Definition usernames_unique (s : Store) : Prop :=
  ∀ k1 k2 u1 u2,
    users s !! k1 = Some u1 → users s !! k2 = Some u2 →
    User.username u1 = User.username u2 → k1 = k2.

(** A form whose title has no letter or digit; [slugify] gives it the empty
    slug. *)
Definition symbols_form : MovieForm.t :=
  {| MovieForm.title := "???"; MovieForm.poster := Some "posters/q.png";
     MovieForm.description := "Untitled."; MovieForm.release_date := Some 733000;
     MovieForm.actors := "Nobody"; MovieForm.rating := Some (decimal false [5; 0]%nat (-1));
     MovieForm.category := Some 1%N; MovieForm.trailer_url := Some "" |}.

(** * Properties *)

(** ** Query sets and tables *)

Lemma elem_of_objects {A} (table : Store → gmap pk A) (s : Store) (k : pk) (r : A) :
  (k, r) ∈ objects table s ↔ table s !! k = Some r.
Proof. unfold objects. apply elem_of_map_to_list. Qed.

Lemma NoDup_objects {A} (table : Store → gmap pk A) (s : Store) :
  NoDup (objects table s).
Proof. unfold objects. apply NoDup_map_to_list. Qed.

Lemma next_pk_fresh {A} (table : gmap pk A) : table !! next_pk table = None.
Proof.
  unfold next_pk. apply not_elem_of_dom.
  pose proof (is_fresh ({[0%N]} ∪ dom table)) as Hf. set_solver.
Qed.

Lemma get_Return {A} (rows : list A) (r : A) :
  get rows = Return r ↔ rows = [r].
Proof.
  destruct rows as [|a [|b rows]]; simpl; split; intros H; try discriminate; congruence.
Qed.

Lemma get_DoesNotExist {A} (rows : list A) :
  get rows = Raise DoesNotExist ↔ rows = [].
Proof.
  destruct rows as [|a [|b rows]]; simpl; split; intros H; try discriminate; congruence.
Qed.

Section Filtered.
Context {A : Type} (P : pk * A → Prop) {Pdec : ∀ r, Decision (P r)}.

Lemma filter_get_Return (m : gmap pk A) (k : pk) (r : A) :
  get (filter P (map_to_list m)) = Return (k, r) →
  m !! k = Some r ∧ P (k, r) ∧
  ∀ k' r', m !! k' = Some r' → P (k', r') → k' = k ∧ r' = r.
Proof.
  intros H%get_Return.
  assert (Hin : ∀ x, x ∈ filter P (map_to_list m) ↔ x = (k, r)).
  { intros x. rewrite H. apply list_elem_of_singleton. }
  pose proof (proj2 (Hin (k, r)) eq_refl) as [HPk Hkr]%list_elem_of_filter.
  split_and!.
  - by apply elem_of_map_to_list.
  - done.
  - intros k' r' Hk' HP.
    assert ((k', r') = (k, r)) as [= -> ->]; [|done].
    apply Hin, list_elem_of_filter. split; [done|]. by apply elem_of_map_to_list.
Qed.

Lemma filter_get_DoesNotExist (m : gmap pk A) :
  get (filter P (map_to_list m)) = Raise DoesNotExist ↔
  ∀ k r, m !! k = Some r → ¬ P (k, r).
Proof.
  rewrite get_DoesNotExist. split.
  - intros H k r Hk HP.
    assert ((k, r) ∈ filter P (map_to_list m)) as Hin.
    { apply list_elem_of_filter. split; [done|]. by apply elem_of_map_to_list. }
    rewrite H in Hin. by apply not_elem_of_nil in Hin.
  - intros H. apply elem_of_nil_inv. intros [k r] [HP Hin]%list_elem_of_filter.
    apply elem_of_map_to_list in Hin. by eapply H.
Qed.

Lemma filter_exists_false (m : gmap pk A) :
  exists_ (filter P (map_to_list m)) = false ↔
  ∀ k r, m !! k = Some r → ¬ P (k, r).
Proof.
  rewrite <- filter_get_DoesNotExist, get_DoesNotExist.
  destruct (filter P (map_to_list m)); simpl; naive_solver.
Qed.

(** A row that alone satisfies the filter is what [get] returns. *)
Lemma filter_get_unique (m : gmap pk A) (k : pk) (r : A) :
  m !! k = Some r → P (k, r) →
  (∀ k' r', m !! k' = Some r' → P (k', r') → k' = k) →
  get (filter P (map_to_list m)) = Return (k, r).
Proof.
  intros Hk HP Huniq. apply get_Return.
  assert (Hnd : NoDup (filter P (map_to_list m))) by apply NoDup_filter, NoDup_map_to_list.
  assert (Hin : ∀ x, x ∈ filter P (map_to_list m) ↔ x = (k, r)).
  { intros [k' r']. rewrite list_elem_of_filter, elem_of_map_to_list. split.
    - intros [HP' Hk']. pose proof (Huniq _ _ Hk' HP') as ->. congruence.
    - intros [= -> ->]. done. }
  destruct (filter P (map_to_list m)) as [|x [|y l]].
  - exfalso. eapply not_elem_of_nil. apply Hin. reflexivity.
  - f_equal. apply Hin. left.
  - exfalso. apply NoDup_cons in Hnd as [Hx _]. apply Hx.
    assert (x = (k, r)) as -> by (apply Hin; left).
    assert (y = (k, r)) as -> by (apply Hin; right; left). left.
Qed.
End Filtered.

Lemma get_by_pk {A} (m : gmap pk A) (id : pk) :
  get (filter (λ r : pk * A, r.1 = id) (map_to_list m)) =
  match m !! id with
  | Some r => Return (id, r)
  | None => Raise DoesNotExist
  end.
Proof.
  destruct (m !! id) as [r|] eqn:Hid.
  - apply (filter_get_unique (λ r : pk * A, r.1 = id)); [done|done|]. by intros k' r' _ ?.
  - apply (filter_get_DoesNotExist (λ r : pk * A, r.1 = id)).
    intros k r Hk ?; simpl in *; subst. congruence.
Qed.

(** ** Deleting a category or a movie *)

(** C8.  Deleting a category leaves every movie in the table: a movie that
    was linked to the category has its [category] set to null and every other
    field as before, a movie that was not linked is the same row, and no
    other table but the categories changes. *)
Theorem C8_category_delete_nullifies (s : Store) (c : pk) :
  let s' := Category_delete c s in
  (∀ k m, movies s !! k = Some m → Movie.category m = Some c →
     ∃ m', movies s' !! k = Some m' ∧ Movie.category m' = None ∧
       Movie.title m' = Movie.title m ∧ Movie.slug m' = Movie.slug m ∧
       Movie.poster m' = Movie.poster m ∧ Movie.description m' = Movie.description m ∧
       Movie.release_date m' = Movie.release_date m ∧ Movie.actors m' = Movie.actors m ∧
       Movie.rating m' = Movie.rating m ∧ Movie.trailer_url m' = Movie.trailer_url m ∧
       Movie.created_by m' = Movie.created_by m ∧ Movie.created_at m' = Movie.created_at m ∧
       Movie.updated_at m' = Movie.updated_at m)
  ∧ (∀ k m, movies s !! k = Some m → Movie.category m ≠ Some c → movies s' !! k = Some m)
  ∧ dom (movies s') = dom (movies s)
  ∧ categories s' = delete c (categories s)
  ∧ users s' = users s ∧ profiles s' = profiles s
  ∧ comments s' = comments s ∧ favorites s' = favorites s.
Proof.
  simpl. split_and!; try reflexivity.
  - intros k m Hk Hc. exists (Movie.set_category None m).
    split_and!; try reflexivity.
    rewrite lookup_fmap, Hk. simpl. by rewrite decide_True.
  - intros k m Hk Hc. rewrite lookup_fmap, Hk. simpl. by rewrite decide_False.
  - apply dom_fmap_L.
Qed.

(** ** Running views *)

Lemma run_bind {A B} (m : M A) (f : A → M B) (w : World) :
  (m ≫= f) w = match m w with
               | (Return a, w') => f a w'
               | (Raise e, w') => (Raise e, w')
               end.
Proof. reflexivity. Qed.

Lemma run_redirect (url : Outcome string) (w : World) :
  redirect url w = (redirect_to url, w).
Proof. unfold redirect, lift. rewrite run_bind. by destruct url. Qed.

Lemma run_request_user (request : HttpRequest.t) (w : World) (u : pk) (usr : User.t) :
  HttpRequest.user request = Some u → users (db w) !! u = Some usr →
  request_user request w = (Return (Some (u, usr)), w).
Proof.
  intros Hu Hr. unfold request_user, query, session_user. rewrite Hu. simpl. by rewrite Hr.
Qed.

Lemma run_request_user_anonymous (request : HttpRequest.t) (w : World) :
  HttpRequest.user request = None →
  request_user request w = (Return None, w).
Proof. intros Hu. unfold request_user, query, session_user. by rewrite Hu. Qed.

Lemma run_session_user (request : HttpRequest.t) (w : World) :
  request_user request w = (Return (session_user request (db w)), w).
Proof. reflexivity. Qed.

Lemma session_user_Some (request : HttpRequest.t) (s : Store) (u : pk) (usr : User.t) :
  session_user request s = Some (u, usr) ↔
  HttpRequest.user request = Some u ∧ users s !! u = Some usr.
Proof.
  unfold session_user. destruct (HttpRequest.user request) as [uid|]; simpl.
  - destruct (users s !! uid) as [usr'|] eqn:Hrow; simpl.
    + split; [by intros [= -> ->]|intros [[= ->] ?]; congruence].
    + split; [done|intros [[= ->] ?]; congruence].
  - split; [done|by intros [? _]].
Qed.

Lemma run_get_object_or_404_pk {A} (table : Store → gmap pk A) (id : pk) (w : World) :
  get_object_or_404 (qfilter (λ r, r.1 = id) (objects table)) w =
  match table (db w) !! id with
  | Some r => (Return (id, r), w)
  | None => (Raise Http404, w)
  end.
Proof.
  unfold get_object_or_404, qfilter, objects, query. rewrite run_bind.
  rewrite get_by_pk. by destruct (table (db w) !! id).
Qed.

Lemma run_related_pk {A} (table : Store → gmap pk A) (id : pk) (w : World) :
  related (qfilter (λ r, r.1 = id) (objects table)) w =
  match table (db w) !! id with
  | Some r => (Return (id, r), w)
  | None => (Raise DoesNotExist, w)
  end.
Proof.
  unfold related, qfilter, objects, query, lift. rewrite run_bind.
  rewrite get_by_pk. by destruct (table (db w) !! id).
Qed.

(** One step of a view: a bind whose first computation is a primitive. *)
Ltac run_prims :=
  unfold execute, messages.success, messages.info, messages.error,
    messages.add_message, query, raise, lift;
  cbv beta iota.
Ltac run_step := rewrite run_bind; run_prims.

Lemma run_get_object_or_404 {A} (qs : QuerySet A) (w : World) :
  get_object_or_404 qs w =
  (match get (qs (db w)) with
   | Return r => Return r
   | Raise DoesNotExist => Raise Http404
   | Raise e => Raise e
   end, w).
Proof.
  unfold get_object_or_404, query. rewrite run_bind.
  destruct (get (qs (db w))) as [r|[]]; reflexivity.
Qed.

(** A view only reads the database when the queries it makes raise. *)
Lemma run_get_object_or_404_world {A} (qs : QuerySet A) (w : World) :
  (get_object_or_404 qs w).2 = w.
Proof.
  unfold get_object_or_404, query. rewrite run_bind.
  destruct (get (qs (db w))) as [r|[]]; reflexivity.
Qed.

Lemma run_get_object_or_404_Return {A} (qs : QuerySet A) (w : World) (r : pk * A) :
  get (qs (db w)) = Return r → get_object_or_404 qs w = (Return r, w).
Proof. intros H. unfold get_object_or_404, query. rewrite run_bind. by rewrite H. Qed.

(** ** Deleting a comment *)

Lemma run_delete_comment (request : HttpRequest.t) (id : pk) (w : World)
    (c : Comment.t) (u : pk) (usr : User.t) (m : Movie.t) :
  HttpRequest.user request = Some u → users (db w) !! u = Some usr →
  comments (db w) !! id = Some c →
  movies (db w) !! Comment.movie c = Some m →
  delete_comment request id w =
  if decide (may_delete_comment c u usr) then
    (redirect_to (Movie_get_absolute_url m),
     {| db := Comment_delete id (db w);
        _messages := _messages w ++ [(SUCCESS, "Comment deleted.")] |})
  else
    (redirect_to (Movie_get_absolute_url m),
     {| db := db w;
        _messages := _messages w
          ++ [(ERROR, "You don't have permission to delete this comment.")] |}).
Proof.
  intros Hu Husr Hc Hm.
  unfold delete_comment, login_required.
  rewrite run_bind, (run_request_user _ _ _ _ Hu Husr).
  rewrite run_bind, run_get_object_or_404_pk, Hc.
  rewrite run_bind, run_related_pk. simpl. rewrite Hm. simpl.
  unfold may_delete_comment.
  destruct (decide (Comment.user c = u)) as [Heq|Hne].
  - rewrite bool_decide_eq_true_2 by done. simpl.
    rewrite decide_True by (by left).
    do 2 run_step. by rewrite run_redirect.
  - rewrite bool_decide_eq_false_2 by done. simpl.
    destruct (User.is_staff usr) eqn:Hstaff; simpl.
    + rewrite decide_True by (by right).
      do 2 run_step. by rewrite run_redirect.
    + rewrite decide_False by (intros [?|?]; [done|discriminate]).
      run_step. by rewrite run_redirect.
Qed.

(** C3.  For an existing comment [c] and an authenticated user [u], the
    delete-comment view removes [c] exactly when [u] is its author or is
    staff; otherwise the database is unchanged, [c] is still stored, the
    permission error message is queued and the user is sent back to the
    movie's page. *)
Theorem C3_delete_comment_moderation (request : HttpRequest.t) (id : pk) (w : World)
    (c : Comment.t) (u : pk) (usr : User.t) (m : Movie.t) :
  HttpRequest.user request = Some u → users (db w) !! u = Some usr →
  comments (db w) !! id = Some c →
  movies (db w) !! Comment.movie c = Some m →
  let r := delete_comment request id w in
  (comments (db r.2) !! id = None ↔ may_delete_comment c u usr)
  ∧ (may_delete_comment c u usr → db r.2 = Comment_delete id (db w))
  ∧ (¬ may_delete_comment c u usr →
       db r.2 = db w ∧ comments (db r.2) !! id = Some c ∧
       _messages r.2 = (_messages w
         ++ [(ERROR, "You don't have permission to delete this comment.")])%list ∧
       r.1 = redirect_to (Movie_get_absolute_url m)).
Proof.
  intros Hu Husr Hc Hm r. subst r.
  rewrite (run_delete_comment _ _ _ _ _ _ _ Hu Husr Hc Hm).
  destruct (decide (may_delete_comment c u usr)) as [Hyes|Hno]; simpl.
  - split_and!; [|done|done].
    split; [done|]. intros _. apply lookup_delete_eq.
  - split_and!; [|done|done].
    rewrite Hc. split; [discriminate|done].
Qed.

(** Bob, neither author nor staff, asks to delete alice's comment. *)
Lemma C3_delete_comment_witness :
  let r := delete_comment (demo_request POST (Some 2%N) NoData) 1%N demo_world in
  db r.2 = demo_store ∧ comments (db r.2) !! 1%N = Some demo_comment ∧
  _messages r.2 = [(ERROR, "You don't have permission to delete this comment.")] ∧
  r.1 = Return (HttpResponseRedirect "/movie/the-dark-knight/").
Proof.
  refine (proj2 (proj2 (C3_delete_comment_moderation
            (demo_request POST (Some 2%N) NoData) 1%N demo_world
            demo_comment 2%N bob the_dark_knight _ _ _ _)) _).
  - reflexivity.
  - vm_compute. reflexivity.
  - vm_compute. reflexivity.
  - vm_compute. reflexivity.
  - vm_compute. intros [?|?]; discriminate.
Defined.

(** ** Toggling a favorite *)

Lemma elem_of_favorite_pairs (s : Store) (u m : pk) :
  (u, m) ∈ favorite_pairs s ↔
  ∃ k f, favorites s !! k = Some f ∧ Favorite.user f = u ∧ Favorite.movie f = m.
Proof.
  unfold favorite_pairs. rewrite elem_of_map_to_set. split.
  - intros (k & f & Hk & [= <- <-]). eauto.
  - intros (k & f & Hk & <- & <-). eauto.
Qed.

Lemma run_Favorite_get_or_create (user movie : pk) (now : DateTime) (w : World) :
  Favorite_get_or_create user movie now w =
  match get (filter (λ r : pk * Favorite.t,
                       Favorite.user r.2 = user ∧ Favorite.movie r.2 = movie)
                    (map_to_list (favorites (db w)))) with
  | Return fav => (Return (fav, false), w)
  | Raise DoesNotExist =>
      let k := next_pk (favorites (db w)) in
      let fav := {| Favorite.user := user; Favorite.movie := movie;
                    Favorite.created_at := now |} in
      (Return ((k, fav), true),
       {| db := set_favorites (insert k fav) (db w); _messages := _messages w |})
  | Raise e => (Raise e, w)
  end.
Proof.
  unfold Favorite_get_or_create. run_step. unfold qfilter, objects.
  destruct (get _) as [fav|[]]; try reflexivity.
Qed.

(** What a toggle does once the user is logged in and the movie is found. *)
Lemma run_toggle_favorite (request : HttpRequest.t) (slug : string) (w : World)
    (u : pk) (usr : User.t) (mid : pk) (movie : Movie.t) :
  HttpRequest.user request = Some u → users (db w) !! u = Some usr →
  get (Movie_by_slug slug (db w)) = Return (mid, movie) →
  toggle_favorite request slug w =
  match get (filter (λ r : pk * Favorite.t,
                       Favorite.user r.2 = u ∧ Favorite.movie r.2 = mid)
                    (map_to_list (favorites (db w)))) with
  | Return fav =>
      (redirect_to (Movie_get_absolute_url movie),
       {| db := Favorite_delete fav.1 (db w);
          _messages := _messages w ++ [(INFO, "Removed from favorites.")] |})
  | Raise DoesNotExist =>
      (redirect_to (Movie_get_absolute_url movie),
       {| db := set_favorites
                  (insert (next_pk (favorites (db w)))
                     {| Favorite.user := u; Favorite.movie := mid;
                        Favorite.created_at := HttpRequest.now request |}) (db w);
          _messages := _messages w ++ [(SUCCESS, "Added to favorites.")] |})
  | Raise e => (Raise e, w)
  end.
Proof.
  intros Hu Husr Hm. unfold toggle_favorite, login_required.
  rewrite run_bind, (run_request_user _ _ _ _ Hu Husr).
  rewrite run_bind, (run_get_object_or_404_Return _ _ _ Hm).
  rewrite run_bind, run_Favorite_get_or_create.
  destruct (get (filter _ (map_to_list (favorites (db w))))) as [fav|[]];
    try reflexivity.
  - cbv beta iota zeta. simpl negb. cbv iota.
    do 2 run_step. run_prims. by rewrite run_redirect.
  - cbv beta iota zeta. simpl negb. cbv iota.
    run_step. by rewrite run_redirect.
Qed.

(** A request that is turned away before the favorites are touched leaves
    the world as it is. *)
Lemma toggle_favorite_rejected (request : HttpRequest.t) (slug : string) (w : World) :
  (∀ u usr r, HttpRequest.user request = Some u → users (db w) !! u = Some usr →
              get (Movie_by_slug slug (db w)) = Return r → False) →
  (toggle_favorite request slug w).2 = w.
Proof.
  intros Hrej. unfold toggle_favorite, login_required.
  destruct (HttpRequest.user request) as [u|] eqn:Hu.
  - destruct (users (db w) !! u) as [usr|] eqn:Husr.
    + rewrite run_bind, (run_request_user _ _ _ _ Hu Husr).
      rewrite run_bind. unfold get_object_or_404. run_step.
      destruct (get (Movie_by_slug slug (db w))) as [r|e] eqn:Hm.
      * destruct (Hrej u usr r); done.
      * by destruct e.
    + unfold request_user, session_user. run_step. rewrite Hu. simpl. by rewrite Husr.
  - by rewrite run_bind, (run_request_user_anonymous _ _ Hu).
Qed.

Lemma favorite_pairs_insert (s : Store) (k : pk) (f : Favorite.t) :
  favorites s !! k = None →
  favorite_pairs (set_favorites (insert k f) s) =
  favorite_pairs s ∪ {[(Favorite.user f, Favorite.movie f)]}.
Proof.
  intros Hk. apply set_eq. intros [u m].
  rewrite elem_of_union, elem_of_singleton, !elem_of_favorite_pairs. simpl. split.
  - intros (k' & f' & Hk' & Hu & Hm).
    destruct (decide (k' = k)) as [->|Hne].
    + rewrite lookup_insert_eq in Hk'. right. congruence.
    + rewrite lookup_insert_ne in Hk' by done. left. eauto.
  - intros [(k' & f' & Hk' & Hu & Hm)|[= -> ->]].
    + exists k', f'. split; [|done]. rewrite lookup_insert_ne; [done|congruence].
    + exists k, f. by rewrite lookup_insert_eq.
Qed.

Lemma favorite_pairs_delete (s : Store) (k : pk) (f : Favorite.t) :
  favorites s !! k = Some f →
  (∀ k' f', favorites s !! k' = Some f' →
     Favorite.user f' = Favorite.user f ∧ Favorite.movie f' = Favorite.movie f →
     k' = k ∧ f' = f) →
  favorite_pairs (Favorite_delete k s) =
  favorite_pairs s ∖ {[(Favorite.user f, Favorite.movie f)]}.
Proof.
  intros Hk Honly. apply set_eq. intros [u m].
  rewrite elem_of_difference, elem_of_singleton, !elem_of_favorite_pairs. simpl. split.
  - intros (k' & f' & Hk' & Hu & Hm).
    apply lookup_delete_Some in Hk' as [Hne Hk']. split; [eauto|].
    intros [= -> ->]. destruct (Honly k' f' Hk'); [done|congruence].
  - intros [(k' & f' & Hk' & Hu & Hm) Hne]. exists k', f'. split; [|done].
    apply lookup_delete_Some. split; [|done]. intros ->. congruence.
Qed.

Lemma toggle_favorite_twice (request request' : HttpRequest.t) (slug : string) (w : World) :
  HttpRequest.user request' = HttpRequest.user request →
  favorite_pairs (db (toggle_favorite request' slug (toggle_favorite request slug w).2).2)
  = favorite_pairs (db w).
Proof.
  intros Hsame.
  destruct (HttpRequest.user request) as [u|] eqn:Hu;
    [destruct (users (db w) !! u) as [usr|] eqn:Husr;
      [destruct (get (Movie_by_slug slug (db w))) as [[mid movie]|e] eqn:Hm|]|].
  2-4: rewrite (toggle_favorite_rejected request), (toggle_favorite_rejected request');
       [done|intros ? ? ? ? ? ?; congruence..].
  rewrite (run_toggle_favorite request slug w u usr mid movie Hu Husr Hm).
  set (Pfav := λ r : pk * Favorite.t, Favorite.user r.2 = u ∧ Favorite.movie r.2 = mid).
  destruct (get (filter Pfav (map_to_list (favorites (db w))))) as [[k f]|e] eqn:Hget.
  - (* the favorite exists: removed, then added again *)
    apply (filter_get_Return Pfav) in Hget as (Hk & [Hfu Hfm] & Honly).
    simpl in Hfu, Hfm. cbn [snd fst].
    rewrite (run_toggle_favorite request' slug _ u usr mid movie); [|congruence|done|done].
    cbn [db _messages].
    assert (Hnone : get (filter Pfav (map_to_list (favorites (Favorite_delete k (db w)))))
                    = Raise DoesNotExist).
    { apply filter_get_DoesNotExist. intros k' f' Hk' HP. simpl in Hk'.
      apply lookup_delete_Some in Hk' as [Hne Hk']. destruct (Honly k' f' Hk' HP). done. }
    fold Pfav. rewrite Hnone. cbn [snd db].
    rewrite favorite_pairs_insert by (simpl; apply next_pk_fresh). simpl.
    rewrite (favorite_pairs_delete _ _ f Hk).
    + rewrite Hfu, Hfm. apply set_eq. intros p.
      rewrite elem_of_union, elem_of_difference, elem_of_singleton.
      split; [intros [[? _]| ->]; [done|]|].
      * apply elem_of_favorite_pairs. eauto.
      * intros Hp. destruct (decide (p = (u, mid))); [by right|by left].
    + intros k' f' Hk' [Hu' Hm']. apply Honly; [done|]. split; simpl; congruence.
  - destruct (decide (e = DoesNotExist)) as [->|Hne].
    + (* no favorite: added, then removed again *)
      cbn [snd]. set (k0 := next_pk (favorites (db w))).
      set (fav := {| Favorite.user := u; Favorite.movie := mid;
                     Favorite.created_at := HttpRequest.now request |}).
      rewrite (run_toggle_favorite request' slug _ u usr mid movie); [|congruence|done|done].
      cbn [db _messages]. fold Pfav.
      assert (Hone : get (filter Pfav (map_to_list (favorites (set_favorites (insert k0 fav) (db w)))))
                     = Return (k0, fav)).
      { apply filter_get_unique.
        - simpl. apply lookup_insert_eq.
        - done.
        - intros k' f' Hk' HP. simpl in Hk'.
          destruct (decide (k' = k0)) as [|Hne']; [done|].
          rewrite lookup_insert_ne in Hk' by done.
          destruct (proj1 (filter_get_DoesNotExist Pfav _) Hget k' f' Hk' HP). }
      rewrite Hone. cbn [snd fst db].
      f_equal. unfold Favorite_delete, set_favorites; simpl.
      rewrite delete_insert_eq, delete_id by apply next_pk_fresh. by destruct (db w).
    + (* more than one row: the lookup raises both times *)
      destruct e; try done; cbn [snd];
        rewrite (run_toggle_favorite request' slug _ u usr mid movie) by done;
        fold Pfav; by rewrite Hget.
Qed.

Lemma get_favorite_present (s : Store) (u m : pk) :
  unique_together s → is_favorite s u m →
  ∃ k f, favorites s !! k = Some f ∧ Favorite.user f = u ∧ Favorite.movie f = m ∧
    get (filter (λ r : pk * Favorite.t, Favorite.user r.2 = u ∧ Favorite.movie r.2 = m)
                (map_to_list (favorites s))) = Return (k, f).
Proof.
  intros Huniq (k & f & Hk & Hu & Hm)%elem_of_favorite_pairs.
  exists k, f. split_and!; try done.
  apply filter_get_unique; [done|done|].
  intros k' f' Hk' [Hu' Hm']. simpl in *. eapply Huniq; eauto; congruence.
Qed.

Lemma get_favorite_absent (s : Store) (u m : pk) :
  ¬ is_favorite s u m →
  get (filter (λ r : pk * Favorite.t, Favorite.user r.2 = u ∧ Favorite.movie r.2 = m)
              (map_to_list (favorites s))) = Raise DoesNotExist.
Proof.
  intros Hnot. apply filter_get_DoesNotExist. intros k f Hk [Hu Hm].
  apply Hnot, elem_of_favorite_pairs. eauto.
Qed.

Lemma unique_together_delete (s : Store) (k : pk) :
  unique_together s → unique_together (Favorite_delete k s).
Proof.
  intros Huniq k1 k2 f1 f2 H1 H2. simpl in H1, H2.
  apply lookup_delete_Some in H1 as [_ H1]. apply lookup_delete_Some in H2 as [_ H2].
  by apply Huniq.
Qed.

Lemma unique_together_insert (s : Store) (k : pk) (f : Favorite.t) :
  unique_together s → ¬ is_favorite s (Favorite.user f) (Favorite.movie f) →
  unique_together (set_favorites (insert k f) s).
Proof.
  intros Huniq Hnew k1 k2 f1 f2 H1 H2 Hu Hm. simpl in H1, H2.
  apply lookup_insert_Some in H1 as [[<- <-]|[Hne1 H1]];
    apply lookup_insert_Some in H2 as [[<- <-]|[Hne2 H2]]; try done.
  - destruct Hnew. apply elem_of_favorite_pairs. exists k2, f2. by rewrite Hu, Hm.
  - destruct Hnew. apply elem_of_favorite_pairs. exists k1, f1. by rewrite Hu, Hm.
  - by eapply Huniq.
Qed.

(** C1.  For an authenticated user [u] and an existing movie, the toggle
    deletes the Favorite(u, movie) row when there is one (queuing "Removed from
    favorites.") and creates one when there is none (queuing "Added to
    favorites."), keeping the pair unique; and from every state, two toggles
    in a row by the same user on the same slug give back the favorite-set
    they started from. *)
Theorem C1_toggle_favorite_flip :
  (∀ (request : HttpRequest.t) (slug : string) (w : World)
     (u : pk) (usr : User.t) (mid : pk) (movie : Movie.t),
     HttpRequest.user request = Some u → users (db w) !! u = Some usr →
     get (Movie_by_slug slug (db w)) = Return (mid, movie) →
     unique_together (db w) →
     let r := toggle_favorite request slug w in
     r.1 = redirect_to (Movie_get_absolute_url movie)
     ∧ unique_together (db r.2)
     ∧ (is_favorite (db w) u mid →
          ¬ is_favorite (db r.2) u mid
          ∧ favorite_pairs (db r.2) = favorite_pairs (db w) ∖ {[(u, mid)]}
          ∧ _messages r.2 = (_messages w ++ [(INFO, "Removed from favorites.")])%list)
     ∧ (¬ is_favorite (db w) u mid →
          is_favorite (db r.2) u mid
          ∧ favorite_pairs (db r.2) = favorite_pairs (db w) ∪ {[(u, mid)]}
          ∧ _messages r.2 = (_messages w ++ [(SUCCESS, "Added to favorites.")])%list))
  ∧ (∀ (request request' : HttpRequest.t) (slug : string) (w : World),
       HttpRequest.user request' = HttpRequest.user request →
       favorite_pairs
         (db (toggle_favorite request' slug (toggle_favorite request slug w).2).2)
       = favorite_pairs (db w)).
Proof.
  split; [|apply toggle_favorite_twice].
  intros request slug w u usr mid movie Hu Husr Hm Huniq r. subst r.
  rewrite (run_toggle_favorite request slug w u usr mid movie Hu Husr Hm).
  destruct (decide (is_favorite (db w) u mid)) as [Hfav|Hnot].
  - destruct (get_favorite_present _ _ _ Huniq Hfav) as (k & f & Hk & Hfu & Hfm & ->).
    cbn [fst snd db _messages].
    assert (Hpairs : favorite_pairs (Favorite_delete k (db w))
                     = favorite_pairs (db w) ∖ {[(u, mid)]}).
    { rewrite <- Hfu, <- Hfm. apply favorite_pairs_delete; [done|].
      intros k' f' Hk' [Hu' Hm']. assert (k' = k) as -> by (eapply Huniq; eauto).
      split; congruence. }
    split_and!; [done|by apply unique_together_delete| |done].
    intros _. split_and!; [|done|done].
    unfold is_favorite. rewrite Hpairs, elem_of_difference, elem_of_singleton.
    by intros [_ ?].
  - rewrite (get_favorite_absent _ _ _ Hnot). cbn [fst snd db _messages].
    assert (Hpairs : favorite_pairs
                       (set_favorites (insert (next_pk (favorites (db w)))
                          {| Favorite.user := u; Favorite.movie := mid;
                             Favorite.created_at := HttpRequest.now request |}) (db w))
                     = favorite_pairs (db w) ∪ {[(u, mid)]}).
    { by rewrite favorite_pairs_insert by apply next_pk_fresh. }
    split_and!; [done|by apply unique_together_insert|done|].
    intros _. split_and!; [|done|done].
    unfold is_favorite. rewrite Hpairs. by apply elem_of_union_r, elem_of_singleton.
Qed.

Lemma demo_store_unique_together : unique_together demo_store.
Proof.
  intros k1 k2 f1 f2 H1 H2 _ _. simpl in H1, H2.
  apply lookup_singleton_Some in H1 as [<- _].
  by apply lookup_singleton_Some in H2 as [<- _].
Qed.

(** Bob toggles "Inception", which he had favorited. *)
Lemma C1_toggle_favorite_witness :
  let r := toggle_favorite (demo_request POST (Some 2%N) NoData) "inception" demo_world in
  ¬ is_favorite (db r.2) 2 3
  ∧ favorite_pairs (db r.2) = favorite_pairs demo_store ∖ {[(2%N, 3%N)]}
  ∧ _messages r.2 = [(INFO, "Removed from favorites.")].
Proof.
  refine (proj1 (proj2 (proj2 (proj1 C1_toggle_favorite_flip
            (demo_request POST (Some 2%N) NoData) "inception" demo_world
            2%N bob 3%N inception _ _ _ _))) _).
  - reflexivity.
  - vm_compute. reflexivity.
  - vm_compute. reflexivity.
  - apply demo_store_unique_together.
  - apply elem_of_favorite_pairs. exists 1%N, demo_favorite. by vm_compute.
Defined.

(** ** The owner guard of the update and delete views *)

Lemma run_owner_guard (request : HttpRequest.t) (slug : string) (w : World)
    (body : pk * User.t → M HttpResponse) :
  LoginRequiredMixin request (λ user,
    UserPassesTestMixin (MovieOwnerMixin_test_func user slug) user (body user)) w =
  match session_user request (db w) with
  | None => (Return RedirectToLogin, w)
  | Some user =>
      match get (Movie_by_slug slug (db w)) with
      | Return obj =>
          if bool_decide (Movie.created_by obj.2 = user.1) then body user w
          else (Raise PermissionDenied, w)
      | Raise DoesNotExist => (Raise Http404, w)
      | Raise e => (Raise e, w)
      end
  end.
Proof.
  unfold LoginRequiredMixin. rewrite run_bind, run_session_user.
  destruct (session_user request (db w)) as [user|]; [|reflexivity].
  unfold UserPassesTestMixin, MovieOwnerMixin_test_func.
  rewrite !run_bind, run_get_object_or_404.
  destruct (get (Movie_by_slug slug (db w))) as [obj|[]]; try reflexivity.
  unfold mret, M_ret. cbv beta iota.
  by destruct (bool_decide (Movie.created_by obj.2 = user.1)).
Qed.

(** ** The handlers of the movie views *)

Lemma run_Movie_save (id : option pk) (row : Movie.t) (w : World) :
  Movie_save id row w =
  if slug_taken id (Movie.slug row) (db w)
  then (Raise IntegrityError, w)
  else
    let k := default (next_pk (movies (db w))) id in
    (Return (k, row), {| db := set_movies (insert k row) (db w); _messages := _messages w |}).
Proof.
  unfold Movie_save. run_step.
  destruct (slug_taken _ _ _); [reflexivity|]. by do 2 run_step.
Qed.

(** A form bound to no data is in error on its title, whatever the
    instance. *)
Lemma MovieForm_errors_empty (s : Store) (instance : option Movie.t) :
  ∃ errors, MovieForm_errors s instance empty_movie_form = "title" :: errors.
Proof. eexists. reflexivity. Qed.

Lemma run_MovieCreateView_post (slugify : string → string) (request : HttpRequest.t)
    (user : pk * User.t) (form : MovieForm.t) (w : World) :
  MovieCreateView_post slugify request user form w =
  let errors := MovieForm_errors (db w) None form in
  let now := HttpRequest.now request in
  match errors,
        construct_instance form
          (String.substring 0 280 (slugify (MovieForm.title form))) "" user.1 now now with
  | [], Some instance =>
      let queued := (_messages w ++ [(SUCCESS, "Movie added successfully.")])%list in
      if slug_taken None (Movie.slug instance) (db w)
      then (Raise IntegrityError, {| db := db w; _messages := queued |})
      else (redirect_to (Movie_get_absolute_url instance),
            {| db := set_movies (insert (next_pk (movies (db w))) instance) (db w);
               _messages := queued |})
  | _, _ => (Return (TemplateResponse "movies/movie_form.html" errors), w)
  end.
Proof.
  unfold MovieCreateView_post. run_step. cbv zeta.
  destruct (MovieForm_errors (db w) None form) as [|e errors]; [|reflexivity].
  destruct (construct_instance _ _ _ _ _ _) as [instance|]; [|reflexivity].
  run_step. rewrite run_bind, run_Movie_save. cbn [db _messages].
  destruct (slug_taken _ _ _); [reflexivity|].
  cbv zeta. cbn [default from_option Datatypes.id snd]. by rewrite run_redirect.
Qed.

Lemma run_MovieCreateView (slugify : string → string) (request : HttpRequest.t) (w : World) :
  MovieCreateView slugify request w =
  match session_user request (db w) with
  | None => (Return RedirectToLogin, w)
  | Some user =>
      match HttpRequest.method request with
      | GET | HEAD => (Return (TemplateResponse "movies/movie_form.html" []), w)
      | POST =>
          let form := movie_form request in
          let errors := MovieForm_errors (db w) None form in
          let now := HttpRequest.now request in
          match errors,
                construct_instance form
                  (String.substring 0 280 (slugify (MovieForm.title form))) "" user.1 now now with
          | [], Some instance =>
              let queued := (_messages w ++ [(SUCCESS, "Movie added successfully.")])%list in
              if slug_taken None (Movie.slug instance) (db w)
              then (Raise IntegrityError, {| db := db w; _messages := queued |})
              else (redirect_to (Movie_get_absolute_url instance),
                    {| db := set_movies (insert (next_pk (movies (db w))) instance) (db w);
                       _messages := queued |})
          | _, _ => (Return (TemplateResponse "movies/movie_form.html" errors), w)
          end
      | PUT =>
          (Return (TemplateResponse "movies/movie_form.html"
                     (MovieForm_errors (db w) None empty_movie_form)), w)
      | OPTIONS => (Return AllowResponse, w)
      | PATCH | DELETE | TRACE | OTHER => (Return HttpResponseNotAllowed, w)
      end
  end.
Proof.
  unfold MovieCreateView, LoginRequiredMixin. rewrite run_bind, run_session_user.
  destruct (session_user request (db w)) as [user|]; [|reflexivity].
  destruct (HttpRequest.method request); try reflexivity.
  all: try apply run_MovieCreateView_post.
  all: rewrite run_MovieCreateView_post; cbv zeta.
  all: by destruct (MovieForm_errors_empty (db w) None) as [errors ->].
Qed.

(** Only a POST can make the create view write or fail. *)
Lemma run_MovieCreateView_other (slugify : string → string) (request : HttpRequest.t)
    (w : World) :
  HttpRequest.method request ≠ POST →
  ∃ response, MovieCreateView slugify request w = (Return response, w).
Proof.
  intros Hmethod. rewrite run_MovieCreateView.
  destruct (session_user request (db w)) as [user|]; [|by eexists].
  destruct (HttpRequest.method request); try done; by eexists.
Qed.

Lemma run_MovieUpdateView_post (request : HttpRequest.t) (slug : string)
    (form : MovieForm.t) (w : World) (obj : pk * Movie.t) :
  get (Movie_by_slug slug (db w)) = Return obj →
  MovieUpdateView_post request slug form w =
  let errors := MovieForm_errors (db w) (Some obj.2) form in
  match errors,
        construct_instance form (Movie.slug obj.2) (Movie.poster obj.2)
          (Movie.created_by obj.2) (Movie.created_at obj.2) (HttpRequest.now request) with
  | [], Some instance =>
      let queued := (_messages w ++ [(SUCCESS, "Movie updated successfully.")])%list in
      if slug_taken (Some obj.1) (Movie.slug instance) (db w)
      then (Raise IntegrityError, {| db := db w; _messages := queued |})
      else (redirect_to (Movie_get_absolute_url instance),
            {| db := set_movies (insert obj.1 instance) (db w); _messages := queued |})
  | _, _ => (Return (TemplateResponse "movies/movie_form.html" errors), w)
  end.
Proof.
  intros Hobj. unfold MovieUpdateView_post.
  rewrite run_bind, run_get_object_or_404, Hobj.
  run_step. cbv zeta.
  destruct (MovieForm_errors (db w) (Some obj.2) form) as [|e errors]; [|reflexivity].
  destruct (construct_instance _ _ _ _ _ _) as [instance|]; [|reflexivity].
  run_step. rewrite run_bind, run_Movie_save. cbn [db _messages].
  destruct (slug_taken _ _ _); [reflexivity|].
  cbv zeta. cbn [default from_option Datatypes.id snd]. by rewrite run_redirect.
Qed.

(** The update view once the guard has let the creator through. *)
Lemma run_MovieUpdateView_owner (request : HttpRequest.t) (slug : string) (w : World)
    (user : pk * User.t) (obj : pk * Movie.t) :
  session_user request (db w) = Some user →
  get (Movie_by_slug slug (db w)) = Return obj →
  Movie.created_by obj.2 = user.1 →
  MovieUpdateView request slug w =
  match HttpRequest.method request with
  | GET | HEAD => (Return (TemplateResponse "movies/movie_form.html" []), w)
  | POST => MovieUpdateView_post request slug (movie_form request) w
  | PUT =>
      (Return (TemplateResponse "movies/movie_form.html"
                 (MovieForm_errors (db w) (Some obj.2) empty_movie_form)), w)
  | OPTIONS => (Return AllowResponse, w)
  | PATCH | DELETE | TRACE | OTHER => (Return HttpResponseNotAllowed, w)
  end.
Proof.
  intros Huser Hobj Hown. unfold MovieUpdateView.
  rewrite run_owner_guard, Huser, Hobj, bool_decide_eq_true_2 by done. cbv beta.
  destruct (HttpRequest.method request); try reflexivity.
  all: try by rewrite run_bind, run_get_object_or_404, Hobj.
  all: rewrite (run_MovieUpdateView_post _ _ _ _ _ Hobj); cbv zeta.
  all: by destruct (MovieForm_errors_empty (db w) (Some obj.2)) as [errors ->].
Qed.

Lemma run_MovieUpdateView (request : HttpRequest.t) (slug : string) (w : World)
    (user : pk * User.t) (obj : pk * Movie.t) :
  session_user request (db w) = Some user →
  get (Movie_by_slug slug (db w)) = Return obj →
  Movie.created_by obj.2 = user.1 →
  HttpRequest.method request = POST →
  MovieUpdateView request slug w =
  let form := movie_form request in
  let errors := MovieForm_errors (db w) (Some obj.2) form in
  match errors,
        construct_instance form (Movie.slug obj.2) (Movie.poster obj.2)
          (Movie.created_by obj.2) (Movie.created_at obj.2) (HttpRequest.now request) with
  | [], Some instance =>
      let queued := (_messages w ++ [(SUCCESS, "Movie updated successfully.")])%list in
      if slug_taken (Some obj.1) (Movie.slug instance) (db w)
      then (Raise IntegrityError, {| db := db w; _messages := queued |})
      else (redirect_to (Movie_get_absolute_url instance),
            {| db := set_movies (insert obj.1 instance) (db w); _messages := queued |})
  | _, _ => (Return (TemplateResponse "movies/movie_form.html" errors), w)
  end.
Proof.
  intros Huser Hobj Hown Hpost.
  rewrite (run_MovieUpdateView_owner _ _ _ _ _ Huser Hobj Hown), Hpost.
  by apply run_MovieUpdateView_post.
Qed.

Lemma run_BaseDeleteView_post (slug : string) (w : World) (obj : pk * Movie.t) :
  get (Movie_by_slug slug (db w)) = Return obj →
  BaseDeleteView_post slug w =
  (Return (HttpResponseRedirect "/movies/"),
   {| db := Movie_delete obj.1 (db w); _messages := _messages w |}).
Proof.
  intros Hobj. unfold BaseDeleteView_post.
  rewrite run_bind, run_get_object_or_404, Hobj.
  change (reverse "movie_list" []) with (Return (A:=string) "/movies/").
  by do 2 run_step.
Qed.

Lemma run_DeletionMixin_delete (slug : string) (w : World) (obj : pk * Movie.t) :
  get (Movie_by_slug slug (db w)) = Return obj →
  DeletionMixin_delete slug w =
  (Return (HttpResponseRedirect "/movies/"),
   {| db := Movie_delete obj.1 (db w); _messages := _messages w |}).
Proof.
  intros Hobj. unfold DeletionMixin_delete.
  rewrite run_bind, run_get_object_or_404, Hobj.
  change (reverse "movie_list" []) with (Return (A:=string) "/movies/").
  by do 2 run_step.
Qed.

(** The delete view once the guard has let the creator through. *)
Lemma run_MovieDeleteView_owner (request : HttpRequest.t) (slug : string) (w : World)
    (user : pk * User.t) (obj : pk * Movie.t) :
  session_user request (db w) = Some user →
  get (Movie_by_slug slug (db w)) = Return obj →
  Movie.created_by obj.2 = user.1 →
  MovieDeleteView request slug w =
  match HttpRequest.method request with
  | GET | HEAD => (Return (TemplateResponse "movies/movie_confirm_delete.html" []), w)
  | POST =>
      (Return (HttpResponseRedirect "/movies/"),
       {| db := Movie_delete obj.1 (db w); _messages := _messages w |})
  | DELETE =>
      (Return (HttpResponseRedirect "/movies/"),
       {| db := Movie_delete obj.1 (db w);
          _messages := _messages w ++ [(SUCCESS, "Movie deleted successfully.")] |})
  | OPTIONS => (Return AllowResponse, w)
  | PUT | PATCH | TRACE | OTHER => (Return HttpResponseNotAllowed, w)
  end.
Proof.
  intros Huser Hobj Hown. unfold MovieDeleteView.
  rewrite run_owner_guard, Huser, Hobj, bool_decide_eq_true_2 by done. cbv beta.
  destruct (HttpRequest.method request); try reflexivity.
  all: try by rewrite run_bind, run_get_object_or_404, Hobj.
  all: try by apply run_BaseDeleteView_post.
  all: run_step; by erewrite run_DeletionMixin_delete by exact Hobj.
Qed.

Lemma run_MovieDeleteView_post (request : HttpRequest.t) (slug : string) (w : World)
    (user : pk * User.t) (obj : pk * Movie.t) :
  session_user request (db w) = Some user →
  get (Movie_by_slug slug (db w)) = Return obj →
  Movie.created_by obj.2 = user.1 →
  HttpRequest.method request = POST →
  MovieDeleteView request slug w =
  (Return (HttpResponseRedirect "/movies/"),
   {| db := Movie_delete obj.1 (db w); _messages := _messages w |}).
Proof.
  intros Huser Hobj Hown Hpost.
  by rewrite (run_MovieDeleteView_owner _ _ _ _ _ Huser Hobj Hown), Hpost.
Qed.

(** A guarded view leaves the world as it is unless the actor is the creator
    of the movie the slug names. *)
Lemma guarded_view_cases (request : HttpRequest.t) (slug : string) (w : World)
    (body : pk * User.t → M HttpResponse) :
  let r := LoginRequiredMixin request (λ user,
             UserPassesTestMixin (MovieOwnerMixin_test_func user slug) user (body user)) w in
  r.2 = w
  ∨ ∃ user obj,
      session_user request (db w) = Some user ∧
      get (Movie_by_slug slug (db w)) = Return obj ∧
      Movie.created_by obj.2 = user.1.
Proof.
  intros r. subst r. rewrite run_owner_guard.
  destruct (session_user request (db w)) as [user|]; [|by left].
  destruct (get (Movie_by_slug slug (db w))) as [obj|[]]; try by left.
  destruct (decide (Movie.created_by obj.2 = user.1)) as [Hown|Hne].
  - right. by exists user, obj.
  - rewrite bool_decide_eq_false_2 by done. by left.
Qed.

Lemma owner_view_cases (view : HttpRequest.t → string → M HttpResponse)
    (request : HttpRequest.t) (slug : string) (w : World) :
  view ∈ owner_views →
  (view request slug w).2 = w ∨
  ∃ user obj,
    session_user request (db w) = Some user ∧
    get (Movie_by_slug slug (db w)) = Return obj ∧
    Movie.created_by obj.2 = user.1.
Proof.
  unfold owner_views. rewrite elem_of_cons, list_elem_of_singleton.
  intros [->| ->]; apply guarded_view_cases.
Qed.

Lemma MovieUpdateView_cases_post (request : HttpRequest.t) (slug : string) (w : World) :
  (MovieUpdateView request slug w).2 = w ∨
  ∃ user obj,
    session_user request (db w) = Some user ∧
    get (Movie_by_slug slug (db w)) = Return obj ∧
    Movie.created_by obj.2 = user.1 ∧
    HttpRequest.method request = POST.
Proof.
  destruct (owner_view_cases MovieUpdateView request slug w)
    as [?|(user & obj & Huser & Hobj & Hown)]; [apply list_elem_of_here|by left|].
  destruct (decide (HttpRequest.method request = POST)) as [Hpost|Hother].
  - right. by exists user, obj.
  - left. rewrite (run_MovieUpdateView_owner _ _ _ _ _ Huser Hobj Hown).
    by destruct (HttpRequest.method request).
Qed.

(** C9.  Deleting a movie removes its row together with every comment and
    every favorite that references it, and keeps the comments and favorites
    of other movies; a POST to the delete view by the movie's creator
    performs exactly this deletion. *)
Theorem C9_movie_delete_cascades (s : Store) (id : pk) :
  let s' := Movie_delete id s in
  movies s' !! id = None
  ∧ (∀ k c, comments s' !! k = Some c → Comment.movie c ≠ id)
  ∧ (∀ k f, favorites s' !! k = Some f → Favorite.movie f ≠ id)
  ∧ (∀ k c, comments s !! k = Some c → Comment.movie c ≠ id → comments s' !! k = Some c)
  ∧ (∀ k f, favorites s !! k = Some f → Favorite.movie f ≠ id → favorites s' !! k = Some f)
  ∧ (∀ k, k ≠ id → movies s' !! k = movies s !! k)
  ∧ (∀ request slug w user m,
       db w = s →
       session_user request s = Some user →
       get (Movie_by_slug slug s) = Return (id, m) →
       Movie.created_by m = user.1 →
       HttpRequest.method request = POST →
       db (MovieDeleteView request slug w).2 = s').
Proof.
  simpl. split_and!.
  - apply lookup_delete_eq.
  - intros k c H. by apply map_lookup_filter_Some in H as [_ ?].
  - intros k f H. by apply map_lookup_filter_Some in H as [_ ?].
  - intros k c H Hne. by apply map_lookup_filter_Some.
  - intros k f H Hne. by apply map_lookup_filter_Some.
  - intros k Hne. by apply lookup_delete_ne.
  - intros request slug w user m <- Huser Hobj Hown Hpost.
    by rewrite (run_MovieDeleteView_post request slug w user (id, m)).
Qed.

(** Alice deletes "The Dark Knight" and with it the comment on it. *)
Lemma C9_movie_delete_witness :
  let s' := db (MovieDeleteView (demo_request POST (Some 1%N) NoData)
                  "the-dark-knight" demo_world).2 in
  s' = Movie_delete 1%N demo_store ∧ comments s' = ∅ ∧ movies s' !! 1%N = None.
Proof.
  split_and!.
  - refine (proj2 (proj2 (proj2 (proj2 (proj2 (proj2
             (C9_movie_delete_cascades demo_store 1%N))))))
             (demo_request POST (Some 1%N) NoData) "the-dark-knight" demo_world
             (1%N, alice) the_dark_knight _ _ _ _ _);
      by vm_compute.
  - by vm_compute.
  - by vm_compute.
Defined.

(** C2 (as amended).  For the movie update and delete views: an
    unauthenticated actor is redirected to the login page, an authenticated
    actor who is not the movie's creator is refused with [PermissionDenied],
    in both cases with the database and the message queue untouched; and a
    request changes anything only if its actor is the creator of the movie
    the slug names. *)
Theorem C2_owner_check_fails_closed
    (view : HttpRequest.t → string → M HttpResponse)
    (request : HttpRequest.t) (slug : string) (w : World) :
  view ∈ owner_views →
  let r := view request slug w in
  (session_user request (db w) = None → r = (Return RedirectToLogin, w))
  ∧ (∀ user obj,
       session_user request (db w) = Some user →
       get (Movie_by_slug slug (db w)) = Return obj →
       Movie.created_by obj.2 ≠ user.1 →
       r = (Raise PermissionDenied, w))
  ∧ (r.2 ≠ w →
       ∃ user obj,
         session_user request (db w) = Some user ∧
         get (Movie_by_slug slug (db w)) = Return obj ∧
         Movie.created_by obj.2 = user.1).
Proof.
  intros Hin r. subst r. split_and!.
  - unfold owner_views in Hin.
    apply elem_of_cons in Hin as [->|Hin%list_elem_of_singleton]; [|subst view].
    + unfold MovieUpdateView. rewrite run_owner_guard. by intros ->.
    + unfold MovieDeleteView. rewrite run_owner_guard. by intros ->.
  - unfold owner_views in Hin.
    apply elem_of_cons in Hin as [->|Hin%list_elem_of_singleton]; [|subst view].
    + unfold MovieUpdateView. rewrite run_owner_guard.
      intros user obj -> -> Hne. by rewrite bool_decide_eq_false_2.
    + unfold MovieDeleteView. rewrite run_owner_guard.
      intros user obj -> -> Hne. by rewrite bool_decide_eq_false_2.
  - intros Hchanged. by destruct (owner_view_cases view request slug w Hin).
Qed.

(** C2, as stated, does not hold: bob, who did not create "Fargo", posts to
    its update view and gets [PermissionDenied] with no message queued, and an
    anonymous visitor is sent to the login page; neither is redirected to the
    movie's page with an error notice. *)
Lemma C2_refused_actor_not_redirected_to_movie :
  MovieUpdateView (demo_request POST (Some 2%N) NoData) "fargo" demo_world
    = (Raise PermissionDenied, demo_world)
  ∧ MovieUpdateView (demo_request POST None NoData) "fargo" demo_world
    = (Return RedirectToLogin, demo_world)
  ∧ Movie_get_absolute_url fargo = Return "/movie/fargo/"
  ∧ ¬ redirected_with_error_notice
        (MovieUpdateView (demo_request POST (Some 2%N) NoData) "fargo" demo_world)
        "/movie/fargo/"
  ∧ ¬ redirected_with_error_notice
        (MovieUpdateView (demo_request POST None NoData) "fargo" demo_world)
        "/movie/fargo/".
Proof.
  assert (H1 : MovieUpdateView (demo_request POST (Some 2%N) NoData) "fargo" demo_world
               = (Raise PermissionDenied, demo_world)) by (vm_compute; reflexivity).
  assert (H2 : MovieUpdateView (demo_request POST None NoData) "fargo" demo_world
               = (Return RedirectToLogin, demo_world)) by (vm_compute; reflexivity).
  split_and!; [done|done|by vm_compute| |].
  - rewrite H1. intros [? _]. discriminate.
  - rewrite H2. intros [? _]. discriminate.
Qed.

(** Bob posts to the update view of a movie alice created. *)
Lemma C2_owner_check_witness :
  MovieUpdateView (demo_request POST (Some 2%N) NoData) "fargo" demo_world
  = (Raise PermissionDenied, demo_world).
Proof.
  refine (proj1 (proj2 (C2_owner_check_fails_closed MovieUpdateView
            (demo_request POST (Some 2%N) NoData) "fargo" demo_world _))
            (2%N, bob) (2%N, fargo) _ _ _).
  - apply list_elem_of_here.
  - vm_compute. reflexivity.
  - vm_compute. reflexivity.
  - vm_compute. discriminate.
Defined.


(** ** Ratings *)

Lemma rating_validators_in_range (d : Decimal.t) :
  rating_validators d = true → in_range d.
Proof.
  unfold rating_validators, MinValueValidator, MaxValueValidator, Decimal.lt, Decimal.gt.
  rewrite !andb_true_iff, !negb_involutive. intros [[_ Hmin] Hmax].
  split; by apply Qle_bool_iff.
Qed.

Lemma rating_validators_out_of_range (d : Decimal.t) :
  ¬ in_range d → rating_validators d = false.
Proof.
  intros Hout. destruct (rating_validators d) eqn:Hv; [|done].
  destruct Hout. by apply rating_validators_in_range.
Qed.

Lemma named_ratings_out_of_range (d : Decimal.t) :
  is_10_1_or_minus_0_1 d → ¬ in_range d.
Proof.
  intros [Heq|Heq] [Hlo Hhi].
  - rewrite Heq in Hhi. revert Hhi. by vm_compute.
  - rewrite Heq in Hlo. revert Hlo. by vm_compute.
Qed.

Lemma MovieForm_errors_rating (s : Store) (instance : option Movie.t)
    (form : MovieForm.t) (d : Decimal.t) :
  MovieForm.rating form = Some d → rating_validators d = false →
  "rating" ∈ MovieForm_errors s instance form.
Proof.
  intros Hd Hv. unfold MovieForm_errors. rewrite Hd, Hv.
  rewrite !elem_of_app. do 5 right. left. by apply list_elem_of_here.
Qed.

Lemma MovieForm_valid_rating (s : Store) (instance : option Movie.t)
    (form : MovieForm.t) :
  MovieForm_errors s instance form = [] →
  ∃ d, MovieForm.rating form = Some d ∧ rating_validators d = true.
Proof.
  intros Hno. destruct (MovieForm.rating form) as [d|] eqn:Hd.
  - exists d. split; [done|]. destruct (rating_validators d) eqn:Hv; [done|].
    pose proof (MovieForm_errors_rating s instance form d Hd Hv) as Hin.
    rewrite Hno in Hin. by apply elem_of_nil in Hin.
  - exfalso. assert ("rating" ∈ MovieForm_errors s instance form) as Hin.
    { unfold MovieForm_errors. rewrite Hd.
      rewrite !elem_of_app. do 5 right. left. by apply list_elem_of_here. }
    rewrite Hno in Hin. by apply elem_of_nil in Hin.
Qed.

Lemma construct_instance_rating (form : MovieForm.t) (slug old_poster : string)
    (created_by : pk) (created_at updated_at : DateTime) (instance : Movie.t) :
  construct_instance form slug old_poster created_by created_at updated_at = Some instance →
  MovieForm.rating form = Some (Movie.rating instance).
Proof.
  unfold construct_instance.
  destruct (MovieForm.release_date form); [|done].
  destruct (MovieForm.rating form); [|done].
  destruct (MovieForm.category form); [|done].
  destruct (MovieForm.trailer_url form); [|done].
  simpl. by intros [= <-].
Qed.

(** ** Computations that keep a property of the database *)

Section Preserves.
Context (P : Store → Prop).

Lemma preserves_bind {A B} (m : M A) (f : A → M B) :
  preserves P m → (∀ a, preserves P (f a)) → preserves P (m ≫= f).
Proof.
  intros Hm Hf w HP. rewrite run_bind. specialize (Hm w HP).
  destruct (m w) as [[a|e] w']; simpl in *; [by apply Hf|done].
Qed.

Lemma preserves_ret {A} (a : A) : preserves P (mret a).
Proof. by intros w HP. Qed.

Lemma preserves_raise {A} (e : Exception) : preserves P (raise e : M A).
Proof. by intros w HP. Qed.

Lemma preserves_lift {A} (o : Outcome A) : preserves P (lift o).
Proof. by intros w HP. Qed.

Lemma preserves_query {A} (f : Store → A) : preserves P (query f).
Proof. by intros w HP. Qed.

Lemma preserves_add_message (level : Level) (text : string) :
  preserves P (messages.add_message level text).
Proof. by intros w HP. Qed.

Lemma preserves_execute (f : Store → Store) :
  (∀ s, P s → P (f s)) → preserves P (execute f).
Proof. intros Hf w HP. by apply Hf. Qed.
End Preserves.

Ltac preserves_step :=
  lazymatch goal with
  | |- preserves _ (_ ≫= _) => apply preserves_bind; [|intros ?]
  | |- preserves _ (mret _) => apply preserves_ret
  | |- preserves _ (raise _) => apply preserves_raise
  | |- preserves _ (lift _) => apply preserves_lift
  | |- preserves _ (query _) => apply preserves_query
  | |- preserves _ (messages.add_message _ _) => apply preserves_add_message
  | |- preserves _ (execute _) => apply preserves_execute
  | |- preserves _ (match ?x with _ => _ end) => destruct x
  end.

Ltac preserves_view :=
  unfold BaseDeleteView_post, DeletionMixin_delete, View.options,
    View.http_method_not_allowed;
  unfold login_required, LoginRequiredMixin, UserPassesTestMixin, handle_no_permission,
    MovieOwnerMixin_test_func, get_object_or_404, related, redirect, request_user,
    Favorite_get_or_create, Comment_save, create_or_update_user_profile,
    messages.success, messages.info, messages.error;
  repeat preserves_step.

Lemma ratings_in_range_subseteq (s s' : Store) :
  movies s' ⊆ movies s → ratings_in_range s → ratings_in_range s'.
Proof.
  intros Hsub Hr k m Hk. apply (Hr k). by eapply lookup_weaken.
Qed.

Lemma ratings_in_range_insert (s : Store) (k : pk) (row : Movie.t) :
  rating_validators (Movie.rating row) = true →
  ratings_in_range s → ratings_in_range (set_movies (insert k row) s).
Proof.
  intros Hv Hr k' m Hk'. simpl in Hk'.
  apply lookup_insert_Some in Hk' as [[_ <-]|[_ Hk']].
  - by apply rating_validators_in_range.
  - by apply (Hr k').
Qed.

Lemma ratings_in_range_Movie_delete (s : Store) (id : pk) :
  ratings_in_range s → ratings_in_range (Movie_delete id s).
Proof. apply ratings_in_range_subseteq. simpl. apply delete_subseteq. Qed.

Lemma ratings_in_range_Category_delete (s : Store) (id : pk) :
  ratings_in_range s → ratings_in_range (Category_delete id s).
Proof.
  intros Hr k m Hk. simpl in Hk. rewrite lookup_fmap in Hk.
  destruct (movies s !! k) as [m0|] eqn:Hk0; [|done]. simpl in Hk.
  injection Hk as <-. specialize (Hr k m0 Hk0).
  by destruct (decide (Movie.category m0 = Some id)).
Qed.

Lemma preserves_MovieDeleteView (request : HttpRequest.t) (slug : string) :
  preserves ratings_in_range (MovieDeleteView request slug).
Proof.
  unfold MovieDeleteView. preserves_view;
    intros s; apply ratings_in_range_Movie_delete.
Qed.

Lemma preserves_add_comment (request : HttpRequest.t) (slug : string) :
  preserves ratings_in_range (add_comment request slug).
Proof.
  unfold add_comment. preserves_view.
  intros s. by apply ratings_in_range_subseteq.
Qed.

Lemma preserves_delete_comment (request : HttpRequest.t) (id : pk) :
  preserves ratings_in_range (delete_comment request id).
Proof.
  unfold delete_comment. preserves_view.
  intros s. by apply ratings_in_range_subseteq.
Qed.

Lemma preserves_toggle_favorite (request : HttpRequest.t) (slug : string) :
  preserves ratings_in_range (toggle_favorite request slug).
Proof.
  unfold toggle_favorite. preserves_view;
    intros s; by apply ratings_in_range_subseteq.
Qed.

Lemma preserves_User_save (id : option pk) (row : User.t) :
  preserves ratings_in_range (User_save id row).
Proof.
  unfold User_save. preserves_view;
    intros s; by apply ratings_in_range_subseteq.
Qed.

Lemma preserves_MovieCreateView (slugify : string → string) (request : HttpRequest.t) :
  preserves ratings_in_range (MovieCreateView slugify request).
Proof.
  intros w HP. rewrite run_MovieCreateView.
  destruct (session_user request (db w)) as [user|]; [|done].
  destruct (HttpRequest.method request); try done. cbv zeta.
  destruct (MovieForm_errors (db w) None (movie_form request)) as [|e errors] eqn:Herr;
    [|done].
  destruct (construct_instance _ _ _ _ _ _) as [instance|] eqn:Hinst; [|done].
  destruct (slug_taken _ _ _); [done|]. cbn [snd db].
  apply ratings_in_range_insert; [|done].
  destruct (MovieForm_valid_rating _ _ _ Herr) as (d & Hd & Hv).
  apply construct_instance_rating in Hinst. congruence.
Qed.

Lemma preserves_MovieUpdateView (request : HttpRequest.t) (slug : string) :
  preserves ratings_in_range (MovieUpdateView request slug).
Proof.
  intros w HP.
  destruct (MovieUpdateView_cases_post request slug w)
    as [->|(user & obj & Huser & Hobj & Hown & Hpost)]; [done|].
  rewrite (run_MovieUpdateView _ _ _ _ _ Huser Hobj Hown Hpost). cbv zeta.
  destruct (MovieForm_errors (db w) (Some obj.2) (movie_form request)) as [|e errors] eqn:Herr;
    [|done].
  destruct (construct_instance _ _ _ _ _ _) as [instance|] eqn:Hinst; [|done].
  destruct (slug_taken _ _ _); [done|]. cbn [snd db].
  apply ratings_in_range_insert; [|done].
  destruct (MovieForm_valid_rating _ _ _ Herr) as (d & Hd & Hv).
  apply construct_instance_rating in Hinst. congruence.
Qed.

Lemma reachable_ratings_in_range (slugify : string → string) (s : Store) :
  reachable slugify s → ratings_in_range s.
Proof.
  induction 1 as [|s s' _ IH Hstep].
  - intros k m Hk. simpl in Hk. by rewrite lookup_empty in Hk.
  - destruct Hstep.
    + by apply preserves_MovieCreateView.
    + by apply preserves_MovieUpdateView.
    + by apply preserves_MovieDeleteView.
    + by apply preserves_add_comment.
    + by apply preserves_delete_comment.
    + by apply preserves_toggle_favorite.
    + by apply preserves_User_save.
    + by apply (ratings_in_range_subseteq s).
    + by apply ratings_in_range_Category_delete.
    + by apply ratings_in_range_insert.
    + by apply ratings_in_range_Movie_delete.
    + by apply (ratings_in_range_subseteq s).
Qed.

Lemma movie_form_POST (request : HttpRequest.t) (form : MovieForm.t) :
  HttpRequest.POST request = MovieData form → movie_form request = form.
Proof. unfold movie_form. by intros ->. Qed.

(** C6.  Every movie stored in a reachable database has a rating within
    [0.0, 10.0]; and a create or update submission whose rating is 10.1 or
    -0.1 changes nothing, the form being shown again with an error on the
    rating field. *)
Theorem C6_rating_within_bounds :
  (∀ (slugify : string → string) (s : Store), reachable slugify s → ratings_in_range s)
  ∧ (∀ (slugify : string → string) (request : HttpRequest.t) (w : World)
       (form : MovieForm.t) (d : Decimal.t),
       HttpRequest.method request = POST →
       HttpRequest.POST request = MovieData form →
       MovieForm.rating form = Some d → is_10_1_or_minus_0_1 d →
       let r := MovieCreateView slugify request w in
       r.2 = w ∧
       ∀ user, session_user request (db w) = Some user →
         ∃ errors, r.1 = Return (TemplateResponse "movies/movie_form.html" errors)
                   ∧ "rating" ∈ errors)
  ∧ (∀ (request : HttpRequest.t) (slug : string) (w : World)
       (form : MovieForm.t) (d : Decimal.t),
       HttpRequest.method request = POST →
       HttpRequest.POST request = MovieData form →
       MovieForm.rating form = Some d → is_10_1_or_minus_0_1 d →
       let r := MovieUpdateView request slug w in
       r.2 = w ∧
       ∀ user obj,
         session_user request (db w) = Some user →
         get (Movie_by_slug slug (db w)) = Return obj →
         Movie.created_by obj.2 = user.1 →
         ∃ errors, r.1 = Return (TemplateResponse "movies/movie_form.html" errors)
                   ∧ "rating" ∈ errors).
Proof.
  split_and!.
  - apply reachable_ratings_in_range.
  - intros slugify request w form d Hpost Hform Hd Hbad r. subst r.
    rewrite run_MovieCreateView, Hpost, (movie_form_POST _ _ Hform). cbv zeta.
    pose proof (MovieForm_errors_rating (db w) None form d Hd
                  (rating_validators_out_of_range d (named_ratings_out_of_range d Hbad)))
      as Hin.
    destruct (session_user request (db w)) as [user|]; [|done].
    destruct (MovieForm_errors (db w) None form) as [|e errors].
    { by apply elem_of_nil in Hin. }
    split; [done|]. intros _ _. by eexists.
  - intros request slug w form d Hpost Hform Hd Hbad r. subst r.
    destruct (MovieUpdateView_cases_post request slug w)
      as [Hsame|(user & obj & Huser & Hobj & Hown & _)].
    + split; [done|]. intros user obj Huser Hobj Hown.
      rewrite (run_MovieUpdateView _ _ _ _ _ Huser Hobj Hown Hpost),
        (movie_form_POST _ _ Hform). cbv zeta.
      pose proof (MovieForm_errors_rating (db w) (Some obj.2) form d Hd
                    (rating_validators_out_of_range d (named_ratings_out_of_range d Hbad)))
        as Hin.
      destruct (MovieForm_errors (db w) (Some obj.2) form) as [|e errors].
      { by apply elem_of_nil in Hin. }
      by eexists.
    + rewrite (run_MovieUpdateView _ _ _ _ _ Huser Hobj Hown Hpost),
        (movie_form_POST _ _ Hform). cbv zeta.
      pose proof (MovieForm_errors_rating (db w) (Some obj.2) form d Hd
                    (rating_validators_out_of_range d (named_ratings_out_of_range d Hbad)))
        as Hin.
      destruct (MovieForm_errors (db w) (Some obj.2) form) as [|e errors].
      { by apply elem_of_nil in Hin. }
      split; [done|]. intros _ _ _ _ _. by eexists.
Qed.

(** A movie rated 8.5 is stored in a reachable database; the same form with
    10.1 is sent back. *)
Lemma C6_rating_witness :
  ratings_in_range demo_submitted
  ∧ map_to_list (Movie.rating <$> movies demo_submitted) = [(1%N, decimal false [8; 5]%nat (-1))]
  ∧ MovieCreateView lower
      (demo_request POST (Some 1%N) (MovieData (demo_form (decimal false [1; 0; 1]%nat (-1)))))
      {| db := demo_with_category; _messages := [] |}
    = (Return (TemplateResponse "movies/movie_form.html" ["rating"]),
       {| db := demo_with_category; _messages := [] |}).
Proof.
  split_and!.
  - apply (proj1 C6_rating_within_bounds lower).
    eapply reachable_step; [eapply reachable_step; [eapply reachable_step|]|].
    + apply reachable_empty.
    + apply (step_User_save lower None alice {| db := empty_store; _messages := [] |}).
    + apply (step_admin_save_category lower 1%N dark_comedy).
    + apply (step_MovieCreateView lower
               (demo_request POST (Some 1%N)
                  (MovieData (demo_form (decimal false [8; 5]%nat (-1)))))
               {| db := demo_with_category; _messages := [] |}).
  - vm_compute. reflexivity.
  - vm_compute. reflexivity.
Defined.

(** ** Search *)




Lemma icontains_empty (field : string) : icontains field "" = true.
Proof. unfold icontains. simpl. by destruct (lower field). Qed.

Lemma remove_dups_NoDup {A} `{!EqDecision A} (l : list A) :
  NoDup l → remove_dups l = l.
Proof.
  induction 1 as [|x l Hx _ IH]; simpl; [done|].
  destruct (decide_rel _ x l); [done|]. by rewrite IH.
Qed.

Lemma filter_all {A} (P : A → Prop) `{!∀ x, Decision (P x)} (l : list A) :
  (∀ x, P x) → filter P l = l.
Proof.
  intros HP. induction l as [|x l IH]; [done|].
  rewrite filter_cons, decide_True by done. by rewrite IH.
Qed.





Lemma newest_first_total : Total newest_first.
Proof. intros a b. unfold newest_first. lia. Qed.



(** C10.  With [q] absent or empty the search returns every movie of the
    database: the result is the full movie list in its default ordering. *)
Theorem C10_empty_query_returns_all (request : HttpRequest.t) (s : Store) :
  HttpRequest.GET request !! "q" = None ∨ HttpRequest.GET request !! "q" = Some "" →
  SearchResultsView_get_queryset request s = Movie_objects_all s
  ∧ (∀ k m, movies s !! k = Some m → (k, m) ∈ SearchResultsView_get_queryset request s)
  ∧ length (SearchResultsView_get_queryset request s) = size (movies s).
Proof.
  intros Hq.
  assert (Hquery : default "" (HttpRequest.GET request !! "q") = "")
    by (by destruct Hq as [-> | ->]).
  assert (Hall : SearchResultsView_get_queryset request s = Movie_objects_all s).
  { unfold SearchResultsView_get_queryset, Movie_objects_all. cbv zeta. rewrite Hquery.
    f_equal. rewrite filter_all.
    - rewrite <- list_fmap_compose.
      rewrite (list_fmap_ext _ id) by done. rewrite list_fmap_id.
      apply remove_dups_NoDup, NoDup_objects.
    - intros jr. unfold search_Q. by rewrite icontains_empty. }
  split_and!; [done| |].
  - intros k m Hk. rewrite Hall. unfold Movie_objects_all.
    rewrite merge_sort_Permutation. by apply elem_of_objects.
  - rewrite Hall. unfold Movie_objects_all. rewrite merge_sort_Permutation.
    unfold objects. by rewrite length_map_to_list.
Qed.

(** A search without [q] lists the three movies, newest first. *)
Lemma C10_empty_query_witness :
  SearchResultsView_get_queryset (demo_request GET (Some 1%N) NoData) demo_store
  = [(3%N, inception); (2%N, fargo); (1%N, the_dark_knight)].
Proof.
  rewrite (proj1 (C10_empty_query_returns_all (demo_request GET (Some 1%N) NoData)
                    demo_store (or_introl eq_refl))).
  vm_compute. reflexivity.
Defined.

(** ** URL resolution *)

Lemma strip_prefix_all (l s : string) : strip_prefix l s = Some "" → s = l.
Proof.
  revert s. induction l as [|a l IH]; intros [|b s]; simpl; try done.
  destruct (decide (a = b)) as [->|]; [|done]. intros H. by rewrite (IH s H).
Qed.

Lemma match_route_literal (l s : string) (kwargs : list (string * Value)) :
  match_route [Lit l] s = Some kwargs → s = l.
Proof.
  simpl. destruct (strip_prefix l s) as [s'|] eqn:Hs; [|done]. simpl.
  destruct (decide (s' = "")) as [->|]; [|done]. intros _. by apply strip_prefix_all.
Qed.

Lemma resolve_in_cons (p : URLPattern) (patterns : list URLPattern) (s : string) :
  resolve_in (p :: patterns) s =
  match match_route (pieces p) s with
  | Some kwargs => Some (callback p, kwargs)
  | None => resolve_in patterns s
  end.
Proof. reflexivity. Qed.

(** C5.  The path /movie/add/ is not dispatched to the create view: the
    pattern [movie/<slug:slug>/] stands before [movie/add/] in [urlpatterns]
    and matches it with slug "add", so the request goes to the detail view;
    no path at all resolves to the create view. *)
Theorem C5_movie_add_resolves_to_detail :
  resolve "/movie/add/" = Some (views.MovieDetailView, [("slug", Str "add")])
  ∧ ∀ path_info kwargs, resolve path_info ≠ Some (views.MovieCreateView, kwargs).
Proof.
  split; [by vm_compute|].
  intros path_info kwargs H. unfold resolve in H.
  destruct (strip_prefix "/" path_info) as [s|]; [|done].
  unfold urlpatterns, path in H.
  repeat (rewrite resolve_in_cons in H; cbn [callback] in H;
          match type of H with
          | match ?t with _ => _ end = _ =>
              let E := fresh "E" in destruct t eqn:E; [try discriminate H|]
          end).
  - change (pieces _) with [Lit "movie/add/"] in E4.
    apply match_route_literal in E4 as ->. by vm_compute in E3.
  - done.
Qed.

(** ** Saving a user *)

Lemma run_User_save_existing (id : pk) (row old : User.t) (w : World) :
  users (db w) !! id = Some old →
  (∀ k u, users (db w) !! k = Some u → User.username u = User.username row → k = id) →
  profiles_of (db w) id = [] →
  User_save (Some id) row w =
  (Raise RelatedObjectDoesNotExist,
   {| db := set_users (insert id row) (db w); _messages := _messages w |}).
Proof.
  intros Hold Hname Hnone. unfold User_save. do 3 run_step.
  rewrite Hold. cbn [default from_option Datatypes.id].
  assert (Hfree : exists_ (qfilter (λ r : pk * User.t,
                    User.username r.2 = User.username row ∧ r.1 ≠ id)
                    (objects users) (db w)) = false).
  { unfold qfilter, objects. apply filter_exists_false.
    intros k u Hk [Hu Hne]. simpl in *. by apply Hne, (Hname k u). }
  rewrite Hfree. do 2 run_step.
  rewrite bool_decide_eq_true_2 by done. cbn [negb].
  unfold create_or_update_user_profile. run_step.
  unfold profiles_of in Hnone. unfold qfilter, objects in *.
  cbn [db profiles set_users]. by rewrite Hnone.
Qed.

Lemma run_User_save_new (row : User.t) (w : World) :
  username_free (User.username row) (db w) →
  profile_integrity (db w) →
  let k := next_pk (users (db w)) in
  let profile := {| Profile.user := k; Profile.bio := ""; Profile.avatar := None |} in
  User_save None row w =
  (Return k,
   {| db := set_profiles (insert (next_pk (profiles (db w))) profile)
              (set_users (insert k row) (db w));
      _messages := _messages w |}).
Proof.
  intros Hfree Hint k profile. unfold User_save. do 3 run_step.
  cbn [default from_option]. fold k.
  assert (Hnot : exists_ (qfilter (λ r : pk * User.t,
                    User.username r.2 = User.username row ∧ r.1 ≠ k)
                    (objects users) (db w)) = false).
  { unfold qfilter, objects. apply filter_exists_false.
    intros k' u Hk' [Hu _]. by apply (Hfree k' u). }
  rewrite Hnot. do 2 run_step. cbn [negb].
  unfold create_or_update_user_profile. run_step. cbn [db].
  assert (Hnone : exists_ (qfilter (λ r : pk * Profile.t, Profile.user r.2 = k)
                    (objects profiles) (set_users (insert k row) (db w))) = false).
  { unfold qfilter, objects. apply filter_exists_false.
    intros k' p Hk' Hp. simpl in *. destruct (Hint k' p Hk') as [u Hu].
    rewrite Hp in Hu. unfold k in Hu. by rewrite next_pk_fresh in Hu. }
  rewrite Hnone. by run_step.
Qed.

Lemma run_User_save_with_profile (id : pk) (row old : User.t) (w : World)
    (pid : pk) (profile : Profile.t) :
  users (db w) !! id = Some old →
  (∀ k u, users (db w) !! k = Some u → User.username u = User.username row → k = id) →
  profiles_of (db w) id = [(pid, profile)] →
  User_save (Some id) row w =
  (Return id, {| db := set_users (insert id row) (db w); _messages := _messages w |}).
Proof.
  intros Hold Hname Hone. unfold User_save. do 3 run_step.
  rewrite Hold. cbn [default from_option Datatypes.id].
  assert (Hfree : exists_ (qfilter (λ r : pk * User.t,
                    User.username r.2 = User.username row ∧ r.1 ≠ id)
                    (objects users) (db w)) = false).
  { unfold qfilter, objects. apply filter_exists_false.
    intros k u Hk [Hu Hne]. simpl in *. by apply Hne, (Hname k u). }
  rewrite Hfree. do 2 run_step.
  rewrite bool_decide_eq_true_2 by done. cbn [negb].
  unfold create_or_update_user_profile. run_step.
  unfold profiles_of in Hone. unfold qfilter, objects in *.
  cbn [db profiles set_users]. rewrite Hone. cbn [get]. run_prims.
  assert (Hpid : profiles (db w) !! pid = Some profile).
  { apply elem_of_map_to_list.
    assert ((pid, profile) ∈ [(pid, profile)]) as Hin by apply list_elem_of_here.
    rewrite <- Hone in Hin. by apply list_elem_of_filter in Hin as [_ ?]. }
  unfold mret, M_ret. do 2 f_equal. unfold set_profiles, set_users. cbn.
  by rewrite (insert_id _ _ _ Hpid).
Qed.

(** C4.  Creating a user creates exactly one profile for it, and saving an
    existing user that has a profile succeeds and leaves the profiles as they
    are; but saving an existing user that has no profile raises
    [RelatedObjectDoesNotExist]: [instance.profile] is read without a check.
    Such a user is reachable: alice registers and her profile is deleted from
    the admin site. *)
Theorem C4_save_without_profile_raises :
  (∀ (row : User.t) (w : World),
     username_free (User.username row) (db w) → profile_integrity (db w) →
     let r := User_save None row w in
     ∃ k, r.1 = Return k ∧ users (db w) !! k = None ∧ users (db r.2) !! k = Some row
          ∧ ∃ pid, profiles_of (db r.2) k
                   = [(pid, {| Profile.user := k; Profile.bio := ""; Profile.avatar := None |})])
  ∧ (∀ (id : pk) (row old : User.t) (w : World) (pid : pk) (profile : Profile.t),
       users (db w) !! id = Some old →
       (∀ k u, users (db w) !! k = Some u → User.username u = User.username row → k = id) →
       profiles_of (db w) id = [(pid, profile)] →
       let r := User_save (Some id) row w in
       r.1 = Return id ∧ profiles (db r.2) = profiles (db w))
  ∧ (∀ (id : pk) (row old : User.t) (w : World),
       users (db w) !! id = Some old →
       (∀ k u, users (db w) !! k = Some u → User.username u = User.username row → k = id) →
       profiles_of (db w) id = [] →
       (User_save (Some id) row w).1 = Raise RelatedObjectDoesNotExist)
  ∧ (∀ slugify, reachable slugify demo_orphaned)
  ∧ (User_save (Some 1%N) alice {| db := demo_orphaned; _messages := [] |}).1
    = Raise RelatedObjectDoesNotExist.
Proof.
  split_and!.
  - intros row w Hfree Hint r. subst r.
    rewrite (run_User_save_new row w Hfree Hint). cbv zeta. cbn [fst snd db].
    set (k := next_pk (users (db w))). set (pid := next_pk (profiles (db w))).
    exists k. split_and!; [done|apply next_pk_fresh|apply lookup_insert_eq|].
    exists pid. apply get_Return. unfold profiles_of, qfilter, objects.
    apply filter_get_unique.
    + cbn. apply lookup_insert_eq.
    + done.
    + intros k' p Hk' Hp. cbn in Hk', Hp.
      destruct (decide (k' = pid)) as [|Hne]; [done|].
      rewrite lookup_insert_ne in Hk' by done.
      destruct (Hint k' p Hk') as [u Hu]. rewrite Hp in Hu.
      unfold k in Hu. by rewrite next_pk_fresh in Hu.
  - intros id row old w pid profile Hold Hname Hone r. subst r.
    by rewrite (run_User_save_with_profile id row old w pid profile Hold Hname Hone).
  - intros id row old w Hold Hname Hnone.
    by rewrite (run_User_save_existing id row old w Hold Hname Hnone).
  - intros slugify. eapply reachable_step; [eapply reachable_step|].
    + apply reachable_empty.
    + apply (step_User_save slugify None alice {| db := empty_store; _messages := [] |}).
    + apply (step_admin_delete_profile slugify 1%N).
  - by vm_compute.
Qed.


(** * Properties of the rest of the application *)

(** ** Strings *)

Lemma append_cons (c : ascii) (a b : string) :
  String c a +:+ b = String c (a +:+ b).
Proof. reflexivity. Qed.

Lemma length_append (a b : string) :
  String.length (a +:+ b) = (String.length a + String.length b)%nat.
Proof. induction a as [|c a IH]; simpl; [done|]. by rewrite IH. Qed.

Lemma substring_0_split (n : nat) (s : string) :
  ∃ dropped, s = String.substring 0 n s +:+ dropped
             ∧ String.length (String.substring 0 n s) = Nat.min n (String.length s).
Proof.
  revert s. induction n as [|n IH]; intros s.
  - exists s. by destruct s.
  - destruct s as [|c s]; simpl.
    + by exists "".
    + destruct (IH s) as (dropped & Heq & Hlen). exists dropped.
      split; [by rewrite append_cons, <- Heq|by rewrite Hlen].
Qed.

(** ** [Movie.short_actors] *)

(** X1.  [short_actors(limit)] with [limit >= 0] returns the actors text
    unchanged when it has at most [limit] characters, and otherwise its first
    [limit] characters followed by "...": never more than [limit + 3]
    characters.  A text one or two characters over the limit is made longer,
    not shorter. *)
Theorem short_actors_truncates (movie : Movie.t) (limit : Z) :
  0 ≤ limit →
  let actors := Movie.actors movie in
  let out := Movie_short_actors movie limit in
  (Z.of_nat (String.length actors) ≤ limit → out = actors)
  ∧ (limit < Z.of_nat (String.length actors) →
       ∃ kept dropped,
         actors = kept +:+ dropped ∧ Z.of_nat (String.length kept) = limit
         ∧ out = kept +:+ "...")
  ∧ Z.of_nat (String.length out) ≤ limit + 3
  ∧ (limit < Z.of_nat (String.length actors) < limit + 3 →
       (String.length actors < String.length out)%nat).
Proof.
  intros Hlimit actors out. unfold out, Movie_short_actors. fold actors.
  destruct (Z.ltb_spec limit (Z.of_nat (String.length actors))) as [Hlong|Hshort].
  - unfold slice_to. rewrite (proj2 (Z.leb_le 0 limit)) by done.
    destruct (substring_0_split (Z.to_nat limit) actors) as (dropped & Heq & Hlen).
    assert (Hkept : Z.of_nat (String.length (String.substring 0 (Z.to_nat limit) actors)) = limit)
      by (rewrite Hlen; lia).
    split_and!.
    + lia.
    + intros _. by exists (String.substring 0 (Z.to_nat limit) actors), dropped.
    + rewrite length_append. simpl. lia.
    + intros Hnear. rewrite length_append. simpl. lia.
  - split_and!; [done|lia|lia|lia].
Qed.

Lemma short_actors_witness :
  ∃ kept dropped,
    Movie.actors the_dark_knight = kept +:+ dropped
    ∧ Z.of_nat (String.length kept) = 10
    ∧ Movie_short_actors the_dark_knight 10 = kept +:+ "...".
Proof.
  refine (proj1 (proj2 (short_actors_truncates the_dark_knight 10 _)) _).
  - lia.
  - by vm_compute.
Defined.

(** ** URL patterns: matching and building *)

Lemma append_nil_r (s : string) : s +:+ "" = s.
Proof. induction s as [|c s IH]; [done|]. by rewrite append_cons, IH. Qed.

Lemma append_assoc (a b c : string) : (a +:+ b) +:+ c = a +:+ (b +:+ c).
Proof. induction a as [|x a IH]; [done|]. by rewrite !append_cons, IH. Qed.

Lemma append_inj_l (p x y : string) : p +:+ x = p +:+ y → x = y.
Proof.
  induction p as [|c p IH]; [done|]. rewrite !append_cons. intros [= H]. by apply IH.
Qed.

Lemma strip_prefix_append (p s : string) : strip_prefix p (p +:+ s) = Some s.
Proof.
  induction p as [|a p IH]; [done|].
  rewrite append_cons. simpl. by rewrite decide_True.
Qed.

Lemma strip_prefix_self (p : string) : strip_prefix p p = Some "".
Proof. rewrite <- (append_nil_r p) at 2. apply strip_prefix_append. Qed.

Lemma strip_prefix_Some (p s rest : string) :
  strip_prefix p s = Some rest → s = p +:+ rest.
Proof.
  revert s. induction p as [|a p IH]; intros s; simpl.
  - by intros [= ->].
  - destruct s as [|b s]; [done|].
    destruct (decide (a = b)) as [->|]; [|done].
    intros H. by rewrite append_cons, <- (IH s H).
Qed.

Lemma bind_Some {A B} (x : A) (f : A → option B) : Some x ≫= f = f x.
Proof. reflexivity. Qed.

(** *** Integers as text *)

Lemma int_str (n : Z) : 0 ≤ n → int (str n) = Some n.
Proof.
  intros Hn. destruct n as [|p|p]; [done| |done].
  unfold int, str. simpl. rewrite NilZero.usu.
  - simpl. unfold Z.of_uint. by rewrite DecimalPos.Unsigned.of_to.
  - apply DecimalPos.Unsigned.to_uint_nonnil.
Qed.

Lemma string_of_uint_digits (d : Decimal.uint) :
  forallb is_digit (list_ascii_of_string (NilEmpty.string_of_uint d)) = true.
Proof. induction d; simpl; by rewrite ?IHd. Qed.

Lemma str_digits (n : Z) : 0 ≤ n → accepts int_converter (str n) = true.
Proof.
  intros Hn. unfold accepts. apply andb_true_iff. split.
  - apply bool_decide_eq_true. intros Hempty.
    pose proof (int_str n Hn) as Hint. by rewrite Hempty in Hint.
  - destruct n as [|p|p]; [done| |done]. unfold str. simpl.
    unfold NilZero.string_of_uint. destruct (Pos.to_uint p); try done;
      apply (string_of_uint_digits (_ _)).
Qed.



Lemma int_nonneg (text : string) (n : Z) : int text = Some n → 0 ≤ n.
Proof.
  unfold int. intros (u & _ & ->)%fmap_Some. unfold Z.of_uint. apply N2Z.is_nonneg.
Qed.


(** Writing a converted value and reading it again gives the value. *)
Lemma to_python_to_url (c : Converter) (text : string) (value : Value) :
  accepts c text = true → to_python c text = Some value →
  accepts c (to_url value) = true
  ∧ to_python c (to_url value) = Some value
  ∧ (c ≠ int_converter → to_url value = text).
Proof.
  intros Hacc Hvalue. destruct c; simpl in Hvalue.
  - injection Hvalue as <-. by split_and!.
  - injection Hvalue as <-. by split_and!.
  - apply fmap_Some in Hvalue as (n & Hn%int_nonneg & ->). simpl.
    split_and!; [by apply str_digits|by rewrite int_str|done].
Qed.


(** *** Percent-encoding *)

Lemma quote_append (a b : string) : quote (a +:+ b) = quote a +:+ quote b.
Proof.
  induction a as [|ch a IH]; [done|]. rewrite append_cons. simpl.
  destruct (quote_safe ch); by rewrite IH, ?append_cons.
Qed.

Lemma quote_plain (s : string) :
  forallb quote_safe (list_ascii_of_string s) = true → quote s = s.
Proof.
  induction s as [|ch s IH]; [done|]. simpl.
  intros [-> Hs]%andb_true_iff. by rewrite IH.
Qed.

(** Slugs and digits are written as they are. *)
Lemma in_class_quote_safe (c : Converter) (ch : ascii) :
  c ≠ str_converter → in_class c ch = true → quote_safe ch = true.
Proof.
  intros Hc. unfold quote_safe. destruct c; [|done|]; simpl.
  - rewrite !orb_true_iff, !bool_decide_eq_true.
    intros [[[Hl|Hd]| ->]| ->].
    + by do 4 left.
    + do 3 left. by right.
    + do 2 left. right. by repeat first [apply list_elem_of_here|apply list_elem_of_further].
    + do 2 left. right. by repeat first [apply list_elem_of_here|apply list_elem_of_further].
  - intros ->. by rewrite orb_true_r.
Qed.

Lemma accepts_quote_plain (c : Converter) (text : string) :
  c ≠ str_converter → accepts c text = true → quote text = text.
Proof.
  intros Hc [_ Hclass]%andb_true_iff. apply quote_plain.
  induction text as [|ch text IH]; [done|]. simpl in *.
  apply andb_true_iff in Hclass as [Hch Hclass].
  by rewrite (in_class_quote_safe c ch Hc Hch), IH.
Qed.

(** The path [reverse] answers with when nothing in it needs encoding. *)
Lemma reversed_path_plain (pre text post : string) :
  quote pre = pre → quote text = text → quote post = post →
  match pre with
  | String ch _ => ch ≠ "/"%char
  | EmptyString => False
  end →
  escape_leading_slashes (quote ("/" +:+ pre +:+ text +:+ post))
  = "/" +:+ pre +:+ text +:+ post.
Proof.
  intros Hpre Htext Hpost Hstart.
  rewrite !quote_append, Hpre, Htext, Hpost.
  destruct pre as [|ch pre]; [done|].
  change (quote "/") with "/". change ("/" +:+ String ch pre +:+ text +:+ post)
    with (String "/" (String ch (pre +:+ text +:+ post))).
  unfold escape_leading_slashes. rewrite decide_False; [done|]. by intros [_ ?].
Qed.

(** *** Matching *)

Lemma match_route_Lit (l : string) (ps : list Piece) (s : string) :
  match_route (Lit l :: ps) s = strip_prefix l s ≫= match_route ps.
Proof. reflexivity. Qed.

Lemma match_route_Param (c : Converter) (n : string) (ps : list Piece) (s : string) :
  match_route (Param c n :: ps) s = scan_param c n (match_route ps) "" s.
Proof. reflexivity. Qed.

Lemma scan_param_eq (c : Converter) (n : string)
    (k : string → option (list (string * Value))) (taken s : string) :
  scan_param c n k taken s =
  let stop :=
    if decide (taken = "") then None
    else kw ← k s; value ← to_python c taken; Some ((n, value) :: kw) in
  match s with
  | String ch s' =>
      if in_class c ch then
        match scan_param c n k (taken +:+ String ch "") s' with
        | Some kw => Some kw
        | None => stop
        end
      else stop
  | EmptyString => stop
  end.
Proof. by destruct s. Qed.

(** What a successful scan has taken: a run of the class, converted, then a
    rest that the remaining route matches. *)
Lemma scan_param_sound (c : Converter) (n : string)
    (k : string → option (list (string * Value))) (s taken : string)
    (kw : list (string * Value)) :
  scan_param c n k taken s = Some kw →
  ∃ arg rest kw' value,
    s = arg +:+ rest ∧ in_class_all c arg = true ∧ taken +:+ arg ≠ ""
    ∧ k rest = Some kw' ∧ to_python c (taken +:+ arg) = Some value
    ∧ kw = (n, value) :: kw'.
Proof.
  revert taken. induction s as [|ch s IH]; intros taken; rewrite scan_param_eq; cbv zeta.
  - destruct (decide (taken = "")) as [|Hne]; [done|].
    destruct (k "") as [kw'|] eqn:Hk; [|done]. simpl.
    destruct (to_python c taken) as [value|] eqn:Hv; [|done]. simpl. intros [= <-].
    exists "", "", kw', value. rewrite !append_nil_r. by split_and!.
  - assert (Hstop : (if decide (taken = "") then None
                     else kw0 ← k (String ch s); value ← to_python c taken;
                          Some ((n, value) :: kw0)) = Some kw →
              ∃ arg rest kw' value,
                String ch s = arg +:+ rest ∧ in_class_all c arg = true ∧ taken +:+ arg ≠ ""
                ∧ k rest = Some kw' ∧ to_python c (taken +:+ arg) = Some value
                ∧ kw = (n, value) :: kw').
    { destruct (decide (taken = "")) as [|Hne]; [done|].
      destruct (k (String ch s)) as [kw'|] eqn:Hk; [|done]. simpl.
      destruct (to_python c taken) as [value|] eqn:Hv; [|done]. simpl. intros [= <-].
      exists "", (String ch s), kw', value. rewrite !append_nil_r. by split_and!. }
    destruct (in_class c ch) eqn:Hch; [|done].
    destruct (scan_param c n k (taken +:+ String ch "") s) as [kw1|] eqn:Hscan; [|done].
    intros [= <-].
    destruct (IH _ Hscan) as (arg & rest & kw' & value & -> & Harg & Hne & Hk & Hv & ->).
    exists (String ch arg), rest, kw', value. rewrite append_assoc in *.
    split_and!; try done.
    unfold in_class_all in *. simpl. by rewrite Hch.
Qed.

(** A run of the class followed by a character outside it is taken whole. *)
Lemma scan_param_greedy (c : Converter) (n : string)
    (k : string → option (list (string * Value))) (arg rest taken : string)
    (kw : list (string * Value)) (value : Value) :
  in_class_all c arg = true →
  match rest with
  | String ch _ => in_class c ch = false
  | EmptyString => True
  end →
  taken +:+ arg ≠ "" →
  k rest = Some kw →
  to_python c (taken +:+ arg) = Some value →
  scan_param c n k taken (arg +:+ rest) = Some ((n, value) :: kw).
Proof.
  intros Harg Hrest Hne Hk Hv. revert taken Hne Hv.
  induction arg as [|ch arg IH]; intros taken Hne Hv.
  - rewrite append_nil_r in *. change ("" +:+ rest) with rest.
    rewrite scan_param_eq. cbv zeta. rewrite decide_False, Hk by done. simpl.
    rewrite Hv. simpl.
    destruct rest as [|ch rest]; [done|]. by rewrite Hrest.
  - rewrite append_cons, scan_param_eq. cbv zeta.
    unfold in_class_all in Harg. simpl in Harg. apply andb_true_iff in Harg as [Hch Harg].
    rewrite Hch, (IH Harg (taken +:+ String ch "")); [done| |];
      by rewrite append_assoc.
Qed.

Lemma accepts_spec (c : Converter) (arg : string) :
  accepts c arg = true ↔ arg ≠ "" ∧ in_class_all c arg = true.
Proof.
  unfold accepts, in_class_all. rewrite andb_true_iff, bool_decide_eq_true. done.
Qed.

Lemma match_route_literal_inv (l s : string) (kw : list (string * Value)) :
  match_route [Lit l] s = Some kw → s = l ∧ kw = [].
Proof.
  intros H. split; [by apply match_route_literal in H|].
  rewrite match_route_Lit in H. destruct (strip_prefix l s) as [s'|]; [|done].
  simpl in H. destruct (decide (s' = "")); [|done]. by injection H as <-.
Qed.

Lemma match_route_literal_self (l : string) : match_route [Lit l] l = Some [].
Proof. by rewrite match_route_Lit, strip_prefix_self. Qed.

(** A route with one parameter between two texts matches exactly the paths
    of that shape. *)
Lemma match_route_param_inv (pre : string) (c : Converter) (n post s : string)
    (kw : list (string * Value)) :
  match_route [Lit pre; Param c n; Lit post] s = Some kw →
  ∃ text value,
    accepts c text = true ∧ s = pre +:+ text +:+ post
    ∧ to_python c text = Some value ∧ kw = [(n, value)].
Proof.
  rewrite match_route_Lit. destruct (strip_prefix pre s) as [s'|] eqn:Hs; [|done].
  apply strip_prefix_Some in Hs as ->. rewrite bind_Some, match_route_Param.
  intros (text & rest & kw' & value & -> & Hclass & Hne & Hrest & Hv & ->)%scan_param_sound.
  apply match_route_literal_inv in Hrest as [-> ->].
  change ("" +:+ text) with text in *.
  exists text, value. split_and!; try done. by apply accepts_spec.
Qed.

Lemma match_route_param_literal (pre : string) (c : Converter) (n post : string)
    (text : string) (value : Value) :
  accepts c text = true → in_class c "/" = false → to_python c text = Some value →
  match_route [Lit pre; Param c n; Lit (String "/" post)] (pre +:+ text +:+ String "/" post)
  = Some [(n, value)].
Proof.
  intros [Hne Ha]%accepts_spec Hsep Hv.
  rewrite match_route_Lit, strip_prefix_append, bind_Some.
  rewrite match_route_Param.
  rewrite (scan_param_greedy c n _ text (String "/" post) "" [] value); try done.
  apply match_route_literal_self.
Qed.

(** Two texts free of a character agree when they are followed by it in the
    same string. *)
Lemma append_separator (c : Converter) (sep : ascii) (a b r1 r2 : string) :
  in_class c sep = false →
  in_class_all c a = true → in_class_all c b = true →
  a +:+ String sep r1 = b +:+ String sep r2 → a = b ∧ r1 = r2.
Proof.
  intros Hsep. revert b. unfold in_class_all.
  induction a as [|x a IH]; intros [|y b]; simpl; intros Ha Hb Heq.
  - by injection Heq.
  - rewrite append_cons in Heq. injection Heq as <- _.
    apply andb_true_iff in Hb as [Hy _]. congruence.
  - rewrite append_cons in Heq. injection Heq as -> _.
    apply andb_true_iff in Ha as [Hx _]. congruence.
  - rewrite !append_cons in Heq. injection Heq as -> Heq.
    apply andb_true_iff in Ha as [_ Ha]. apply andb_true_iff in Hb as [_ Hb].
    destruct (IH b Ha Hb Heq) as [-> ->]. done.
Qed.

(** A route with another ending after the parameter does not match. *)
Lemma match_route_other_suffix (pre : string) (c : Converter) (n post post' a : string) :
  in_class c "/" = false → in_class_all c a = true → post ≠ post' →
  match_route [Lit pre; Param c n; Lit (String "/" post')] (pre +:+ a +:+ String "/" post)
  = None.
Proof.
  intros Hsep Ha Hpost.
  destruct (match_route _ _) as [kw|] eqn:E; [|done].
  apply match_route_param_inv in E as (b & value & [_ Hb]%accepts_spec & E & _).
  apply append_inj_l in E.
  by destruct (append_separator c "/" a b post post' Hsep Ha Hb E) as [_ ?].
Qed.

(** Nor does a fixed route that has the same shape with another ending. *)
Lemma match_route_other_literal (pre : string) (c : Converter) (b post post' a : string) :
  in_class c "/" = false → in_class_all c a = true → in_class_all c b = true →
  post ≠ post' →
  match_route [Lit (pre +:+ b +:+ String "/" post')] (pre +:+ a +:+ String "/" post) = None.
Proof.
  intros Hsep Ha Hb Hpost.
  destruct (match_route _ _) as [kw|] eqn:E; [|done].
  apply match_route_literal in E. apply append_inj_l in E.
  by destruct (append_separator c "/" a b post post' Hsep Ha Hb E) as [_ ?].
Qed.

(** *** Building *)




Lemma build_param_accepted (pre : string) (c : Converter) (n post : string) (a : Value) :
  accepts c (to_url a) = true →
  build [Lit pre; Param c n; Lit post] [a] = Some (pre +:+ to_url a +:+ post).
Proof. intros Ha. simpl. rewrite Ha. simpl. by rewrite append_nil_r. Qed.

Lemma resolve_in_step (p : URLPattern) (patterns : list URLPattern) (s : string) :
  resolve_in (p :: patterns) s =
  match match_route (pieces p) s with
  | Some kwargs => Some (callback p, kwargs)
  | None => resolve_in patterns s
  end.
Proof. reflexivity. Qed.

Lemma reverse_in_step (p : URLPattern) (patterns : list URLPattern)
    (viewname : string) (args : list Value) :
  reverse_in (p :: patterns) viewname args =
  match (if decide (url_name p = viewname) then build (pieces p) args else None) with
  | Some url => Return (escape_leading_slashes (quote ("/" +:+ url)))
  | None => reverse_in patterns viewname args
  end.
Proof. reflexivity. Qed.

(** *** Resolving what was reversed *)

Ltac no_match a Ha :=
  first
    [ vm_compute; reflexivity
    | apply (match_route_other_suffix _ _ _ _ _ a); [done|exact Ha|discriminate]
    | apply (match_route_other_literal "movie/" slug_converter "add" _ "" a);
      [done|exact Ha|done|discriminate] ].

Ltac in_urlpatterns :=
  unfold urlpatterns, path;
  repeat first [apply list_elem_of_here | apply list_elem_of_further].

(** Resolving [/pre<text>post]: the patterns before the one of that shape
    do not match, and that one does. *)
Ltac resolve_steps text Ha Hacc Hv :=
  unfold resolve; rewrite strip_prefix_append; unfold urlpatterns, path;
  repeat (rewrite resolve_in_step;
          match goal with
          | |- context [match_route (pieces ?q) ?s] =>
              let ps := eval vm_compute in (pieces q) in
              change (pieces q) with ps;
              first
                [ let E := fresh "E" in
                  assert (E : match_route ps s = None) by no_match text Ha;
                  rewrite E; clear E
                | rewrite (match_route_param_literal _ _ _ _ text _ Hacc eq_refl Hv);
                  reflexivity ]
          end).



(** *** Reversing what was resolved *)

Lemma match_route_nil_inv (s : string) (kw : list (string * Value)) :
  match_route [] s = Some kw → s = "" ∧ kw = [].
Proof. simpl. destruct (decide (s = "")); [|done]. by intros [= <-]. Qed.

(** X2.  Whatever path the resolver accepts for a view other than the user
    listing, reversing that view's name with the values the view received
    gives a path that is routed to the same view with the same values: every
    value a view receives from the URL is one its converter writes as text it
    accepts.  For every such view but the comment deletion, whose key is read
    as an integer, the path is the requested one. *)
Theorem resolve_then_reverse (path_info : string) (view : views.t)
    (kwargs : list (string * Value)) :
  resolve path_info = Some (view, kwargs) →
  view ≠ views.UserMoviesView →
  ∃ p url, p ∈ urlpatterns ∧ callback p = view
    ∧ reverse (url_name p) kwargs.*2 = Return url
    ∧ resolve url = Some (view, kwargs)
    ∧ (view ≠ views.delete_comment → url = path_info).
Proof.
  intros H Hview. unfold resolve in H.
  destruct (strip_prefix "/" path_info) as [s|] eqn:Hs; [|done].
  apply strip_prefix_Some in Hs as ->.
  unfold urlpatterns, path in H.
  repeat (rewrite resolve_in_step in H; cbn [callback] in H;
          match type of H with
          | match match_route (pieces ?p) ?s with _ => _ end = _ =>
              let E := fresh "E" in
              let ps := eval vm_compute in (pieces p) in
              destruct (match_route (pieces p) s) eqn:E;
              [injection H as <- <-; exists p; change (pieces p) with ps in E;
               rename E into Hroute
              |]
          end); try done.
  all: try (apply match_route_nil_inv in Hroute as [-> ->]; exists "/"; split_and!;
            [in_urlpatterns|reflexivity|vm_compute; reflexivity
            |vm_compute; reflexivity|reflexivity]).
  all: try (apply match_route_literal_inv in Hroute as [-> ->];
            first
              [by eexists; split_and!;
                  [in_urlpatterns|reflexivity|vm_compute; reflexivity
                  |vm_compute; reflexivity|reflexivity]
              |exfalso;
               match goal with
               | E : match_route _ _ = None |- _ => vm_compute in E; discriminate E
               end]).
  all: apply match_route_param_inv in Hroute as (text & value & Hacc & -> & Hv & ->);
       destruct (to_python_to_url _ _ _ Hacc Hv) as (Hacc' & Hv' & Hsame);
       pose proof (proj1 (accepts_spec _ _) Hacc') as [_ Ha];
       clear -Hview Hacc' Hv' Hsame Ha;
       match goal with
       | |- context ["/" +:+ ?pre +:+ text +:+ ?post] =>
           exists ("/" +:+ pre +:+ to_url value +:+ post)
       end;
       split_and!; [in_urlpatterns|reflexivity| | | ].
  all: try (intros Hother; first [done|by rewrite Hsame by discriminate]).
  all: try resolve_steps (to_url value) Ha Hacc' Hv'.
  all: cbn [url_name]; unfold reverse, urlpatterns, path;
       repeat (rewrite reverse_in_step; cbn [url_name];
               first
                 [rewrite decide_False by discriminate
                 |rewrite decide_True by reflexivity;
                  match goal with
                  | |- context [build (pieces ?p) ?args] =>
                      let ps := eval vm_compute in (pieces p) in
                      change (build (pieces p) args) with (build ps [value]);
                      rewrite (build_param_accepted _ _ _ _ _ Hacc')
                  end]).
  all: f_equal; apply reversed_path_plain;
       [reflexivity|eapply accepts_quote_plain; [|exact Hacc']; discriminate
       |reflexivity|discriminate].
Qed.

Lemma resolve_then_reverse_witness :
  ∃ p url, p ∈ urlpatterns ∧ callback p = views.delete_comment
    ∧ reverse (url_name p) [Int 7] = Return url
    ∧ resolve url = Some (views.delete_comment, [("pk", Int 7)])
    ∧ (views.delete_comment ≠ views.delete_comment → url = "/comment/007/delete/").
Proof.
  apply (resolve_then_reverse "/comment/007/delete/" views.delete_comment
           [("pk", Int 7)]); [vm_compute; reflexivity|discriminate].
Defined.

(** *** The canonical URLs of the models *)

Lemma reverse_one_param (viewname : string) (c : Converter) (pre n post : string)
    (arg : Value) (p : URLPattern) (before after : list URLPattern) :
  urlpatterns = (before ++ p :: after)%list →
  Forall (λ q, url_name q ≠ viewname) before →
  url_name p = viewname →
  pieces p = [Lit pre; Param c n; Lit post] →
  Forall (λ q, url_name q ≠ viewname) after →
  reverse viewname [arg] =
  if accepts c (to_url arg)
  then Return (escape_leading_slashes (quote ("/" +:+ pre +:+ to_url arg +:+ post)))
  else Raise NoReverseMatch.
Proof.
  intros Hps Hbefore Hp Hpieces Hafter. unfold reverse. rewrite Hps. clear Hps.
  assert (Hrest : reverse_in after viewname [arg] = Raise NoReverseMatch).
  { induction Hafter as [|q after Hq _ IH]; [done|].
    by rewrite reverse_in_step, decide_False. }
  induction Hbefore as [|q before Hq _ IH]; simpl app.
  - rewrite reverse_in_step, decide_True, Hpieces by done.
    destruct (accepts c (to_url arg)) eqn:Hacc.
    + by rewrite (build_param_accepted _ _ _ _ _ Hacc).
    + simpl. by rewrite Hacc.
  - by rewrite reverse_in_step, decide_False.
Qed.

Lemma reverse_slug_route (viewname pre n post slug : string)
    (p : URLPattern) (before after : list URLPattern) :
  urlpatterns = (before ++ p :: after)%list →
  Forall (λ q, url_name q ≠ viewname) before →
  url_name p = viewname →
  pieces p = [Lit pre; Param slug_converter n; Lit post] →
  Forall (λ q, url_name q ≠ viewname) after →
  quote pre = pre → quote post = post →
  match pre with
  | String ch _ => ch ≠ "/"%char
  | EmptyString => False
  end →
  reverse viewname [Str slug] =
  if accepts slug_converter slug then Return ("/" +:+ pre +:+ slug +:+ post)
  else Raise NoReverseMatch.
Proof.
  intros Hps Hbefore Hp Hpieces Hafter Hpre Hpost Hstart.
  rewrite (reverse_one_param viewname slug_converter pre n post (Str slug) p before after)
    by done.
  simpl to_url. destruct (accepts slug_converter slug) eqn:Hacc; [|done].
  rewrite reversed_path_plain; try done.
  by apply (accepts_quote_plain slug_converter).
Qed.

Lemma reverse_movie_detail (slug : string) :
  reverse "movie_detail" [Str slug] =
  if accepts slug_converter slug then Return ("/movie/" +:+ slug +:+ "/")
  else Raise NoReverseMatch.
Proof.
  rewrite (reverse_slug_route "movie_detail" "movie/" "slug" "/" slug
             (path "movie/<slug:slug>/" views.MovieDetailView "movie_detail")
             (take 4 urlpatterns) (drop 5 urlpatterns)); try done.
  - repeat constructor; discriminate.
  - repeat constructor; discriminate.
Qed.

(** X4.  A movie's canonical URL exists exactly when its slug is non-empty
    and made of letters, digits, hyphens and underscores; it is then
    [/movie/<slug>/], and that path is routed to the detail view with the
    same slug.  For any other slug the reversal raises [NoReverseMatch]. *)
Theorem Movie_get_absolute_url_spec (movie : Movie.t) :
  let slug := Movie.slug movie in
  Movie_get_absolute_url movie =
    (if accepts slug_converter slug then Return ("/movie/" +:+ slug +:+ "/")
     else Raise NoReverseMatch)
  ∧ (accepts slug_converter slug = true →
     resolve ("/movie/" +:+ slug +:+ "/")
     = Some (views.MovieDetailView, [("slug", Str slug)])).
Proof.
  intros slug. split.
  - apply reverse_movie_detail.
  - intros Hacc. pose proof (proj1 (accepts_spec _ _) Hacc) as [_ Ha].
    change ("/movie/" +:+ slug +:+ "/") with ("/" +:+ "movie/" +:+ slug +:+ "/").
    assert (Hv : to_python slug_converter slug = Some (Str slug)) by done.
    resolve_steps slug Ha Hacc Hv.
Qed.

(** X5.  A category's canonical URL likewise: [/category/<slug>/] when the
    slug is a valid slug, routed to the category listing with that slug, and
    [NoReverseMatch] otherwise. *)
Theorem Category_get_absolute_url_spec (category : Category.t) :
  let slug := Category.slug category in
  Category_get_absolute_url category =
    (if accepts slug_converter slug then Return ("/category/" +:+ slug +:+ "/")
     else Raise NoReverseMatch)
  ∧ (accepts slug_converter slug = true →
     resolve ("/category/" +:+ slug +:+ "/")
     = Some (views.MoviesByCategoryView, [("slug", Str slug)])).
Proof.
  intros slug. split.
  - unfold Category_get_absolute_url. fold slug.
    rewrite (reverse_slug_route "movies_by_category" "category/" "slug" "/" slug
               (path "category/<slug:slug>/" views.MoviesByCategoryView "movies_by_category")
               (take 8 urlpatterns) (drop 9 urlpatterns)); try done.
    + repeat constructor; discriminate.
    + repeat constructor; discriminate.
  - intros Hacc. pose proof (proj1 (accepts_spec _ _) Hacc) as [_ Ha].
    change ("/category/" +:+ slug +:+ "/") with ("/" +:+ "category/" +:+ slug +:+ "/").
    assert (Hv : to_python slug_converter slug = Some (Str slug)) by done.
    resolve_steps slug Ha Hacc Hv.
Qed.

(** ** The function views, case by case *)

Lemma run_login_required (view : pk * User.t → M HttpResponse)
    (request : HttpRequest.t) (w : World) :
  login_required view request w =
  match session_user request (db w) with
  | Some user => view user w
  | None => (Return RedirectToLogin, w)
  end.
Proof.
  unfold login_required. rewrite run_bind, run_session_user.
  by destruct (session_user request (db w)).
Qed.

Lemma run_Comment_save (row : Comment.t) (w : World) :
  Comment_save row w =
  (Return (next_pk (comments (db w)), row),
   {| db := set_comments (insert (next_pk (comments (db w))) row) (db w);
      _messages := _messages w |}).
Proof. unfold Comment_save. do 2 run_step. reflexivity. Qed.

Lemma slug_unknown_get (slug : string) (s : Store) :
  slug_unknown slug s ↔ get (Movie_by_slug slug s) = Raise DoesNotExist.
Proof.
  unfold Movie_by_slug, qfilter, objects.
  rewrite (filter_get_DoesNotExist (λ r : pk * Movie.t, Movie.slug r.2 = slug)).
  reflexivity.
Qed.

(** Under unique slugs a slug lookup finds one movie or none. *)
Lemma slugs_unique_get (slug : string) (s : Store) :
  slugs_unique s →
  (∃ k m, movies s !! k = Some m ∧ Movie.slug m = slug
          ∧ get (Movie_by_slug slug s) = Return (k, m))
  ∨ slug_unknown slug s.
Proof.
  intros Hu. destruct (get (Movie_by_slug slug s)) as [[k m]|e] eqn:Hg.
  - left. exists k, m.
    apply (filter_get_Return (λ r : pk * Movie.t, Movie.slug r.2 = slug)) in Hg
      as (Hk & Hs & _). done.
  - right. unfold slug_unknown. intros k m Hk Hs.
    assert (get (Movie_by_slug slug s) = Return (k, m)) as Hg'; [|congruence].
    apply (filter_get_unique (λ r : pk * Movie.t, Movie.slug r.2 = slug)); [done|done|].
    intros k' m' Hk' Hs'. simpl in *. apply (Hu k' k m' m); congruence.
Qed.

Lemma run_add_comment (request : HttpRequest.t) (slug : string) (w : World) :
  add_comment request slug w =
  match session_user request (db w) with
  | None => (Return RedirectToLogin, w)
  | Some user =>
      match get (Movie_by_slug slug (db w)) with
      | Return movie =>
          match HttpRequest.method request with
          | POST =>
              if CommentForm_is_valid (comment_content request) then
                (redirect_to (Movie_get_absolute_url movie.2),
                 {| db := set_comments
                            (insert (next_pk (comments (db w)))
                               (new_comment request user.1 movie.1)) (db w);
                    _messages := _messages w ++ [(SUCCESS, "Comment posted.")] |})
              else
                (redirect_to (Movie_get_absolute_url movie.2),
                 {| db := db w;
                    _messages := _messages w ++ [(ERROR, "Error with your comment.")] |})
          | _ => (redirect_to (Movie_get_absolute_url movie.2), w)
          end
      | Raise DoesNotExist => (Raise Http404, w)
      | Raise e => (Raise e, w)
      end
  end.
Proof.
  unfold add_comment. rewrite run_login_required.
  destruct (session_user request (db w)) as [user|]; [|reflexivity].
  rewrite run_bind, run_get_object_or_404.
  destruct (get (Movie_by_slug slug (db w))) as [movie|[]]; try reflexivity.
  rewrite run_bind.
  destruct (HttpRequest.method request);
    try (unfold mret, M_ret; cbv beta iota; rewrite run_redirect; by destruct w).
  destruct (CommentForm_is_valid (comment_content request)).
  - rewrite run_bind, run_Comment_save. run_prims. by rewrite run_redirect.
  - run_prims. by rewrite run_redirect.
Qed.

(** X6.  A logged-in user's POST to the comment view of an existing movie
    stores exactly one new comment when the text is non-empty, at most 2000
    characters long and free of null characters: it gets a key no comment
    had, is by the requester, on the movie of the slug, stamped with the time
    of the request, and the comments already stored stay as they are.  Any
    other text stores nothing and queues the error message.  Users, movies
    and favorites are the same either way, and the answer is the redirect to
    the movie's page. *)
Theorem add_comment_stores_one (request : HttpRequest.t) (slug : string) (w : World)
    (user : pk * User.t) (movie : pk * Movie.t) :
  session_user request (db w) = Some user →
  get (Movie_by_slug slug (db w)) = Return movie →
  HttpRequest.method request = POST →
  let content := comment_content request in
  let r := add_comment request slug w in
  r.1 = redirect_to (Movie_get_absolute_url movie.2)
  ∧ (content ≠ "" ∧ (String.length content ≤ 2000)%nat
     ∧ Ascii.zero ∉ list_ascii_of_string content →
     ∃ k, comments (db w) !! k = None
          ∧ comments (db r.2) = <[k := new_comment request user.1 movie.1]> (comments (db w))
          ∧ size (comments (db r.2)) = S (size (comments (db w)))
          ∧ _messages r.2 = (_messages w ++ [(SUCCESS, "Comment posted.")])%list)
  ∧ (content = "" ∨ (2000 < String.length content)%nat
     ∨ Ascii.zero ∈ list_ascii_of_string content →
     db r.2 = db w
     ∧ _messages r.2 = (_messages w ++ [(ERROR, "Error with your comment.")])%list)
  ∧ users (db r.2) = users (db w) ∧ movies (db r.2) = movies (db w)
  ∧ favorites (db r.2) = favorites (db w).
Proof.
  intros Hu Hm Hpost content r. subst r. rewrite run_add_comment, Hu, Hm, Hpost.
  fold content. unfold CommentForm_is_valid, has_null.
  destruct (decide (content = "")) as [He|He].
  - rewrite bool_decide_eq_true_2 by done. simpl. split_and!; try done.
    by intros [? _].
  - rewrite bool_decide_eq_false_2 by done. simpl.
    destruct (Nat.leb_spec (String.length content) 2000) as [Hle|Hgt]; simpl.
    + destruct (decide (Ascii.zero ∈ list_ascii_of_string content)) as [Hz|Hz].
      * rewrite bool_decide_eq_true_2 by done. simpl. split_and!; try done.
        by intros (_ & _ & ?).
      * rewrite bool_decide_eq_false_2 by done. simpl. split_and!; try done.
        -- intros _. exists (next_pk (comments (db w))).
           pose proof (next_pk_fresh (comments (db w))) as Hfresh.
           split_and!; try done. by apply map_size_insert_None.
        -- intros [?|[?|?]]; [done|lia|done].
    + split_and!; try done. intros (_ & ? & _). lia.
Qed.

Lemma add_comment_stores_one_witness :
  ∃ k, comments demo_store !! k = None
       ∧ comments (db (add_comment (demo_request POST (Some 2%N) (CommentData "Superb."))
                         "fargo" demo_world).2)
         = <[k := new_comment (demo_request POST (Some 2%N) (CommentData "Superb.")) 2 2]>
             (comments demo_store).
Proof.
  destruct (add_comment_stores_one
              (demo_request POST (Some 2%N) (CommentData "Superb.")) "fargo" demo_world
              (2%N, bob) (2%N, fargo)) as (_ & H & _).
  - by vm_compute.
  - by vm_compute.
  - reflexivity.
  - destruct H as (k & Hk & Hc & _).
    + split_and!; [done|vm_compute; lia|].
      vm_compute. intros Hz. by repeat (apply elem_of_cons in Hz as [Hz|Hz]; [done|]);
        apply elem_of_nil in Hz.
    + by exists k.
Defined.

Lemma get_Movie_by_slug_Return (slug : string) (s : Store) (movie : pk * Movie.t) :
  get (Movie_by_slug slug s) = Return movie →
  movies s !! movie.1 = Some movie.2 ∧ Movie.slug movie.2 = slug.
Proof.
  destruct movie as [k m]. intros Hg.
  apply (filter_get_Return (λ r : pk * Movie.t, Movie.slug r.2 = slug)) in Hg
    as (Hk & Hs & _). done.
Qed.

(** X7.  Posting a comment and then deleting it, as the same user, gives the
    database back as it was. *)
Theorem add_then_delete_comment (request request' : HttpRequest.t) (slug : string)
    (w : World) (user : pk * User.t) (movie : pk * Movie.t) :
  session_user request (db w) = Some user →
  HttpRequest.user request' = HttpRequest.user request →
  get (Movie_by_slug slug (db w)) = Return movie →
  HttpRequest.method request = POST →
  CommentForm_is_valid (comment_content request) = true →
  let posted := (add_comment request slug w).2 in
  let id := next_pk (comments (db w)) in
  comments (db posted) !! id = Some (new_comment request user.1 movie.1)
  ∧ db (delete_comment request' id posted).2 = db w.
Proof.
  intros Hu Hsame Hm Hpost Hvalid posted id. subst posted.
  rewrite run_add_comment, Hu, Hm, Hpost, Hvalid. cbn [snd db].
  destruct user as [u usr]. apply session_user_Some in Hu as [Hu Husr].
  apply get_Movie_by_slug_Return in Hm as [Hm _].
  split; [apply lookup_insert_eq|].
  rewrite (run_delete_comment request' id _ (new_comment request u movie.1) u usr movie.2);
    cbn [db _messages]; try done.
  - rewrite decide_True by (by left). cbn [snd db].
    unfold Comment_delete, set_comments. cbn [comments users profiles categories movies favorites].
    rewrite delete_insert_id by apply next_pk_fresh. by destruct (db w).
  - congruence.
  - apply lookup_insert_eq.
Qed.

Lemma add_then_delete_comment_witness :
  db (delete_comment (demo_request GET (Some 2%N) NoData) (next_pk (comments demo_store))
        (add_comment (demo_request POST (Some 2%N) (CommentData "Superb."))
           "fargo" demo_world).2).2
  = demo_store.
Proof.
  refine (proj2 (add_then_delete_comment
                   (demo_request POST (Some 2%N) (CommentData "Superb."))
                   (demo_request GET (Some 2%N) NoData) "fargo" demo_world
                   (2%N, bob) (2%N, fargo) _ _ _ _ _));
    first [reflexivity | by vm_compute].
Defined.

(** X8.  Without a logged-in user (no session, or a session whose user row
    is gone) every view that can write answers with the redirect to the
    login page and leaves the database and the message queue untouched. *)
Theorem anonymous_is_sent_to_login (slugify : string → string)
    (request : HttpRequest.t) (w : World) :
  session_user request (db w) = None →
  MovieCreateView slugify request w = (Return RedirectToLogin, w)
  ∧ (∀ slug,
       MovieUpdateView request slug w = (Return RedirectToLogin, w)
       ∧ MovieDeleteView request slug w = (Return RedirectToLogin, w)
       ∧ add_comment request slug w = (Return RedirectToLogin, w)
       ∧ toggle_favorite request slug w = (Return RedirectToLogin, w))
  ∧ (∀ id, delete_comment request id w = (Return RedirectToLogin, w)).
Proof.
  intros Hanon. split_and!.
  - by rewrite run_MovieCreateView, Hanon.
  - intros slug. split_and!.
    + unfold MovieUpdateView. by rewrite run_owner_guard, Hanon.
    + unfold MovieDeleteView. by rewrite run_owner_guard, Hanon.
    + by rewrite run_add_comment, Hanon.
    + unfold toggle_favorite. by rewrite run_login_required, Hanon.
  - intros id. unfold delete_comment. by rewrite run_login_required, Hanon.
Qed.

Lemma anonymous_is_sent_to_login_witness :
  toggle_favorite (demo_request POST (Some 99%N) NoData) "fargo" demo_world
  = (Return RedirectToLogin, demo_world).
Proof.
  apply (anonymous_is_sent_to_login lower (demo_request POST (Some 99%N) NoData) demo_world).
  by vm_compute.
Defined.

(** X9.  For a logged-in user, a slug no movie has makes the update, delete,
    comment and favorite views raise [Http404], and so does the key of no
    comment in the comment deletion; nothing is written and no message is
    queued. *)
Theorem unknown_object_is_404 (request : HttpRequest.t) (w : World) :
  is_Some (session_user request (db w)) →
  (∀ slug, slug_unknown slug (db w) →
     MovieUpdateView request slug w = (Raise Http404, w)
     ∧ MovieDeleteView request slug w = (Raise Http404, w)
     ∧ add_comment request slug w = (Raise Http404, w)
     ∧ toggle_favorite request slug w = (Raise Http404, w))
  ∧ (∀ id, comments (db w) !! id = None →
     delete_comment request id w = (Raise Http404, w)).
Proof.
  intros [user Hu]. split.
  - intros slug Hslug%slug_unknown_get. split_and!.
    + unfold MovieUpdateView. by rewrite run_owner_guard, Hu, Hslug.
    + unfold MovieDeleteView. by rewrite run_owner_guard, Hu, Hslug.
    + by rewrite run_add_comment, Hu, Hslug.
    + unfold toggle_favorite.
      by rewrite run_login_required, Hu, run_bind, run_get_object_or_404, Hslug.
  - intros id Hid. unfold delete_comment.
    by rewrite run_login_required, Hu, run_bind, run_get_object_or_404_pk, Hid.
Qed.

Lemma unknown_object_is_404_witness :
  add_comment (demo_request POST (Some 1%N) (CommentData "Hello.")) "no-such-film" demo_world
  = (Raise Http404, demo_world).
Proof.
  apply (unknown_object_is_404 (demo_request POST (Some 1%N) (CommentData "Hello."))).
  - by exists (1%N, alice).
  - apply slug_unknown_get. by vm_compute.
Defined.

(** X10.  The comment deletion and the favorite toggle never look at the
    request method: a GET writes what a POST writes.  Only the session's user
    (and for the toggle the time of the request) matters. *)
Theorem delete_and_toggle_ignore_method (request request' : HttpRequest.t) (w : World) :
  HttpRequest.user request = HttpRequest.user request' →
  HttpRequest.now request = HttpRequest.now request' →
  (∀ id, delete_comment request id w = delete_comment request' id w)
  ∧ (∀ slug, toggle_favorite request slug w = toggle_favorite request' slug w).
Proof.
  intros Huser Hnow.
  assert (Hs : session_user request (db w) = session_user request' (db w)).
  { unfold session_user. by rewrite Huser. }
  split.
  - intros id. unfold delete_comment. by rewrite !run_login_required, Hs.
  - intros slug. unfold toggle_favorite. by rewrite !run_login_required, Hs, Hnow.
Qed.

Lemma delete_and_toggle_ignore_method_witness :
  comments (db (delete_comment (demo_request GET (Some 1%N) NoData) 1 demo_world).2) !! 1%N
  = None.
Proof.
  rewrite (proj1 (delete_and_toggle_ignore_method
                    (demo_request GET (Some 1%N) NoData)
                    (demo_request POST (Some 1%N) NoData) demo_world eq_refl eq_refl) 1%N).
  by vm_compute.
Defined.

(** ** The list views *)

Lemma run_MoviesByCategoryView_get_queryset (slug : string) (w : World) :
  MoviesByCategoryView_get_queryset slug w =
  match get (Category_by_slug slug (db w)) with
  | Return category =>
      (Return (merge_sort newest_first
                 (filter (λ r : pk * Movie.t, Movie.category r.2 = Some category.1)
                         (objects movies (db w)))), w)
  | Raise DoesNotExist => (Raise Http404, w)
  | Raise e => (Raise e, w)
  end.
Proof.
  unfold MoviesByCategoryView_get_queryset. rewrite run_bind, run_get_object_or_404.
  destruct (get (Category_by_slug slug (db w))) as [category|[]]; reflexivity.
Qed.

Lemma get_Category_by_slug (slug : string) (s : Store) (c : pk) (category : Category.t) :
  category_slugs_unique s →
  categories s !! c = Some category → Category.slug category = slug →
  get (Category_by_slug slug s) = Return (c, category).
Proof.
  intros Hu Hc Hs.
  apply (filter_get_unique (λ r : pk * Category.t, Category.slug r.2 = slug)); [done|done|].
  intros k' c' Hk' Hs'. simpl in *. apply (Hu k' c c' category); congruence.
Qed.

(** X11.  With category slugs unique, the category page of a stored
    category lists exactly the movies whose category is that one, each once
    and newest first, and reads only; the slug of no category raises
    [Http404]; and once the category is deleted its slug raises [Http404]
    too, while its former movies stay in the full listing. *)
Theorem category_page_lists_its_movies (w : World) :
  category_slugs_unique (db w) →
  (∀ c category, categories (db w) !! c = Some category →
     ∃ result,
       MoviesByCategoryView_get_queryset (Category.slug category) w = (Return result, w)
       ∧ (∀ k m, (k, m) ∈ result ↔
            movies (db w) !! k = Some m ∧ Movie.category m = Some c)
       ∧ NoDup result ∧ Sorted newest_first result
       ∧ (∀ w', db w' = Category_delete c (db w) →
            MoviesByCategoryView_get_queryset (Category.slug category) w' = (Raise Http404, w')
            ∧ ∀ r, r ∈ result → r.1 ∈ (Movie_objects_all (db w')).*1))
  ∧ (∀ slug, (∀ c category, categories (db w) !! c = Some category →
                            Category.slug category ≠ slug) →
     MoviesByCategoryView_get_queryset slug w = (Raise Http404, w)).
Proof.
  intros Hu. split.
  - intros c category Hc. eexists. rewrite run_MoviesByCategoryView_get_queryset.
    rewrite (get_Category_by_slug _ _ c category) by done. cbn [fst].
    split_and!; [reflexivity| | | |].
    + intros k m. rewrite merge_sort_Permutation, list_elem_of_filter, elem_of_objects.
      cbn [snd]. tauto.
    + rewrite merge_sort_Permutation. apply NoDup_filter, NoDup_objects.
    + apply Sorted_merge_sort, newest_first_total.
    + intros w' Hw'. split.
      * rewrite run_MoviesByCategoryView_get_queryset.
        assert (get (Category_by_slug (Category.slug category) (db w')) = Raise DoesNotExist)
          as ->; [|done].
        apply (filter_get_DoesNotExist
                 (λ r : pk * Category.t, Category.slug r.2 = Category.slug category)).
        intros k c' Hk Hs. rewrite Hw' in Hk. simpl in Hk, Hs.
        apply lookup_delete_Some in Hk as [Hne Hk].
        apply Hne. symmetry. by apply (Hu k c c' category).
      * intros [k m]. rewrite merge_sort_Permutation, list_elem_of_filter, elem_of_objects.
        intros [_ Hk]. cbn [fst]. unfold Movie_objects_all.
        rewrite merge_sort_Permutation. apply list_elem_of_fmap.
        rewrite Hw'. simpl.
        exists (k, if decide (Movie.category m = Some c)
                   then Movie.set_category None m else m).
        split; [done|]. apply elem_of_map_to_list. simpl.
        by rewrite lookup_fmap, Hk.
  - intros slug Hslug. rewrite run_MoviesByCategoryView_get_queryset.
    assert (get (Category_by_slug slug (db w)) = Raise DoesNotExist) as ->; [|done].
    apply (filter_get_DoesNotExist (λ r : pk * Category.t, Category.slug r.2 = slug)).
    intros k c Hk. by apply (Hslug k).
Qed.

Lemma demo_store_category_slugs_unique : category_slugs_unique demo_store.
Proof.
  intros k1 k2 c1 c2 H1 H2 _. simpl in H1, H2.
  apply lookup_singleton_Some in H1 as [<- _].
  by apply lookup_singleton_Some in H2 as [<- _].
Qed.

Lemma category_page_lists_its_movies_witness :
  ∃ result,
    MoviesByCategoryView_get_queryset "dark-comedy" demo_world = (Return result, demo_world)
    ∧ ∀ k m, (k, m) ∈ result ↔ movies demo_store !! k = Some m ∧ Movie.category m = Some 1%N.
Proof.
  destruct (proj1 (category_page_lists_its_movies demo_world
                     demo_store_category_slugs_unique)
              1%N dark_comedy eq_refl) as (result & Hrun & Hin & _).
  by exists result.
Defined.

(** X12.  The page of a user name lists exactly the movies whose creator is
    stored under that name, each once and newest first; a name no user has
    gives the empty list rather than an error; and with user names unique it
    is the list the user's own dashboard shows as their movies. *)
Theorem user_page_lists_creations (username : string) (s : Store) :
  let result := UserMoviesView_get_queryset username s in
  (∀ k m, (k, m) ∈ result ↔
     movies s !! k = Some m
     ∧ ∃ usr, users s !! Movie.created_by m = Some usr ∧ User.username usr = username)
  ∧ NoDup result ∧ Sorted newest_first result
  ∧ ((∀ k usr, users s !! k = Some usr → User.username usr ≠ username) → result = [])
  ∧ (usernames_unique s →
     ∀ u usr, users s !! u = Some usr → User.username usr = username →
       result = my_movies (DashboardView_get_context_data u s)).
Proof.
  intros result. subst result. unfold UserMoviesView_get_queryset.
  assert (Hin : ∀ k m,
    (k, m) ∈ filter (λ r : pk * Movie.t,
                       User.username <$> users s !! Movie.created_by r.2 = Some username)
                    (objects movies s) ↔
    movies s !! k = Some m
    ∧ ∃ usr, users s !! Movie.created_by m = Some usr ∧ User.username usr = username).
  { intros k m. rewrite list_elem_of_filter, elem_of_objects. cbn [snd].
    rewrite fmap_Some. split.
    - intros [(usr & Hu & ->) Hk]. eauto.
    - intros (Hk & usr & Hu & <-). eauto. }
  split_and!.
  - intros k m. by rewrite merge_sort_Permutation.
  - rewrite merge_sort_Permutation. apply NoDup_filter, NoDup_objects.
  - apply Sorted_merge_sort, newest_first_total.
  - intros Hnone.
    assert (filter (λ r : pk * Movie.t,
                      User.username <$> users s !! Movie.created_by r.2 = Some username)
                   (objects movies s) = []) as ->; [|done].
    apply elem_of_nil_inv. intros [k m] (_ & usr & Hu & Hname)%Hin. by apply (Hnone _ _ Hu).
  - intros Huniq u usr Hu Hname. cbn [my_movies DashboardView_get_context_data].
    f_equal. apply list_filter_iff. intros [k m]. cbn [snd].
    rewrite fmap_Some. split.
    + intros (usr' & Hu' & Hname'). apply (Huniq _ _ _ _ Hu' Hu). congruence.
    + intros ->. by exists usr.
Qed.

(** ** The dashboard *)

Lemma elem_of_dashboard_join (user : pk) (s : Store) (r : pk * Movie.t) :
  r ∈ (r ← objects movies s;
       f ← objects favorites s;
       if decide (Favorite.movie f.2 = r.1 ∧ Favorite.user f.2 = user) then [r] else []) ↔
  movies s !! r.1 = Some r.2 ∧ is_favorite s user r.1.
Proof.
  unfold is_favorite. rewrite elem_of_favorite_pairs, list_elem_of_bind. split.
  - intros (r' & (f & Hr & Hf)%list_elem_of_bind & Hr').
    destruct (decide _) as [[Hm Hu]|]; [|by apply elem_of_nil in Hr].
    apply list_elem_of_singleton in Hr as ->.
    destruct r' as [k m], f as [kf fav]. apply elem_of_objects in Hr', Hf.
    split; [done|]. by exists kf, fav.
  - intros [Hr (kf & fav & Hf & Hu & Hm)]. exists r. split.
    + apply list_elem_of_bind. exists (kf, fav). split; [|by apply elem_of_objects].
      rewrite decide_True by done. apply list_elem_of_here.
    + destruct r. by apply elem_of_objects.
Qed.

(** X13.  The dashboard of a user lists as their movies exactly the movies
    they created and as favorites exactly the stored movies they have a
    favorite row for, both newest first; with the (user, movie) pairs of the
    favorites unique, no favorite movie is listed twice. *)
Theorem dashboard_movies_and_favorites (user : pk) (s : Store) :
  let context := DashboardView_get_context_data user s in
  (∀ k m, (k, m) ∈ my_movies context ↔
     movies s !! k = Some m ∧ Movie.created_by m = user)
  ∧ (∀ k m, (k, m) ∈ dashboard_favorites context ↔
       movies s !! k = Some m ∧ is_favorite s user k)
  ∧ NoDup (my_movies context)
  ∧ Sorted newest_first (my_movies context)
  ∧ Sorted newest_first (dashboard_favorites context)
  ∧ (unique_together s → NoDup (dashboard_favorites context)).
Proof.
  intros context. subst context. cbn [my_movies dashboard_favorites DashboardView_get_context_data].
  split_and!.
  - intros k m. rewrite merge_sort_Permutation, list_elem_of_filter, elem_of_objects.
    cbn [snd]. tauto.
  - intros k m. rewrite merge_sort_Permutation. apply (elem_of_dashboard_join user s (k, m)).
  - rewrite merge_sort_Permutation. apply NoDup_filter, NoDup_objects.
  - apply Sorted_merge_sort, newest_first_total.
  - apply Sorted_merge_sort, newest_first_total.
  - intros Hunique. rewrite merge_sort_Permutation.
    assert (Hone : ∀ (r y : pk * Movie.t) (f : pk * Favorite.t),
              y ∈ (if decide (Favorite.movie f.2 = r.1 ∧ Favorite.user f.2 = user)
                   then [r] else []) →
              y = r ∧ Favorite.movie f.2 = r.1 ∧ Favorite.user f.2 = user).
    { intros r y f Hy. destruct (decide _) as [?|]; [|by apply elem_of_nil in Hy].
      by apply list_elem_of_singleton in Hy as ->. }
    apply NoDup_bind; [| |apply NoDup_objects].
    + intros r1 r2 y _ _ (f1 & Hy1 & _)%list_elem_of_bind (f2 & Hy2 & _)%list_elem_of_bind.
      apply Hone in Hy1 as [-> _]. by apply Hone in Hy2 as [-> _].
    + intros r _. apply NoDup_bind; [| |apply NoDup_objects].
      * intros [k1 f1] [k2 f2] y Hf1 Hf2 Hy1 Hy2.
        apply Hone in Hy1 as (_ & Hm1 & Hu1). apply Hone in Hy2 as (_ & Hm2 & Hu2).
        apply elem_of_objects in Hf1, Hf2. simpl in *.
        assert (k1 = k2) as -> by (apply (Hunique k1 k2 f1 f2); congruence).
        congruence.
      * intros f _. destruct (decide _); [apply NoDup_singleton|apply NoDup_nil_2].
Qed.

Lemma comment_newest_first_total : Total comment_newest_first.
Proof. intros a b. unfold comment_newest_first. lia. Qed.

Lemma comment_newest_first_transitive : Transitive comment_newest_first.
Proof. intros a b c. unfold comment_newest_first. lia. Qed.

(** X14.  The dashboard shows at most ten comments, all of them stored
    comments of the user, newest first; they are the newest ones: a comment
    of the user that is not shown is no newer than any that is; and a user
    with at most ten comments sees all of them. *)
Theorem dashboard_recent_comments (user : pk) (s : Store) :
  let shown := recent_comments (DashboardView_get_context_data user s) in
  let mine := filter (λ r : pk * Comment.t, Comment.user r.2 = user) (objects comments s) in
  (length shown ≤ 10)%nat
  ∧ length shown = Nat.min 10 (length mine)
  ∧ (∀ k c, (k, c) ∈ shown → comments s !! k = Some c ∧ Comment.user c = user)
  ∧ NoDup shown
  ∧ Sorted comment_newest_first shown
  ∧ (∀ a b, a ∈ shown → b ∈ mine → b ∉ shown →
       Comment.created_at b.2 ≤ Comment.created_at a.2)
  ∧ ((length mine ≤ 10)%nat → ∀ r, r ∈ mine → r ∈ shown).
Proof.
  intros shown mine. subst shown. cbn [recent_comments DashboardView_get_context_data].
  fold mine. set (sorted := merge_sort comment_newest_first mine).
  assert (Hperm : sorted ≡ₚ mine) by apply merge_sort_Permutation.
  assert (Hsorted : StronglySorted comment_newest_first sorted).
  { apply StronglySorted_merge_sort;
      [apply comment_newest_first_transitive|apply comment_newest_first_total]. }
  assert (Hnd : NoDup sorted).
  { rewrite Hperm. apply NoDup_filter, NoDup_objects. }
  rewrite <- (take_drop 10 sorted) in Hsorted, Hnd.
  split_and!.
  - rewrite length_take. lia.
  - by rewrite length_take, Hperm.
  - intros k c Hin%subseteq_take. rewrite Hperm in Hin.
    apply list_elem_of_filter in Hin as [Hu Hin]. by apply elem_of_objects in Hin.
  - by apply NoDup_app in Hnd as [? _].
  - apply StronglySorted_Sorted. by apply StronglySorted_app_1_l in Hsorted.
  - intros a b Ha Hb Hnot.
    assert (b ∈ drop 10 sorted) as Hdrop.
    { rewrite <- Hperm, <- (take_drop 10 sorted), elem_of_app in Hb. by destruct Hb. }
    apply (StronglySorted_app_1_elem_of _ _ _ a b Hsorted Ha Hdrop).
  - intros Hle r Hr. rewrite take_ge; [by rewrite Hperm|]. by rewrite Hperm.
Qed.

(** ** The favorite flag of the detail page *)

Lemma is_favorited_true (u m : pk) (s : Store) :
  MovieDetailView_is_favorited (Some u) m s = true ↔ is_favorite s u m.
Proof.
  unfold MovieDetailView_is_favorited, qfilter, objects, is_favorite.
  rewrite elem_of_favorite_pairs, <- not_false_iff_true.
  rewrite (filter_exists_false
             (λ r : pk * Favorite.t, Favorite.user r.2 = u ∧ Favorite.movie r.2 = m)).
  split.
  - intros Hex.
    destruct (decide (is_favorite s u m)) as [Hfav|Hnot].
    + by apply elem_of_favorite_pairs in Hfav.
    + destruct Hex. intros k f Hk [Hu Hm]. apply Hnot, elem_of_favorite_pairs. eauto.
  - intros (k & f & Hk & Hu & Hm) Hall. by apply (Hall k f Hk).
Qed.

(** X15.  The detail page flags a movie as favorited exactly when the
    viewer has a favorite row for it, never for an anonymous viewer; the
    flag agrees with the viewer's dashboard, and with the (user, movie) pairs
    unique one toggle by the viewer inverts it. *)
Theorem is_favorited_agrees (s : Store) (m : pk) (movie : Movie.t) :
  movies s !! m = Some movie →
  MovieDetailView_is_favorited None m s = false
  ∧ (∀ u, MovieDetailView_is_favorited (Some u) m s = true ↔
          (m, movie) ∈ dashboard_favorites (DashboardView_get_context_data u s))
  ∧ (∀ request w u usr,
       db w = s → unique_together s →
       HttpRequest.user request = Some u → users s !! u = Some usr →
       get (Movie_by_slug (Movie.slug movie) s) = Return (m, movie) →
       MovieDetailView_is_favorited (Some u) m
         (db (toggle_favorite request (Movie.slug movie) w).2)
       = negb (MovieDetailView_is_favorited (Some u) m s)).
Proof.
  intros Hm. split_and!.
  - reflexivity.
  - intros u. rewrite is_favorited_true.
    cbn [dashboard_favorites DashboardView_get_context_data].
    rewrite merge_sort_Permutation, (elem_of_dashboard_join u s (m, movie)). cbn [fst snd].
    tauto.
  - intros request w u usr <- Huniq Hu Husr Hget.
    rewrite (run_toggle_favorite request _ w u usr m movie Hu Husr Hget).
    destruct (decide (is_favorite (db w) u m)) as [Hfav|Hnot].
    + rewrite (proj2 (is_favorited_true u m (db w)) Hfav). simpl negb.
      destruct (get_favorite_present _ _ _ Huniq Hfav) as (k & f & Hk & Hfu & Hfm & ->).
      cbn [snd db]. apply not_true_is_false. rewrite is_favorited_true.
      unfold is_favorite.
      rewrite <- Hfu, <- Hfm, (favorite_pairs_delete _ k f);
        [rewrite elem_of_difference, elem_of_singleton; by intros [_ ?]|done|].
      intros k' f' Hk' [Hu' Hm']. assert (k' = k) as -> by (eapply Huniq; eauto).
      split; congruence.
    + assert (MovieDetailView_is_favorited (Some u) m (db w) = false) as ->.
      { apply not_true_is_false. by rewrite is_favorited_true. }
      rewrite (get_favorite_absent _ _ _ Hnot). cbn [snd db]. simpl negb.
      apply is_favorited_true. unfold is_favorite.
      rewrite favorite_pairs_insert by apply next_pk_fresh.
      by apply elem_of_union_r, elem_of_singleton.
Qed.

Lemma is_favorited_agrees_witness :
  MovieDetailView_is_favorited (Some 2%N) 3
    (db (toggle_favorite (demo_request POST (Some 2%N) NoData) "inception" demo_world).2)
  = negb (MovieDetailView_is_favorited (Some 2%N) 3 demo_store).
Proof.
  refine (proj2 (proj2 (is_favorited_agrees demo_store 3 inception eq_refl))
            (demo_request POST (Some 2%N) NoData) demo_world 2%N bob eq_refl
            demo_store_unique_together eq_refl eq_refl _).
  by vm_compute.
Defined.

(** ** Creating and updating a movie *)

Lemma construct_instance_Some (form : MovieForm.t) (slug old_poster : string)
    (created_by : pk) (created_at updated_at : DateTime) (instance : Movie.t) :
  construct_instance form slug old_poster created_by created_at updated_at = Some instance →
  Movie.title instance = MovieForm.title form
  ∧ Movie.slug instance = slug
  ∧ Movie.created_by instance = created_by
  ∧ Movie.created_at instance = created_at
  ∧ Movie.updated_at instance = updated_at
  ∧ MovieForm.category form = Movie.category instance.
Proof.
  unfold construct_instance.
  destruct (MovieForm.release_date form); [|done].
  destruct (MovieForm.rating form); [|done].
  destruct (MovieForm.category form); [|done].
  destruct (MovieForm.trailer_url form); [|done].
  simpl. by intros [= <-].
Qed.

Lemma MovieForm_valid_instance (s : Store) (old : option Movie.t) (form : MovieForm.t)
    (slug old_poster : string) (created_by : pk) (created_at updated_at : DateTime) :
  MovieForm_errors s old form = [] →
  is_Some (construct_instance form slug old_poster created_by created_at updated_at).
Proof.
  unfold MovieForm_errors, construct_instance. intros H.
  do 3 apply app_eq_nil in H as [_ H].
  apply app_eq_nil in H as [Hdate H]. apply app_eq_nil in H as [_ H].
  apply app_eq_nil in H as [Hrating H]. apply app_eq_nil in H as [Hcategory Hurl].
  destruct (MovieForm.release_date form); [|done].
  destruct (MovieForm.rating form); [|done].
  destruct (MovieForm.category form); [|done].
  destruct (MovieForm.trailer_url form); [|done].
  by eexists.
Qed.

Lemma slug_taken_false (id : option pk) (slug : string) (s : Store) :
  slug_taken id slug s = false ↔
  ∀ k m, movies s !! k = Some m → Movie.slug m = slug → Some k = id.
Proof.
  unfold slug_taken, qfilter, objects.
  rewrite (filter_exists_false (λ r : pk * Movie.t, Movie.slug r.2 = slug ∧ Some r.1 ≠ id)).
  split.
  - intros H k m Hk Hs. destruct (decide (Some k = id)) as [|Hne]; [done|].
    destruct (H k m Hk). by split.
  - intros H k m Hk [Hs Hne]. apply Hne. by apply (H k m).
Qed.

Lemma substring_length_le (n : nat) (s : string) :
  (String.length (String.substring 0 n s) ≤ n)%nat.
Proof.
  revert s. induction n as [|n IH]; intros [|c s]; simpl; try lia.
  specialize (IH s). lia.
Qed.

(** The possible effects of a submitted movie form. *)
Lemma MovieCreateView_cases (slugify : string → string) (request : HttpRequest.t)
    (w : World) :
  let r := MovieCreateView slugify request w in
  let slug := String.substring 0 280 (slugify (MovieForm.title (movie_form request))) in
  r.2 = w
  ∨ ∃ user instance,
      session_user request (db w) = Some user
      ∧ HttpRequest.method request = POST
      ∧ MovieForm_errors (db w) None (movie_form request) = []
      ∧ construct_instance (movie_form request) slug "" user.1
          (HttpRequest.now request) (HttpRequest.now request) = Some instance
      ∧ _messages r.2 = (_messages w ++ [(SUCCESS, "Movie added successfully.")])%list
      ∧ ((slug_taken None slug (db w) = true
          ∧ r.1 = Raise IntegrityError ∧ db r.2 = db w)
         ∨ (slug_taken None slug (db w) = false
            ∧ r.1 = redirect_to (Movie_get_absolute_url instance)
            ∧ db r.2 = set_movies (insert (next_pk (movies (db w))) instance) (db w))).
Proof.
  intros r slug. subst r. rewrite run_MovieCreateView.
  destruct (session_user request (db w)) as [user|]; [|by left].
  destruct (HttpRequest.method request); try by left. cbv zeta.
  destruct (MovieForm_errors (db w) None (movie_form request)) as [|e errors] eqn:Herr;
    [|by left].
  fold slug.
  destruct (construct_instance _ _ _ _ _ _) as [instance|] eqn:Hinst; [|by left].
  right. exists user, instance.
  pose proof (construct_instance_Some _ _ _ _ _ _ _ Hinst) as (_ & -> & _).
  destruct (slug_taken None slug (db w)); split_and!; try done; [by left|by right].
Qed.

(** X16.  The create view writes at most one row: either the database is as
    before, or one movie is added under a key no movie had, created by the
    logged-in user, titled as submitted, stamped with the time of the
    request, with the slug made from the title cut to 280 characters, a slug
    no stored movie had.  The view raises [IntegrityError] exactly when a
    logged-in user posts a form without errors whose slug a stored movie
    already has; nothing is then written, yet the success message is already
    queued. *)
Theorem MovieCreateView_effect (slugify : string → string) (request : HttpRequest.t)
    (w : World) :
  let r := MovieCreateView slugify request w in
  let title := MovieForm.title (movie_form request) in
  let slug := String.substring 0 280 (slugify title) in
  (String.length slug ≤ 280)%nat
  ∧ (db r.2 = db w
     ∨ ∃ user k movie,
         session_user request (db w) = Some user
         ∧ movies (db w) !! k = None
         ∧ db r.2 = set_movies (insert k movie) (db w)
         ∧ Movie.created_by movie = user.1
         ∧ Movie.title movie = title
         ∧ Movie.slug movie = slug
         ∧ Movie.created_at movie = HttpRequest.now request
         ∧ slug_unknown slug (db w)
         ∧ r.1 = redirect_to (Movie_get_absolute_url movie))
  ∧ (r.1 = Raise IntegrityError ↔
     is_Some (session_user request (db w))
     ∧ HttpRequest.method request = POST
     ∧ MovieForm_errors (db w) None (movie_form request) = []
     ∧ ¬ slug_unknown slug (db w))
  ∧ (r.1 = Raise IntegrityError →
     db r.2 = db w
     ∧ _messages r.2 = (_messages w ++ [(SUCCESS, "Movie added successfully.")])%list).
Proof.
  intros r title slug. split; [apply substring_length_le|].
  subst r. rewrite run_MovieCreateView.
  destruct (session_user request (db w)) as [user|];
    [|split_and!; [by left|split; [done|by intros ([? ?] & _)]|done]].
  destruct (HttpRequest.method request);
    try (split_and!; [by left|split; [done|by intros (_ & ? & _)]|done]).
  cbv zeta.
  destruct (MovieForm_errors (db w) None (movie_form request)) as [|e errors] eqn:Herr;
    [|split_and!; [by left|split; [done|by intros (_ & _ & ? & _)]|done]].
  fold title slug.
  destruct (MovieForm_valid_instance (db w) None (movie_form request) slug "" user.1
              (HttpRequest.now request) (HttpRequest.now request) Herr) as [instance Hinst].
  rewrite Hinst.
  pose proof (construct_instance_Some _ _ _ _ _ _ _ Hinst) as (Ht & Hs & Hby & Hat & _).
  rewrite Hs.
  assert (Hredirect : redirect_to (Movie_get_absolute_url instance)
                      ≠ Raise IntegrityError).
  { unfold Movie_get_absolute_url. rewrite reverse_movie_detail.
    by destruct (accepts slug_converter (Movie.slug instance)). }
  destruct (slug_taken None slug (db w)) eqn:Htaken.
  - split_and!; [by left| |done].
    split; [intros _|done]. split_and!; [by eexists|done|done|].
    intros Hunknown. apply not_false_iff_true in Htaken. apply Htaken.
    apply slug_taken_false. intros k m Hk Hslug. by destruct (Hunknown k m Hk).
  - assert (Hunknown : slug_unknown slug (db w)).
    { intros k m Hk Hslug.
      by pose proof (proj1 (slug_taken_false None slug (db w)) Htaken k m Hk Hslug). }
    split_and!; [right| |done].
    + exists user, (next_pk (movies (db w))), instance.
      split_and!; try done. apply next_pk_fresh.
    + split; [done|]. by intros (_ & _ & _ & ?).
Qed.

(** X17.  A valid form whose title gives a slug the URL pattern does not
    accept (the empty slug of a title without letters or digits, when no
    movie has it yet) is saved all the same: the movie is stored and the
    view then fails with [NoReverseMatch] instead of redirecting. *)
Theorem unroutable_slug_is_saved (slugify : string → string) (request : HttpRequest.t)
    (w : World) (user : pk * User.t) (instance : Movie.t) :
  let slug := String.substring 0 280 (slugify (MovieForm.title (movie_form request))) in
  session_user request (db w) = Some user →
  HttpRequest.method request = POST →
  MovieForm_errors (db w) None (movie_form request) = [] →
  construct_instance (movie_form request) slug "" user.1
    (HttpRequest.now request) (HttpRequest.now request) = Some instance →
  slug_unknown slug (db w) →
  accepts slug_converter slug = false →
  let r := MovieCreateView slugify request w in
  r.1 = Raise NoReverseMatch
  ∧ movies (db r.2) !! next_pk (movies (db w)) = Some instance
  ∧ Movie.slug instance = slug.
Proof.
  intros slug Hu Hpost Herr Hinst Hunknown Hacc r. subst r.
  rewrite run_MovieCreateView, Hu, Hpost. cbv zeta. rewrite Herr. fold slug. rewrite Hinst.
  pose proof (construct_instance_Some _ _ _ _ _ _ _ Hinst) as (_ & Hs & _).
  assert (slug_taken None (Movie.slug instance) (db w) = false) as ->.
  { apply slug_taken_false. intros k m Hk Hslug. rewrite Hs in Hslug.
    by destruct (Hunknown k m Hk). }
  cbn [fst snd db]. split_and!; [|apply lookup_insert_eq|done].
  unfold Movie_get_absolute_url. by rewrite reverse_movie_detail, Hs, Hacc.
Qed.

Lemma unroutable_slug_is_saved_witness :
  let request := demo_request POST (Some 1%N) (MovieData symbols_form) in
  let r := MovieCreateView (λ _, "") request demo_world in
  r.1 = Raise NoReverseMatch ∧ is_Some (movies (db r.2) !! next_pk (movies demo_store)).
Proof.
  intros request r.
  edestruct (unroutable_slug_is_saved (λ _, "") request demo_world (1%N, alice))
    as (Hr & Hrow & _).
  - by vm_compute.
  - reflexivity.
  - by vm_compute.
  - cbv. reflexivity.
  - apply slug_unknown_get. by vm_compute.
  - by vm_compute.
  - split; [exact Hr|]. by eexists.
Defined.

Lemma get_Raise {A} (rows : list A) (e : Exception) :
  get rows = Raise e → e = DoesNotExist ∨ e = MultipleObjectsReturned.
Proof. destruct rows as [|a [|b rows]]; simpl; intros [= <-]; auto. Qed.

(** The possible effects of the update view. *)
Lemma MovieUpdateView_cases (request : HttpRequest.t) (slug : string) (w : World) :
  let r := MovieUpdateView request slug w in
  (r.2 = w ∧ r.1 ≠ Raise IntegrityError)
  ∨ ∃ user obj instance,
      session_user request (db w) = Some user
      ∧ get (Movie_by_slug slug (db w)) = Return obj
      ∧ Movie.created_by obj.2 = user.1
      ∧ MovieForm_errors (db w) (Some obj.2) (movie_form request) = []
      ∧ construct_instance (movie_form request) (Movie.slug obj.2) (Movie.poster obj.2)
          (Movie.created_by obj.2) (Movie.created_at obj.2) (HttpRequest.now request)
        = Some instance
      ∧ ((slug_taken (Some obj.1) (Movie.slug obj.2) (db w) = true
          ∧ r.1 = Raise IntegrityError ∧ db r.2 = db w)
         ∨ (slug_taken (Some obj.1) (Movie.slug obj.2) (db w) = false
            ∧ r.1 = redirect_to (Movie_get_absolute_url instance)
            ∧ db r.2 = set_movies (insert obj.1 instance) (db w))).
Proof.
  intros r. subst r.
  destruct (session_user request (db w)) as [user|] eqn:Hu;
    [|left; unfold MovieUpdateView; by rewrite run_owner_guard, Hu].
  destruct (get (Movie_by_slug slug (db w))) as [obj|e] eqn:Hobj;
    [|left; unfold MovieUpdateView; rewrite run_owner_guard, Hu, Hobj;
      by destruct (get_Raise _ _ Hobj) as [-> | ->]].
  destruct (decide (Movie.created_by obj.2 = user.1)) as [Hown|Hne];
    [|left; unfold MovieUpdateView;
      by rewrite run_owner_guard, Hu, Hobj, bool_decide_eq_false_2 by done].
  rewrite (run_MovieUpdateView_owner _ _ _ _ _ Hu Hobj Hown).
  destruct (HttpRequest.method request); try by left.
  rewrite (run_MovieUpdateView_post _ _ _ _ _ Hobj). cbv zeta.
  destruct (MovieForm_errors (db w) (Some obj.2) (movie_form request)) as [|e errors] eqn:Herr;
    [|by left].
  destruct (construct_instance _ _ _ _ _ _) as [instance|] eqn:Hinst; [|by left].
  right. exists user, obj, instance.
  pose proof (construct_instance_Some _ _ _ _ _ _ _ Hinst) as (_ & -> & _).
  destruct (slug_taken _ _ _); split_and!; try done; [by left|by right].
Qed.

(** X18.  With movie slugs unique the update view never fails on the slug;
    it rewrites at most the one movie the slug names, and only for its
    creator: the row keeps its key, slug, creator and creation time, takes
    the time of the request as its update time, and no movie is added or
    removed. *)
Theorem MovieUpdateView_keeps_identity (request : HttpRequest.t) (slug : string)
    (w : World) :
  slugs_unique (db w) →
  let r := MovieUpdateView request slug w in
  r.1 ≠ Raise IntegrityError
  ∧ r.1 ≠ Raise MultipleObjectsReturned
  ∧ (db r.2 = db w
     ∨ ∃ user k old new,
         session_user request (db w) = Some user
         ∧ movies (db w) !! k = Some old
         ∧ Movie.slug old = slug ∧ Movie.created_by old = user.1
         ∧ db r.2 = set_movies (insert k new) (db w)
         ∧ Movie.slug new = slug
         ∧ Movie.created_by new = Movie.created_by old
         ∧ Movie.created_at new = Movie.created_at old
         ∧ Movie.updated_at new = HttpRequest.now request)
  ∧ dom (movies (db r.2)) = dom (movies (db w)).
Proof.
  intros Huniq r.
  assert (Hmulti : r.1 ≠ Raise MultipleObjectsReturned).
  { subst r.
    destruct (session_user request (db w)) as [user|] eqn:Hu;
      [|unfold MovieUpdateView; by rewrite run_owner_guard, Hu].
    destruct (slugs_unique_get slug (db w) Huniq) as [(k & m & _ & _ & Hg)|Hnone];
      [|apply slug_unknown_get in Hnone; unfold MovieUpdateView;
        by rewrite run_owner_guard, Hu, Hnone].
    destruct (decide (Movie.created_by m = user.1)) as [Hown|Hne];
      [|unfold MovieUpdateView;
        by rewrite run_owner_guard, Hu, Hg, bool_decide_eq_false_2 by done].
    rewrite (run_MovieUpdateView_owner _ _ _ user (k, m) Hu Hg Hown).
    destruct (HttpRequest.method request); try done.
    rewrite (run_MovieUpdateView_post _ _ _ _ (k, m) Hg). cbv zeta.
    destruct (MovieForm_errors _ _ _); [|done].
    destruct (construct_instance _ _ _ _ _ _) as [instance|]; [|done].
    destruct (slug_taken _ _ _); [done|]. cbn [fst].
    unfold Movie_get_absolute_url. rewrite reverse_movie_detail.
    by destruct (accepts _ _). }
  destruct (MovieUpdateView_cases request slug w)
    as [[Hw Hr]|(user & [k old] & new & Hu & Hobj & Hown & Herr & Hinst & Hsave)];
    subst r.
  - rewrite Hw. split_and!; try done. by left.
  - pose proof (get_Movie_by_slug_Return _ _ _ Hobj) as [Hk Hslug]. cbn [fst snd] in *.
    pose proof (construct_instance_Some _ _ _ _ _ _ _ Hinst) as (_ & Hs & Hby & Hat & Hup & _).
    assert (Hfree : slug_taken (Some k) (Movie.slug old) (db w) = false).
    { apply slug_taken_false. intros k' m' Hk' Hs'. f_equal.
      apply (Huniq k' k m' old); congruence. }
    destruct Hsave as [(Htaken & _)|(_ & Hr & Hdb)]; [congruence|].
    split_and!; try done.
    + rewrite Hr. unfold Movie_get_absolute_url. rewrite reverse_movie_detail.
      by destruct (accepts _ _).
    + right. exists user, k, old, new. split_and!; try done; congruence.
    + rewrite Hdb. cbn [movies set_movies]. rewrite dom_insert_L.
      apply elem_of_dom_2 in Hk. by apply subseteq_union_1_L, singleton_subseteq_l.
Qed.

Lemma demo_store_slugs_unique : slugs_unique demo_store.
Proof.
  intros k1 k2 m1 m2 H1%elem_of_map_to_list H2%elem_of_map_to_list Hs.
  let l := eval vm_compute in (map_to_list (movies demo_store)) in
  change (map_to_list (movies demo_store)) with l in H1, H2.
  repeat (apply elem_of_cons in H1 as [[= -> ->]|H1]);
    repeat (apply elem_of_cons in H2 as [[= -> ->]|H2]);
    try done; by apply elem_of_nil in H1 || by apply elem_of_nil in H2.
Qed.

Lemma MovieUpdateView_keeps_identity_witness :
  dom (movies (db (MovieUpdateView
                     (demo_request POST (Some 1%N)
                        (MovieData (demo_form (decimal false [9; 0]%nat (-1)))))
                     "fargo" demo_world).2))
  = dom (movies demo_store).
Proof.
  apply (MovieUpdateView_keeps_identity
           (demo_request POST (Some 1%N) (MovieData (demo_form (decimal false [9; 0]%nat (-1)))))
           "fargo" demo_world demo_store_slugs_unique).
Defined.

(** ** Unique slugs *)

Lemma slugs_unique_subseteq (s s' : Store) :
  movies s' ⊆ movies s → slugs_unique s → slugs_unique s'.
Proof.
  intros Hsub Hu k1 k2 m1 m2 H1 H2. apply (Hu k1 k2 m1 m2); by eapply lookup_weaken.
Qed.

Lemma slugs_unique_insert (s : Store) (id : option pk) (row : Movie.t) :
  slug_taken id (Movie.slug row) s = false →
  slugs_unique s →
  slugs_unique (set_movies (insert (default (next_pk (movies s)) id) row) s).
Proof.
  intros Hfree Hu k1 k2 m1 m2 H1 H2 Hs. simpl in H1, H2.
  assert (Hk : ∀ k' m', movies s !! k' = Some m' → Movie.slug m' = Movie.slug row →
                        k' = default (next_pk (movies s)) id).
  { intros k' m' Hk' Hs'.
    by pose proof (proj1 (slug_taken_false _ _ _) Hfree k' m' Hk' Hs') as <-. }
  apply lookup_insert_Some in H1 as [[<- <-]|[Hne1 H1]];
    apply lookup_insert_Some in H2 as [[<- <-]|[Hne2 H2]]; try done.
  - symmetry. by apply (Hk k2 m2).
  - by apply (Hk k1 m1).
  - by apply (Hu k1 k2 m1 m2).
Qed.

Lemma slugs_unique_Category_delete (s : Store) (id : pk) :
  slugs_unique s → slugs_unique (Category_delete id s).
Proof.
  intros Hu k1 k2 m1 m2 H1 H2 Hs. simpl in H1, H2. rewrite lookup_fmap in H1, H2.
  destruct (movies s !! k1) as [m1'|] eqn:Hk1; [|done].
  destruct (movies s !! k2) as [m2'|] eqn:Hk2; [|done].
  simpl in H1, H2. injection H1 as <-. injection H2 as <-.
  apply (Hu k1 k2 m1' m2' Hk1 Hk2).
  by destruct (decide (Movie.category m1' = Some id)), (decide (Movie.category m2' = Some id)).
Qed.

(** X19.  The uniqueness of movie slugs is kept by every view that writes,
    by saving a user and by every deletion; and while it holds a slug lookup
    finds one movie or none, never several. *)
Theorem slugs_stay_unique (slugify : string → string) (request : HttpRequest.t) :
  preserves slugs_unique (MovieCreateView slugify request)
  ∧ (∀ slug,
       preserves slugs_unique (MovieUpdateView request slug)
       ∧ preserves slugs_unique (MovieDeleteView request slug)
       ∧ preserves slugs_unique (add_comment request slug)
       ∧ preserves slugs_unique (toggle_favorite request slug))
  ∧ (∀ id, preserves slugs_unique (delete_comment request id))
  ∧ (∀ id row, preserves slugs_unique (User_save id row))
  ∧ (∀ id s, slugs_unique s →
       slugs_unique (Category_delete id s)
       ∧ slugs_unique (Movie_delete id s)
       ∧ slugs_unique (User_delete id s))
  ∧ (∀ slug s, slugs_unique s →
       get (Movie_by_slug slug s) ≠ Raise MultipleObjectsReturned).
Proof.
  split_and!.
  - intros w HP.
    destruct (MovieCreateView_cases slugify request w)
      as [->|(user & instance & _ & _ & _ & Hinst & _ & Hsave)]; [done|].
    pose proof (construct_instance_Some _ _ _ _ _ _ _ Hinst) as (_ & Hs & _).
    destruct Hsave as [(_ & _ & ->)|(Hfree & _ & ->)]; [done|].
    rewrite <- Hs in Hfree. by apply (slugs_unique_insert _ None).
  - intros slug. split_and!.
    + intros w HP.
      destruct (MovieUpdateView_cases request slug w)
        as [[-> _]|(user & obj & instance & _ & _ & _ & _ & Hinst & Hsave)]; [done|].
      pose proof (construct_instance_Some _ _ _ _ _ _ _ Hinst) as (_ & Hs & _).
      destruct Hsave as [(_ & _ & ->)|(Hfree & _ & ->)]; [done|].
      rewrite <- Hs in Hfree. by apply (slugs_unique_insert _ (Some obj.1)).
    + unfold MovieDeleteView. preserves_view;
        intros s; apply slugs_unique_subseteq; simpl; apply delete_subseteq.
    + unfold add_comment. preserves_view. intros s. by apply slugs_unique_subseteq.
    + unfold toggle_favorite. preserves_view; intros s; by apply slugs_unique_subseteq.
  - intros id. unfold delete_comment. preserves_view.
    intros s. by apply slugs_unique_subseteq.
  - intros id row. unfold User_save. preserves_view;
      intros s; by apply slugs_unique_subseteq.
  - intros id s Hu. split_and!.
    + by apply slugs_unique_Category_delete.
    + revert Hu. apply slugs_unique_subseteq. simpl. apply delete_subseteq.
    + revert Hu. apply slugs_unique_subseteq. simpl. apply map_filter_subseteq.
  - intros slug s Hu.
    destruct (slugs_unique_get slug s Hu) as [(k & m & _ & _ & ->)|Hnone]; [done|].
    apply slug_unknown_get in Hnone. by rewrite Hnone.
Qed.

(** ** Foreign keys *)

Lemma integrity_insert_comment (s : Store) (k : pk) (c : Comment.t) :
  is_Some (movies s !! Comment.movie c) → is_Some (users s !! Comment.user c) →
  referential_integrity s → referential_integrity (set_comments (insert k c) s).
Proof.
  intros Hm Hu (Hp & Hmv & Hc & Hf). split_and!; try done.
  intros k' c' Hk'. simpl in Hk'.
  apply lookup_insert_Some in Hk' as [[_ <-]|[_ Hk']]; [done|by apply (Hc k')].
Qed.

Lemma integrity_insert_favorite (s : Store) (k : pk) (f : Favorite.t) :
  is_Some (users s !! Favorite.user f) → is_Some (movies s !! Favorite.movie f) →
  referential_integrity s → referential_integrity (set_favorites (insert k f) s).
Proof.
  intros Hu Hm (Hp & Hmv & Hc & Hf). split_and!; try done.
  intros k' f' Hk'. simpl in Hk'.
  apply lookup_insert_Some in Hk' as [[_ <-]|[_ Hk']]; [done|by apply (Hf k')].
Qed.

Lemma integrity_delete_comment (s : Store) (k : pk) :
  referential_integrity s → referential_integrity (Comment_delete k s).
Proof.
  intros (Hp & Hmv & Hc & Hf). split_and!; try done.
  intros k' c' Hk'. simpl in Hk'. apply lookup_delete_Some in Hk' as [_ Hk'].
  by apply (Hc k').
Qed.

Lemma integrity_delete_favorite (s : Store) (k : pk) :
  referential_integrity s → referential_integrity (Favorite_delete k s).
Proof.
  intros (Hp & Hmv & Hc & Hf). split_and!; try done.
  intros k' f' Hk'. simpl in Hk'. apply lookup_delete_Some in Hk' as [_ Hk'].
  by apply (Hf k').
Qed.

Lemma integrity_insert_movie (s : Store) (k : pk) (row : Movie.t) :
  is_Some (users s !! Movie.created_by row) →
  (∀ c, Movie.category row = Some c → is_Some (categories s !! c)) →
  referential_integrity s → referential_integrity (set_movies (insert k row) s).
Proof.
  intros Hu Hcat (Hp & Hmv & Hc & Hf). split_and!; try done.
  - intros k' m' Hk'. simpl in Hk'.
    apply lookup_insert_Some in Hk' as [[_ <-]|[_ Hk']]; [done|by apply (Hmv k')].
  - intros k' c' Hk'. destruct (Hc k' c' Hk') as [Hm ?]. split; [|done].
    simpl. apply lookup_insert_is_Some'. by right.
  - intros k' f' Hk'. destruct (Hf k' f' Hk') as [? Hm]. split; [done|].
    simpl. apply lookup_insert_is_Some'. by right.
Qed.

Lemma integrity_insert_user (s : Store) (k : pk) (row : User.t) :
  referential_integrity s → referential_integrity (set_users (insert k row) s).
Proof.
  intros (Hp & Hmv & Hc & Hf).
  assert (Hkeep : ∀ u, is_Some (users s !! u) → is_Some (<[k:=row]> (users s) !! u)).
  { intros u Hu. apply lookup_insert_is_Some'. by right. }
  split_and!.
  - intros k' p Hk'. apply Hkeep, (Hp k' p Hk').
  - intros k' m Hk'. destruct (Hmv k' m Hk') as [Hu Hcat]. split; [by apply Hkeep|done].
  - intros k' c Hk'. destruct (Hc k' c Hk') as [Hm Hu]. split; [done|by apply Hkeep].
  - intros k' f Hk'. destruct (Hf k' f Hk') as [Hu Hm]. split; [by apply Hkeep|done].
Qed.

Lemma integrity_insert_profile (s : Store) (k : pk) (p : Profile.t) :
  is_Some (users s !! Profile.user p) →
  referential_integrity s → referential_integrity (set_profiles (insert k p) s).
Proof.
  intros Hu (Hp & Hmv & Hc & Hf). split_and!; try done.
  intros k' p' Hk'. simpl in Hk'.
  apply lookup_insert_Some in Hk' as [[_ <-]|[_ Hk']]; [done|by apply (Hp k')].
Qed.

Lemma integrity_Movie_delete (s : Store) (id : pk) :
  referential_integrity s → referential_integrity (Movie_delete id s).
Proof.
  intros (Hp & Hmv & Hc & Hf). split_and!; try done.
  - intros k m Hk. simpl in Hk. apply lookup_delete_Some in Hk as [_ Hk]. by apply (Hmv k).
  - intros k c Hk. simpl in Hk. apply map_lookup_filter_Some in Hk as [Hk Hne].
    destruct (Hc k c Hk) as [Hm Hu]. split; [|done].
    simpl. rewrite lookup_delete_ne; [done|]. by intros ->.
  - intros k f Hk. simpl in Hk. apply map_lookup_filter_Some in Hk as [Hk Hne].
    destruct (Hf k f Hk) as [Hu Hm]. split; [done|].
    simpl. rewrite lookup_delete_ne; [done|]. by intros ->.
Qed.

Lemma integrity_Category_delete (s : Store) (id : pk) :
  referential_integrity s → referential_integrity (Category_delete id s).
Proof.
  intros (Hp & Hmv & Hc & Hf).
  assert (Hkeep : ∀ k, is_Some (movies s !! k) →
            is_Some (movies (Category_delete id s) !! k)).
  { intros k [m Hk]. simpl. rewrite lookup_fmap, Hk. by eexists. }
  split_and!; try done.
  - intros k m Hk. simpl in Hk. rewrite lookup_fmap in Hk.
    destruct (movies s !! k) as [m0|] eqn:Hk0; [|done]. simpl in Hk. injection Hk as <-.
    destruct (Hmv k m0 Hk0) as [Hu Hcat].
    destruct (decide (Movie.category m0 = Some id)) as [Heq|Hne]; simpl.
    + split; [done|]. intros c. discriminate.
    + split; [done|]. intros c Hcm. rewrite lookup_delete_ne by congruence. by apply Hcat.
  - intros k c Hk. destruct (Hc k c Hk) as [Hm Hu]. split; [by apply Hkeep|done].
  - intros k f Hk. destruct (Hf k f Hk) as [Hu Hm]. split; [done|by apply Hkeep].
Qed.

Lemma integrity_User_delete (s : Store) (id : pk) :
  referential_integrity s → referential_integrity (User_delete id s).
Proof.
  intros (Hp & Hmv & Hc & Hf).
  assert (Husers : ∀ u, u ≠ id → is_Some (users s !! u) →
            is_Some (users (User_delete id s) !! u)).
  { intros u Hne Hu. simpl. by rewrite lookup_delete_ne. }
  assert (Hmovies : ∀ k, is_Some (movies s !! k) →
            Movie.created_by <$> movies s !! k ≠ Some id →
            is_Some (movies (User_delete id s) !! k)).
  { intros k [m Hk] Hne. exists m. simpl. apply map_lookup_filter_Some.
    split; [done|]. simpl. intros Hby. apply Hne. by rewrite Hk, <- Hby. }
  split_and!.
  - intros k p Hk. simpl in Hk. apply map_lookup_filter_Some in Hk as [Hk Hne].
    apply Husers; [done|]. by apply (Hp k).
  - intros k m Hk. simpl in Hk. apply map_lookup_filter_Some in Hk as [Hk Hne].
    destruct (Hmv k m Hk) as [Hu Hcat]. split; [by apply Husers|done].
  - intros k c Hk. simpl in Hk. apply map_lookup_filter_Some in Hk as [Hk [Hne Hm]].
    destruct (Hc k c Hk) as [Hmovie Hu]. split; [by apply Hmovies|by apply Husers].
  - intros k f Hk. simpl in Hk. apply map_lookup_filter_Some in Hk as [Hk [Hne Hm]].
    destruct (Hf k f Hk) as [Hu Hmovie]. split; [by apply Husers|by apply Hmovies].
Qed.

Lemma MovieForm_valid_category (s : Store) (instance : option Movie.t)
    (form : MovieForm.t) :
  MovieForm_errors s instance form = [] →
  ∃ c, MovieForm.category form = Some c ∧ is_Some (categories s !! c).
Proof.
  intros Hno.
  assert (Hnot : "category" ∉ MovieForm_errors s instance form).
  { rewrite Hno. apply not_elem_of_nil. }
  unfold MovieForm_errors in Hnot. rewrite !elem_of_app in Hnot.
  destruct (MovieForm.category form) as [c|].
  - exists c. split; [done|].
    destruct (decide (is_Some (categories s !! c))) as [|Hne]; [done|].
    destruct Hnot. do 6 right. left.
    rewrite bool_decide_eq_false_2 by done. apply list_elem_of_here.
  - destruct Hnot. do 6 right. left. apply list_elem_of_here.
Qed.

Lemma toggle_favorite_cases (request : HttpRequest.t) (slug : string) (w : World) :
  let r := toggle_favorite request slug w in
  db r.2 = db w
  ∨ (∃ k, db r.2 = Favorite_delete k (db w))
  ∨ ∃ k user movie,
      session_user request (db w) = Some user
      ∧ get (Movie_by_slug slug (db w)) = Return movie
      ∧ db r.2 = set_favorites
                   (insert k {| Favorite.user := user.1; Favorite.movie := movie.1;
                                Favorite.created_at := HttpRequest.now request |}) (db w).
Proof.
  intros r. subst r.
  destruct (session_user request (db w)) as [[u usr]|] eqn:Hu;
    [|left; unfold toggle_favorite; by rewrite run_login_required, Hu].
  destruct (get (Movie_by_slug slug (db w))) as [[mid movie]|e] eqn:Hm.
  - pose proof (proj1 (session_user_Some _ _ _ _) Hu) as [Hu1 Hu2].
    rewrite (run_toggle_favorite request slug w u usr mid movie Hu1 Hu2 Hm).
    destruct (get (filter _ _)) as [fav|[]]; try by left.
    + right. left. by exists fav.1.
    + right. right. by exists (next_pk (favorites (db w))), (u, usr), (mid, movie).
  - left. unfold toggle_favorite.
    rewrite run_login_required, Hu, run_bind, run_get_object_or_404, Hm. by destruct e.
Qed.

Lemma integrity_create_or_update_user_profile (instance : pk) (created : bool) (w : World) :
  is_Some (users (db w) !! instance) →
  referential_integrity (db w) →
  referential_integrity (db (create_or_update_user_profile instance created w).2).
Proof.
  intros Hu Hint. unfold create_or_update_user_profile. destruct created.
  - run_step. destruct (exists_ _); [done|]. run_step. run_prims. cbn [snd db].
    by apply integrity_insert_profile.
  - run_step. unfold qfilter, objects.
    destruct (get _) as [[k profile]|e] eqn:Hg; [|by destruct e].
    apply (filter_get_Return (λ r : pk * Profile.t, Profile.user r.2 = instance))
      in Hg as (_ & Hp & _).
    run_prims. cbn [snd db]. apply integrity_insert_profile; [|done].
    simpl in Hp. by rewrite Hp.
Qed.

Lemma integrity_User_save (id : option pk) (row : User.t) :
  preserves referential_integrity (User_save id row).
Proof.
  intros w Hint. unfold User_save. do 3 run_step.
  destruct (exists_ _); [done|]. run_step.
  set (k := default (next_pk (users (db w))) id).
  set (w1 := {| db := set_users (insert k row) (db w); _messages := _messages w |}).
  rewrite run_bind.
  pose proof (integrity_create_or_update_user_profile k
                (negb match id with
                      | Some k0 => bool_decide (is_Some (users (db w) !! k0))
                      | None => false
                      end) w1) as Hprofile.
  destruct (create_or_update_user_profile k _ w1) as [[[]|e] w2]; simpl in *.
  - apply Hprofile; [apply lookup_insert_is_Some'; by left|by apply integrity_insert_user].
  - apply Hprofile; [apply lookup_insert_is_Some'; by left|by apply integrity_insert_user].
Qed.

(** X20.  Every view that writes, the saving of a user, and every deletion
    keep the foreign keys valid: profiles, movies, comments and favorites
    name stored users, comments and favorites name stored movies, and a
    movie's category, when it has one, is stored. *)
Theorem foreign_keys_stay_valid (slugify : string → string) (request : HttpRequest.t) :
  preserves referential_integrity (MovieCreateView slugify request)
  ∧ (∀ slug,
       preserves referential_integrity (MovieUpdateView request slug)
       ∧ preserves referential_integrity (MovieDeleteView request slug)
       ∧ preserves referential_integrity (add_comment request slug)
       ∧ preserves referential_integrity (toggle_favorite request slug))
  ∧ (∀ id, preserves referential_integrity (delete_comment request id))
  ∧ (∀ id row, preserves referential_integrity (User_save id row))
  ∧ (∀ id s, referential_integrity s →
       referential_integrity (Category_delete id s)
       ∧ referential_integrity (Movie_delete id s)
       ∧ referential_integrity (User_delete id s)
       ∧ referential_integrity (Comment_delete id s)
       ∧ referential_integrity (Favorite_delete id s)).
Proof.
  split_and!.
  - intros w HP.
    destruct (MovieCreateView_cases slugify request w)
      as [->|(user & instance & Hu & _ & Herr & Hinst & _ & Hsave)]; [done|].
    destruct Hsave as [(_ & _ & ->)|(_ & _ & ->)]; [done|].
    pose proof (construct_instance_Some _ _ _ _ _ _ _ Hinst) as (_ & _ & Hby & _ & _ & Hcat).
    destruct (MovieForm_valid_category _ _ _ Herr) as (c & Hc & Hstored).
    destruct user as [u usr]. apply session_user_Some in Hu as [_ Hu].
    apply integrity_insert_movie; [rewrite Hby; by eexists| |done].
    intros c' Hc'. congruence.
  - intros slug. split_and!.
    + intros w HP.
      destruct (MovieUpdateView_cases request slug w)
        as [[-> _]|(user & obj & instance & _ & Hobj & _ & Herr & Hinst & Hsave)]; [done|].
      destruct Hsave as [(_ & _ & ->)|(_ & _ & ->)]; [done|].
      pose proof (construct_instance_Some _ _ _ _ _ _ _ Hinst) as (_ & _ & Hby & _ & _ & Hcat).
      destruct (MovieForm_valid_category _ _ _ Herr) as (c & Hc & Hstored).
      apply get_Movie_by_slug_Return in Hobj as [Hobj _].
      apply integrity_insert_movie; [|intros c' Hc'; congruence|done].
      rewrite Hby. by apply (proj1 (proj2 HP) obj.1).
    + unfold MovieDeleteView. preserves_view; intros s; apply integrity_Movie_delete.
    + intros w HP. rewrite run_add_comment.
      destruct (session_user request (db w)) as [[u usr]|] eqn:Hu; [|done].
      destruct (get (Movie_by_slug slug (db w))) as [movie|e] eqn:Hm; [|by destruct e].
      destruct (HttpRequest.method request); try done.
      destruct (CommentForm_is_valid _); [|done]. cbn [snd db].
      apply get_Movie_by_slug_Return in Hm as [Hm _].
      apply session_user_Some in Hu as [_ Hu].
      apply integrity_insert_comment; [by eexists|by eexists|done].
    + intros w HP.
      destruct (toggle_favorite_cases request slug w)
        as [->|[[k ->]|(k & [u usr] & movie & Hu & Hm & ->)]]; [done| |].
      * by apply integrity_delete_favorite.
      * apply get_Movie_by_slug_Return in Hm as [Hm _].
        apply session_user_Some in Hu as [_ Hu].
        apply integrity_insert_favorite; [by eexists|by eexists|done].
  - intros id. unfold delete_comment. preserves_view.
    intros s. apply integrity_delete_comment.
  - apply integrity_User_save.
  - intros id s HP. split_and!.
    + by apply integrity_Category_delete.
    + by apply integrity_Movie_delete.
    + by apply integrity_User_delete.
    + by apply integrity_delete_comment.
    + by apply integrity_delete_favorite.
Qed.

(** X21.  Deleting a user removes the user's row, profile, movies, comments
    and favorites, and with each of the user's movies what deleting that
    movie removes: the comments and favorites other users left on it.  The
    other users, the categories, and every comment and favorite that is
    neither the user's nor on one of the user's movies are kept. *)
Theorem User_delete_cascades (s : Store) (id : pk) :
  let s' := User_delete id s in
  users s' !! id = None
  ∧ (∀ k, k ≠ id → users s' !! k = users s !! k)
  ∧ categories s' = categories s
  ∧ (∀ k p, profiles s' !! k = Some p → Profile.user p ≠ id)
  ∧ (∀ k m, movies s' !! k = Some m ↔ movies s !! k = Some m ∧ Movie.created_by m ≠ id)
  ∧ (∀ k c, comments s' !! k = Some c → Comment.user c ≠ id)
  ∧ (∀ k f, favorites s' !! k = Some f → Favorite.user f ≠ id)
  ∧ (∀ k m, movies s !! k = Some m → Movie.created_by m = id →
       comments s' ⊆ comments (Movie_delete k s)
       ∧ favorites s' ⊆ favorites (Movie_delete k s))
  ∧ (∀ k c, comments s !! k = Some c → Comment.user c ≠ id →
       (∀ m, movies s !! Comment.movie c = Some m → Movie.created_by m ≠ id) →
       comments s' !! k = Some c)
  ∧ (∀ k f, favorites s !! k = Some f → Favorite.user f ≠ id →
       (∀ m, movies s !! Favorite.movie f = Some m → Movie.created_by m ≠ id) →
       favorites s' !! k = Some f).
Proof.
  assert (Hother : ∀ k, (∀ m, movies s !! k = Some m → Movie.created_by m ≠ id) →
            Movie.created_by <$> movies s !! k ≠ Some id).
  { intros k H. destruct (movies s !! k) as [m|]; [|done]. simpl. intros [= Hby].
    by apply (H m). }
  simpl. split_and!.
  - apply lookup_delete_eq.
  - intros k Hne. by apply lookup_delete_ne.
  - done.
  - intros k p H. by apply map_lookup_filter_Some in H as [_ ?].
  - intros k m. by rewrite map_lookup_filter_Some.
  - intros k c H. by apply map_lookup_filter_Some in H as [_ [? _]].
  - intros k f H. by apply map_lookup_filter_Some in H as [_ [? _]].
  - intros k m Hk Hby. split.
    + apply map_subseteq_spec. intros k' c H.
      apply map_lookup_filter_Some in H as [H [_ Hm]]. apply map_lookup_filter_Some.
      split; [done|]. simpl in *. intros Heq. apply Hm. by rewrite Heq, Hk, <- Hby.
    + apply map_subseteq_spec. intros k' f H.
      apply map_lookup_filter_Some in H as [H [_ Hm]]. apply map_lookup_filter_Some.
      split; [done|]. simpl in *. intros Heq. apply Hm. by rewrite Heq, Hk, <- Hby.
  - intros k c Hk Hu Hm. apply map_lookup_filter_Some. split; [done|]. split; [done|].
    by apply Hother.
  - intros k f Hk Hu Hm. apply map_lookup_filter_Some. split; [done|]. split; [done|].
    by apply Hother.
Qed.

(** ** Saving a user *)

Lemma username_clash_false (name : string) (k : pk) (s : Store) :
  exists_ (qfilter (λ r : pk * User.t, User.username r.2 = name ∧ r.1 ≠ k)
                   (objects users) s) = false ↔
  ∀ k' u, users s !! k' = Some u → User.username u = name → k' = k.
Proof.
  unfold qfilter, objects.
  rewrite (filter_exists_false (λ r : pk * User.t, User.username r.2 = name ∧ r.1 ≠ k)).
  split.
  - intros H k' u Hk' Hname. destruct (decide (k' = k)) as [|Hne]; [done|].
    by destruct (H k' u Hk').
  - intros H k' u Hk' [Hname Hne]. by apply Hne, (H k' u).
Qed.

Lemma one_profile_create_or_update (instance : pk) (created : bool) :
  preserves one_profile_per_user (create_or_update_user_profile instance created).
Proof.
  intros w HP. unfold create_or_update_user_profile. destruct created.
  - run_step. destruct (exists_ _) eqn:Hex; [done|]. run_step. run_prims. cbn [snd db].
    unfold qfilter, objects in Hex.
    pose proof (proj1 (filter_exists_false
                         (λ r : pk * Profile.t, Profile.user r.2 = instance) _) Hex) as Hnone.
    intros k1 k2 p1 p2 H1 H2 Hsame. simpl in H1, H2.
    apply lookup_insert_Some in H1 as [[<- <-]|[Hne1 H1]];
      apply lookup_insert_Some in H2 as [[<- <-]|[Hne2 H2]]; try done.
    + by destruct (Hnone k2 p2 H2).
    + by destruct (Hnone k1 p1 H1).
    + by apply (HP k1 k2 p1 p2).
  - run_step. unfold qfilter, objects.
    destruct (get _) as [[k profile]|e] eqn:Hg; [|by destruct e].
    apply (filter_get_Return (λ r : pk * Profile.t, Profile.user r.2 = instance))
      in Hg as (Hk & _ & _).
    run_prims. cbn [snd db]. unfold set_profiles. cbn [profiles].
    by rewrite (insert_id _ _ _ Hk).
Qed.

(** X22.  Saving a user keeps user names unique and keeps at most one
    profile per user; a name another user already has makes the save raise
    [IntegrityError] before anything is written. *)
Theorem User_save_keeps_uniqueness (id : option pk) (row : User.t) :
  preserves usernames_unique (User_save id row)
  ∧ preserves one_profile_per_user (User_save id row)
  ∧ (∀ w k u,
       users (db w) !! k = Some u → User.username u = User.username row →
       Some k ≠ id →
       User_save id row w = (Raise IntegrityError, w)).
Proof.
  split_and!.
  - intros w HP. unfold User_save. do 3 run_step.
    destruct (exists_ _) eqn:Hclash; [done|]. run_step.
    pose proof (proj1 (username_clash_false _ _ _) Hclash) as Hfree.
    set (k := default (next_pk (users (db w))) id) in *.
    assert (Hrest : preserves usernames_unique
              (create_or_update_user_profile k
                 (negb match id with
                       | Some k0 => bool_decide (is_Some (users (db w) !! k0))
                       | None => false
                       end) ≫= λ _ : (), mret k)).
    { preserves_view; intros s; by intros Hs. }
    apply Hrest. cbn [db].
    intros k1 k2 u1 u2 H1 H2 Hname. simpl in H1, H2.
    apply lookup_insert_Some in H1 as [[<- <-]|[Hne1 H1]];
      apply lookup_insert_Some in H2 as [[<- <-]|[Hne2 H2]]; try done.
    + symmetry. by apply (Hfree k2 u2).
    + by apply (Hfree k1 u1).
    + by apply (HP k1 k2 u1 u2).
  - intros w HP. unfold User_save. do 3 run_step.
    destruct (exists_ _); [done|]. run_step. rewrite run_bind.
    set (w1 := {| db := _; _messages := _ |}).
    pose proof (one_profile_create_or_update (default (next_pk (users (db w))) id)
                  (negb match id with
                        | Some k0 => bool_decide (is_Some (users (db w) !! k0))
                        | None => false
                        end) w1 HP) as Hprofile.
    by destruct (create_or_update_user_profile _ _ w1) as [[[]|e] w2].
  - intros w k u Hk Hname Hne. unfold User_save. do 3 run_step.
    assert (exists_
              (qfilter (λ r : pk * User.t,
                          User.username r.2 = User.username row
                          ∧ r.1 ≠ default (next_pk (users (db w))) id)
                       (objects users) (db w)) = true) as ->; [|done].
    apply not_false_iff_true. intros Hfree.
    pose proof (proj1 (username_clash_false _ _ _) Hfree k u Hk Hname) as Heq.
    destruct id as [i|]; simpl in Heq.
    + by subst.
    + pose proof (next_pk_fresh (users (db w))) as Hfresh. rewrite <- Heq in Hfresh.
      congruence.
Qed.

(** ** Ratings a form accepts *)

Lemma DecimalValidator_places (d : Decimal.t) :
  DecimalValidator 3 1 d = true → -1 ≤ Decimal.exponent d.
Proof.
  unfold DecimalValidator. cbv zeta.
  destruct (Z.leb_spec 0 (Decimal.exponent d)) as [Hpos|Hneg]; [lia|].
  destruct (Z.ltb_spec (Z.of_nat (length (Decimal.digits d))) (Z.abs (Decimal.exponent d)));
    rewrite !andb_true_iff, !Z.leb_le; lia.
Qed.

Lemma Decimal_value_tenths (d : Decimal.t) :
  -1 ≤ Decimal.exponent d →
  ∃ n : Z, (Decimal.value d == n # 10)%Q.
Proof.
  intros He. unfold Decimal.value.
  set (sgn := if Decimal.sign d then (-1)%Z else 1%Z).
  assert (Hsgn : ((if Decimal.sign d then - (1) else 1) == inject_Z sgn)%Q).
  { unfold sgn. by destruct (Decimal.sign d). }
  destruct (decide (Decimal.exponent d = -1)) as [->|Hne].
  - exists (sgn * Decimal.coefficient d). rewrite Hsgn.
    change (10 ^ (-1))%Q with (1 # 10)%Q.
    rewrite <- inject_Z_mult. unfold Qeq, Qmult, inject_Z. simpl. lia.
  - exists (10 * (sgn * Decimal.coefficient d * 10 ^ Decimal.exponent d)). rewrite Hsgn.
    change 10%Q with (inject_Z 10).
    rewrite <- Zpower_Qpower by lia. rewrite <- !inject_Z_mult.
    unfold Qeq, inject_Z. simpl. lia.
Qed.

(** X23.  A rating that passes the validators of the rating field is a
    whole number of tenths between 0.0 and 10.0, one of 101 values; so is the
    rating of every movie a valid form builds. *)
Theorem accepted_ratings_are_tenths :
  (∀ d, rating_validators d = true →
        ∃ n : Z, 0 ≤ n ≤ 100 ∧ (Decimal.value d == n # 10)%Q)
  ∧ (∀ s instance form slug old_poster created_by created_at updated_at movie,
       MovieForm_errors s instance form = [] →
       construct_instance form slug old_poster created_by created_at updated_at
       = Some movie →
       ∃ n : Z, 0 ≤ n ≤ 100 ∧ (Decimal.value (Movie.rating movie) == n # 10)%Q).
Proof.
  assert (Htenths : ∀ d, rating_validators d = true →
            ∃ n : Z, 0 ≤ n ≤ 100 ∧ (Decimal.value d == n # 10)%Q).
  { intros d Hv.
    assert (Hplaces : DecimalValidator 3 1 d = true).
    { unfold rating_validators in Hv. by apply andb_true_iff in Hv as [[? _]%andb_true_iff _]. }
    destruct (Decimal_value_tenths d (DecimalValidator_places d Hplaces)) as [n Hn].
    exists n. split; [|done].
    destruct (rating_validators_in_range d Hv) as [Hlo Hhi].
    rewrite Hn in Hlo, Hhi. unfold Qle in Hlo, Hhi. simpl in Hlo, Hhi. lia. }
  split; [done|].
  intros s instance form slug old_poster created_by created_at updated_at movie Herr Hinst.
  destruct (MovieForm_valid_rating _ _ _ Herr) as (d & Hd & Hv).
  apply construct_instance_rating in Hinst. apply Htenths. congruence.
Qed.

Lemma accepted_ratings_are_tenths_witness :
  ∃ n : Z, 0 ≤ n ≤ 100 ∧ (Decimal.value (decimal false [8; 5]%nat (-1)) == n # 10)%Q.
Proof.
  apply (proj1 accepted_ratings_are_tenths (decimal false [8; 5]%nat (-1))). by vm_compute.
Defined.

(** ** Pagination *)

Lemma num_pages_covers (count : nat) :
  (1 ≤ num_pages count ∧ count ≤ num_pages count * paginate_by
   ∧ (num_pages count - 1) * paginate_by < Nat.max 1 count)%nat.
Proof.
  unfold num_pages, paginate_by. cbv zeta.
  pose proof (Nat.div_mod_eq (Nat.max 1 count + 12 - 1) 12) as Hdiv.
  pose proof (Nat.mod_upper_bound (Nat.max 1 count + 12 - 1) 12) as Hmod.
  lia.
Qed.

Lemma concat_chunks {A} (n : nat) (l : list A) :
  (length l ≤ n * paginate_by)%nat →
  concat ((λ i, take paginate_by (drop (i * paginate_by) l)) <$> seq 0 n) = l.
Proof.
  revert l. induction n as [|n IH]; intros l Hlen.
  - simpl in *. destruct l; [done|simpl in Hlen; lia].
  - simpl seq. rewrite <- fmap_S_seq. cbn [fmap list_fmap concat]. rewrite <- list_fmap_compose.
    rewrite drop_0.
    transitivity (take paginate_by l ++ drop paginate_by l)%list; [|apply take_drop].
    f_equal.
    assert (Hrest : (length (drop paginate_by l) ≤ n * paginate_by)%nat)
      by (rewrite length_drop; lia).
    etrans; [|apply (IH _ Hrest)]. f_equal.
    apply list_fmap_ext. intros _ i _. simpl. rewrite drop_drop. do 2 f_equal; lia.
Qed.

(** X24.  The twelve-per-page listing always has a first page, also for an
    empty list; a page number below 1 or beyond the last page is [Http404];
    every other page holds at most twelve entries, every page but the last
    holds twelve, and the pages laid end to end are the whole list, in
    order. *)
Theorem pages_partition_the_list {A} (object_list : list A) :
  let last := num_pages (length object_list) in
  (1 ≤ last)%nat
  ∧ (∀ number, number < 1 ∨ Z.of_nat last < number →
               paginate object_list number = Raise Http404)
  ∧ ∃ pages : list (list A),
      length pages = last
      ∧ (∀ i page, pages !! i = Some page →
           paginate object_list (Z.of_nat (S i)) = Return page
           ∧ (length page ≤ paginate_by)%nat
           ∧ (S i < last → length page = paginate_by)%nat)
      ∧ concat pages = object_list.
Proof.
  intros last. pose proof (num_pages_covers (length object_list)) as (H1 & Hcover & Hlast).
  fold last in H1, Hcover, Hlast. split_and!.
  - done.
  - intros number Hout. unfold paginate. fold last.
    destruct (Z.ltb_spec number 1); [done|].
    destruct (Z.ltb_spec (Z.of_nat last) number); [done|lia].
  - exists ((λ i, take paginate_by (drop (i * paginate_by) object_list)) <$> seq 0 last).
    split_and!.
    + by rewrite length_fmap, length_seq.
    + intros i page Hi. apply list_lookup_fmap_Some in Hi as (j & -> & Hj).
      apply lookup_seq in Hj as [-> Hlt]. simpl in *. split_and!.
      * unfold paginate. fold last.
        destruct (Z.ltb_spec (Z.of_nat (S i)) 1); [lia|].
        destruct (Z.ltb_spec (Z.of_nat last) (Z.of_nat (S i))); [lia|].
        cbv zeta. by replace (Z.to_nat (Z.of_nat (S i)) - 1)%nat with i by lia.
      * rewrite length_take. lia.
      * intros Hnotlast. rewrite length_take, length_drop. unfold paginate_by in *. lia.
    + by apply concat_chunks.
Qed.

